(** * imgshow: the media ingestion pipeline ([ImageProcessor])

    A shallow embedding of [lib/storage/image-processor.ts].  The class's
    private helpers become functions of the same name.  The three external
    collaborators are kept at their interface:

    - the [sharp] codec library is a record of two functions over byte
      buffers (a call that throws returns [None]);
    - the object store ([put] of [@vercel/blob]), the [uuid] generator and
      the wall clock act on an abstract world [W];
    - every call to a collaborator is recorded in a trace of events, so that
      ordering properties of the pipeline can be stated. *)

From Stdlib Require Import ZArith NArith List String Ascii Bool Lia Sorted Permutation.
From Stdlib.Strings Require Import Byte.
From Stdlib Require Import HexadecimalString.
Import ListNotations.
Local Open Scope Z_scope.

(** ** JavaScript values used by the source *)

Module JS.

(** A [Buffer] / [Uint8Array]: indexable bytes. *)
Definition Buffer := list byte.

Definition byteLength (b : Buffer) : Z := Z.of_nat (List.length b).

(** [data[i]]: [None] is [undefined]. *)
Definition index (data : Buffer) (i : nat) : option Z :=
  option_map (fun b => Z.of_N (Byte.to_N b)) (nth_error data i).

(** Truthiness of an optional number: [undefined] and [0] are falsy. *)
Definition truthy (o : option Z) : bool :=
  match o with
  | Some n => negb (n =? 0)
  | None => false
  end.

(** [x || d] on an optional number. *)
Definition orElse (o : option Z) (d : Z) : Z :=
  if truthy o then match o with Some n => n | None => d end else d.

(** [a < k] with [a] possibly [undefined] ([NaN < k] is [false]). *)
Definition lt (a : option Z) (k : Z) : bool :=
  match a with
  | Some n => n <? k
  | None => false
  end.

(** [String.prototype.toLowerCase].  A string is a sequence of code units
    below U+0100, one [ascii] each.  On these the method maps each unit on
    its own: the capitals [A]-[Z] (U+0041-U+005A) and U+00C0-U+00DE, the
    multiplication sign U+00D7 apart, move up by 32; no other unit has a
    lower-case form.  Units from U+0100 on, where the result depends on
    the neighbours (final sigma) or is longer than the input (U+0130),
    are not values of this type. *)
Definition lowerUnit (c : ascii) : ascii :=
  let n := nat_of_ascii c in
  if ((Nat.leb 65 n && Nat.leb n 90)
      || (Nat.leb 192 n && Nat.leb n 222 && negb (Nat.eqb n 215)))%bool
  then ascii_of_nat (n + 32) else c.

Fixpoint toLowerCase (s : string) : string :=
  match s with
  | EmptyString => EmptyString
  | String c r => String (lowerUnit c) (toLowerCase r)
  end.

(** [s.split(sep)] for a one-character separator: never empty. *)
Fixpoint split (sep : ascii) (s : string) : list string :=
  match s with
  | EmptyString => [EmptyString]
  | String c r =>
      if Ascii.eqb c sep then EmptyString :: split sep r
      else match split sep r with
           | h :: t => String c h :: t
           | [] => [String c EmptyString]
           end
  end.

(** [arr.pop()]: the last element, [undefined] on the empty array. *)
Fixpoint pop (l : list string) : option string :=
  match l with
  | [] => None
  | [x] => Some x
  | _ :: t => pop t
  end.

(** [arr.includes(x)] on strings. *)
Definition includes (l : list string) (x : string) : bool :=
  existsb (String.eqb x) l.

Definition startsWith (s p : string) : bool := String.prefix p s.

(** A [Date] holds a time value in milliseconds since the epoch, of at
    most 8.64e15 on either side; [new Date(t)] for a [t] beyond that is an
    invalid date.  Valid time values are below 2^53, so the sums that lead
    to one are exact in the source's floating-point arithmetic. *)
Definition maxTime : Z := 8640000000000000.

Definition validTime (t : Z) : bool := ((- maxTime <=? t) && (t <=? maxTime))%bool.

(** [n.toString(16)] for a non-negative integer. *)
Definition toString16 (n : Z) : string :=
  NilZero.string_of_uint (N.to_hex_uint (Z.to_N n)).

Fixpoint repeatChar (c : ascii) (n : nat) : string :=
  match n with
  | O => EmptyString
  | S k => String c (repeatChar c k)
  end.

(** [s.padStart(target, c)]. *)
Definition padStart (target : nat) (c : ascii) (s : string) : string :=
  (repeatChar c (target - String.length s) ++ s)%string.

End JS.

(** ** Data model ([types/index.ts])

    A [number] is an integer: sizes in bytes, pixels, minutes, a quality
    between 0 and 100.  A [string] is a sequence of code units below
    U+0100. *)

Record File := {
  file_name : string;
  file_type : string;
  file_size : Z;
  file_bytes : JS.Buffer          (* what [file.arrayBuffer()] resolves to *)
}.

Record UploadOptions := {
  auto_delete_minutes : option Z;
  is_public : option bool;
  password : option string;
  album_id : option string;
  tags : option (list string);
  quality : option Z;
  max_width : option Z;
  max_height : option Z;
  convert_to_webp : option bool
}.

(** [options = {}] *)
Definition noOptions : UploadOptions :=
  {| auto_delete_minutes := None; is_public := None; password := None;
     album_id := None; tags := None; quality := None; max_width := None;
     max_height := None; convert_to_webp := None |}.

Record ImageMetadata := {
  exif : option JS.Buffer;
  color_palette : option (list string);
  dominant_color : option string;
  is_animated : option bool;
  duration : option Z;
  quality_score : option Z
}.

(** The object literal [{}]. *)
Definition emptyMetadata : ImageMetadata :=
  {| exif := None; color_palette := None; dominant_color := None;
     is_animated := None; duration := None; quality_score := None |}.

(** Dates are kept as epoch milliseconds, the time value [toISOString]
    renders. *)
Record Image := {
  img_id : string;
  img_user_id : string;
  img_filename : string;
  img_original_name : string;
  img_mime_type : string;
  img_size : Z;
  img_width : Z;
  img_height : Z;
  img_url : string;
  img_thumbnail_url : option string;
  img_is_public : bool;
  img_password : option string;
  img_album_id : option string;
  img_auto_delete_at : option Z;
  img_created_at : Z;
  img_updated_at : Z;
  img_view_count : Z;
  img_download_count : Z;
  img_tags : list string;
  img_metadata : ImageMetadata
}.

(** ** The [sharp] interface *)

Inductive Fit := FitCover | FitInside.
Inductive Position := PosCentre.

Record ResizeOptions := {
  rz_width : option Z;
  rz_height : option Z;
  rz_fit : Fit;
  rz_position : Position;
  rz_withoutEnlargement : bool
}.

Inductive Output :=
| OutInput                (* no output call: the input's own format *)
| OutWebp (quality : Z)   (* [.webp({ quality })] *)
| OutRaw.                 (* [.raw()] *)

(** A [sharp(buffer)] object with the operations chained on it so far. *)
Record SharpPipeline := {
  sp_input : JS.Buffer;
  sp_resize : option ResizeOptions;
  sp_output : Output
}.

Definition sharp (buffer : JS.Buffer) : SharpPipeline :=
  {| sp_input := buffer; sp_resize := None; sp_output := OutInput |}.

Definition resize (o : ResizeOptions) (p : SharpPipeline) : SharpPipeline :=
  {| sp_input := sp_input p; sp_resize := Some o; sp_output := sp_output p |}.

Definition webp (q : Z) (p : SharpPipeline) : SharpPipeline :=
  {| sp_input := sp_input p; sp_resize := sp_resize p; sp_output := OutWebp q |}.

Definition raw (p : SharpPipeline) : SharpPipeline :=
  {| sp_input := sp_input p; sp_resize := sp_resize p; sp_output := OutRaw |}.

(** [.resize(w, h, { fit, position })]; sharp's defaults are cover / centre. *)
Definition resizeTo (w h : Z) (f : Fit) : ResizeOptions :=
  {| rz_width := Some w; rz_height := Some h; rz_fit := f;
     rz_position := PosCentre; rz_withoutEnlargement := false |}.

Record SharpMetadata := {
  md_width : option Z;
  md_height : option Z;
  md_exif : option JS.Buffer;
  md_pages : option Z;
  md_duration : option Z;
  md_density : option Z;
  md_size : option Z
}.

Record OutputInfo := {
  info_width : Z;
  info_height : Z;
  info_channels : Z
}.

(** The codec library: [None] stands for a rejected promise. *)
Record Sharp := {
  sharp_metadata : JS.Buffer -> option SharpMetadata;
  sharp_toBuffer : SharpPipeline -> option (JS.Buffer * OutputInfo)
}.

(** ** The outside world *)

Record Platform (W : Type) := {
  uuidv4 : W -> string * W;
  blob_put : string -> JS.Buffer -> string -> W -> option string * W;
  date_now : W -> Z * W
}.
Arguments uuidv4 {W}.
Arguments blob_put {W}.
Arguments date_now {W}.

(** ** Errors and the pipeline monad *)

(** The source throws plain [Error]s; they are told apart by where they are
    raised, with the names the specification gives them. *)
Inductive PipelineError :=
| PayloadTooLarge      (* "File size exceeds maximum limit of 32MB" *)
| UnsupportedFormat    (* "Unsupported file format. ..." *)
| TypeMismatch         (* "File must be an image or PDF" *)
| DecodeError          (* a [sharp] call rejected *)
| PublishError         (* [put] rejected *)
| TypeError            (* a method called on [undefined] *)
| RangeError.          (* [toISOString] of an invalid date *)

Inductive Result (A : Type) :=
| Ok (a : A)
| Err (e : PipelineError).
Arguments Ok {A}.
Arguments Err {A}.

Inductive Event :=
| EvUuid
| EvArrayBuffer
| EvMetadata (b : JS.Buffer)
| EvToBuffer (p : SharpPipeline)
| EvPut (filename : string) (body : JS.Buffer) (contentType : string)
| EvNow
| EvConsoleError.

(** A decode is any call that makes [sharp] read the bytes. *)
Definition is_decode (e : Event) : bool :=
  match e with
  | EvMetadata _ | EvToBuffer _ => true
  | _ => false
  end.

Definition is_put (e : Event) : bool :=
  match e with
  | EvPut _ _ _ => true
  | _ => false
  end.

Record St (W : Type) := {
  st_world : W;
  st_trace : list Event
}.
Arguments st_world {W}.
Arguments st_trace {W}.

Definition M (W A : Type) : Type := St W -> Result A * St W.

Definition ret {W A} (a : A) : M W A := fun s => (Ok a, s).

Definition throw {W A} (e : PipelineError) : M W A := fun s => (Err e, s).

Definition bind {W A B} (m : M W A) (k : A -> M W B) : M W B :=
  fun s =>
    match m s with
    | (Ok a, s') => k a s'
    | (Err e, s') => (Err e, s')
    end.

(** [try { body } catch (error) { handler }] *)
Definition try_catch {W A} (body : M W A) (handler : PipelineError -> M W A)
  : M W A :=
  fun s =>
    match body s with
    | (Ok a, s') => (Ok a, s')
    | (Err e, s') => handler e s'
    end.

Definition lift {W A} (r : Result A) : M W A := fun s => (r, s).

(** The state once [e] has been added to the trace. *)
Definition logged {W} (e : Event) (s : St W) : St W :=
  {| st_world := st_world s; st_trace := st_trace s ++ [e] |}.

Definition emit {W} (e : Event) : M W unit :=
  fun s => (Ok tt, logged e s).

Declare Scope pipeline_scope.
Delimit Scope pipeline_scope with pipeline.
Notation "x <- m ;; k" := (bind m (fun x => k))
  (at level 61, m at next level, right associativity) : pipeline_scope.
Notation "m ;;; k" := (bind m (fun _ => k))
  (at level 61, right associativity) : pipeline_scope.

(** ** [Map<string, number>]: keys stay in insertion order *)

Module ColorMap.

Definition t := list (string * Z).

Definition empty : t := [].

Fixpoint get (m : t) (k : string) : option Z :=
  match m with
  | [] => None
  | (k', v) :: r => if String.eqb k' k then Some v else get r k
  end.

(** [set] keeps the position of a key that is already there and adds a
    new key at the end. *)
Fixpoint set (m : t) (k : string) (v : Z) : t :=
  match m with
  | [] => [(k, v)]
  | (k', v') :: r =>
      if String.eqb k' k then (k', v) :: r else (k', v') :: set r k v
  end.

(** [Array.from(m.entries())] *)
Definition entries (m : t) : list (string * Z) := m.

End ColorMap.

(** ** [Array.prototype.sort] with a comparator

    The sort is stable (ECMAScript 2019); for a consistent comparator its
    result does not depend on the algorithm.  It is modelled by a stable
    insertion sort: an element goes before the first one it does not
    compare greater than. *)

Section ArraySort.
Context {A : Type} (cmp : A -> A -> Z).

Fixpoint sort_insert (x : A) (l : list A) : list A :=
  match l with
  | [] => [x]
  | y :: r => if cmp x y <=? 0 then x :: y :: r else y :: sort_insert x r
  end.

Fixpoint array_sort (l : list A) : list A :=
  match l with
  | [] => []
  | x :: r => sort_insert x (array_sort r)
  end.
End ArraySort.

(** ** The class [ImageProcessor] *)

Definition MAX_FILE_SIZE : Z := 32 * 1024 * 1024.

Definition SUPPORTED_FORMATS : list string :=
  ["jpg"; "jpeg"; "png"; "gif"; "webp"; "heic"; "avif"; "pdf"]%string.

Module QUALITY_LEVELS.
Definition low : Z := 60.
Definition medium : Z := 80.
Definition high : Z := 90.
Definition original : Z := 100.
End QUALITY_LEVELS.

(** [filename.split('.').pop()?.toLowerCase() || ''] *)
Definition getFileExtension (filename : string) : string :=
  match JS.pop (JS.split "."%char filename) with
  | Some s =>
      match JS.toLowerCase s with
      | EmptyString => EmptyString
      | l => l
      end
  | None => EmptyString
  end.

Definition validateFile (file : File) : Result unit :=
  if file_size file >? MAX_FILE_SIZE then Err PayloadTooLarge
  else
    let extension := JS.toLowerCase (getFileExtension (file_name file)) in
    if negb (JS.includes SUPPORTED_FORMATS extension) then Err UnsupportedFormat
    else
      if (negb (JS.startsWith (file_type file) "image/")
          && negb (String.eqb (file_type file) "application/pdf"))%bool
      then Err TypeMismatch
      else Ok tt.

Definition getQualityLevel (quality : option Z) : Z :=
  if negb (JS.truthy quality) then QUALITY_LEVELS.medium
  else
    match quality with
    | None => QUALITY_LEVELS.medium
    | Some q =>
        if q <=? 30 then QUALITY_LEVELS.low
        else if q <=? 70 then QUALITY_LEVELS.medium
        else if q <=? 90 then QUALITY_LEVELS.high
        else QUALITY_LEVELS.original
    end.

Definition getDominantColor (colorPalette : list string) : string :=
  match colorPalette with
  | EmptyString :: _ => "#000000"%string
  | c :: _ => c
  | [] => "#000000"%string
  end.

(** Comparisons with [undefined] are [false]; [&&] needs a truthy left side. *)
Definition calculateQualityScore (metadata : SharpMetadata) : Z :=
  let score := 100 in
  let score :=
    if (JS.lt (md_width metadata) 800 || JS.lt (md_height metadata) 600)%bool
    then score - 20 else score in
  let score :=
    if (JS.truthy (md_density metadata) && JS.lt (md_density metadata) 72)%bool
    then score - 15 else score in
  let score :=
    if (JS.truthy (md_size metadata) && JS.lt (md_size metadata) 50000)%bool
    then score - 10 else score in
  Z.max 0 (Z.min 100 score).

(** [x.toString(16).padStart(2, '0')]; [x] is [undefined] past the end of
    the buffer and the method call then throws. *)
Definition hex2 (x : option Z) : Result string :=
  match x with
  | Some n => Ok (JS.padStart 2 "0"%char (JS.toString16 n))
  | None => Err TypeError
  end.

(** One turn of the sampling loop of [extractColorPalette], at offset [i]. *)
Definition paletteStep (data : JS.Buffer) (i : nat) (colors : ColorMap.t)
  : Result ColorMap.t :=
  let r := JS.index data i in
  let g := JS.index data (i + 1) in
  let b := JS.index data (i + 2) in
  let a := JS.index data (i + 3) in
  if JS.lt a 128 then Ok colors
  else
    match hex2 r with
    | Err e => Err e
    | Ok hr =>
        match hex2 g with
        | Err e => Err e
        | Ok hg =>
            match hex2 b with
            | Err e => Err e
            | Ok hb =>
                let color := ("#" ++ hr ++ hg ++ hb)%string in
                Ok (ColorMap.set colors color
                      (JS.orElse (ColorMap.get colors color) 0 + 1))
            end
        end
    end.

(** [for (let i = 0; i < data.length; i += step * 10)]: every turn moves
    [i] forward, so [data.length] turns are always enough. *)
Fixpoint paletteLoop (fuel : nat) (data : JS.Buffer) (i : nat)
    (colors : ColorMap.t) : Result ColorMap.t :=
  match fuel with
  | O => Ok colors
  | S fuel' =>
      if Nat.ltb i (List.length data) then
        match paletteStep data i colors with
        | Ok colors' => paletteLoop fuel' data (i + 4 * 10) colors'
        | Err e => Err e
        end
      else Ok colors
  end.

Definition byFrequency (a b : string * Z) : Z := snd b - snd a.

Definition extractColorPalette (data : JS.Buffer) (width height : Z)
  : Result (list string) :=
  match paletteLoop (List.length data) data 0 ColorMap.empty with
  | Err e => Err e
  | Ok colors =>
      Ok (map fst (firstn 10 (array_sort byFrequency (ColorMap.entries colors))))
  end.

(** [new Date(t).toISOString()]: throws on an invalid date. *)
Definition toISOString (t : Z) : Result Z :=
  if JS.validTime t then Ok t else Err RangeError.

(** The value [processImageFile] resolves to. *)
Record Processed := {
  pr_buffer : JS.Buffer;
  pr_width : Z;
  pr_height : Z;
  pr_thumbnail : option JS.Buffer;
  pr_thumbnailWidth : Z;
  pr_thumbnailHeight : Z
}.

(** The value [createThumbnail] resolves to. *)
Record Thumbnail := {
  th_buffer : JS.Buffer;
  th_width : Z;
  th_height : Z
}.

Section ImageProcessor.
Context {W : Type}.
Variable lib : Sharp.
Variable sys : Platform W.

Local Open Scope pipeline_scope.

(** *** Calls to the collaborators, each leaving its event *)

Definition call_uuidv4 : M W string :=
  emit EvUuid ;;;
  fun s => let (id, w) := uuidv4 sys (st_world s) in
           (Ok id, {| st_world := w; st_trace := st_trace s |}).

Definition call_now : M W Z :=
  emit EvNow ;;;
  fun s => let (t, w) := date_now sys (st_world s) in
           (Ok t, {| st_world := w; st_trace := st_trace s |}).

Definition call_arrayBuffer (file : File) : M W JS.Buffer :=
  emit EvArrayBuffer ;;; ret (file_bytes file).

(** [await sharp(buffer).metadata()] *)
Definition call_metadata (buffer : JS.Buffer) : M W SharpMetadata :=
  emit (EvMetadata buffer) ;;;
  match sharp_metadata lib buffer with
  | Some m => ret m
  | None => throw DecodeError
  end.

(** [await pipeline.toBuffer({ resolveWithObject: true })] *)
Definition call_toBufferObj (p : SharpPipeline) : M W (JS.Buffer * OutputInfo) :=
  emit (EvToBuffer p) ;;;
  match sharp_toBuffer lib p with
  | Some r => ret r
  | None => throw DecodeError
  end.

(** [await pipeline.toBuffer()] *)
Definition call_toBuffer (p : SharpPipeline) : M W JS.Buffer :=
  r <- call_toBufferObj p ;; ret (fst r).

(** [await put(filename, buffer, { access: 'public', contentType })] *)
Definition call_put (filename : string) (buffer : JS.Buffer)
    (contentType : string) : M W string :=
  emit (EvPut filename buffer contentType) ;;;
  fun s =>
    match blob_put sys filename buffer contentType (st_world s) with
    | (Some url, w) => (Ok url, {| st_world := w; st_trace := st_trace s |})
    | (None, w) => (Err PublishError, {| st_world := w; st_trace := st_trace s |})
    end.

(** *** The methods *)

Definition uploadToBlob (buffer : JS.Buffer) (filename contentType : string)
  : M W string :=
  call_put filename buffer contentType.

Definition thumbnailPipeline (buffer : JS.Buffer) : SharpPipeline :=
  webp 80 (resize (resizeTo 300 300 FitCover) (sharp buffer)).

Definition createThumbnail (buffer : JS.Buffer) : M W Thumbnail :=
  thumbnail <- call_toBuffer (thumbnailPipeline buffer) ;;
  md <- call_metadata thumbnail ;;
  ret {| th_buffer := thumbnail;
         th_width := JS.orElse (md_width md) 300;
         th_height := JS.orElse (md_height md) 300 |}.

(** The chain of calls [processImageFile] builds before [toBuffer]. *)
Definition primaryPipeline (buffer : JS.Buffer) (options : UploadOptions)
  : SharpPipeline :=
  let processedImage := sharp buffer in
  let processedImage :=
    if (JS.truthy (max_width options) || JS.truthy (max_height options))%bool
    then
      resize {| rz_width := if JS.truthy (max_width options)
                            then max_width options else None;
                rz_height := if JS.truthy (max_height options)
                             then max_height options else None;
                rz_fit := FitInside;
                rz_position := PosCentre;
                rz_withoutEnlargement := true |} processedImage
    else processedImage in
  let not_false := match convert_to_webp options with
                   | Some false => false
                   | _ => true
                   end in
  let processedImage :=
    if not_false
    then webp (getQualityLevel (quality options)) processedImage
    else processedImage in
  let processedImage :=
    if (JS.truthy (quality options) && not_false)%bool
    then webp (getQualityLevel (quality options)) processedImage
    else processedImage in
  processedImage.

Definition processImageFile (file : File) (options : UploadOptions)
  : M W Processed :=
  buffer <- call_arrayBuffer file ;;
  imageInfo <- call_metadata buffer ;;
  let width := match md_width imageInfo with Some w => w | None => 0 end in
  let height := match md_height imageInfo with Some h => h | None => 0 end in
  processedBuffer <- call_toBuffer (primaryPipeline buffer options) ;;
  thumbnail <- createThumbnail buffer ;;
  ret {| pr_buffer := processedBuffer;
         pr_width := width;
         pr_height := height;
         pr_thumbnail := Some (th_buffer thumbnail);
         pr_thumbnailWidth := th_width thumbnail;
         pr_thumbnailHeight := th_height thumbnail |}.

(** The body of the [try] block of [extractMetadata]. *)
Definition extractMetadataBody (buffer : JS.Buffer) (file : File)
  : M W ImageMetadata :=
  metadata <- call_metadata buffer ;;
  r <- call_toBufferObj (raw (resize (resizeTo 150 150 FitCover) (sharp buffer))) ;;
  let (data, info) := r in
  colorPalette <- lift (extractColorPalette data (info_width info) (info_height info)) ;;
  let dominantColor := getDominantColor colorPalette in
  ret {| exif := md_exif metadata;
         color_palette := Some colorPalette;
         dominant_color := Some dominantColor;
         is_animated := Some (if JS.truthy (md_pages metadata)
                              then match md_pages metadata with
                                   | Some n => n >? 1
                                   | None => false
                                   end
                              else false);
         duration := md_duration metadata;
         quality_score := Some (calculateQualityScore metadata) |}.

Definition extractMetadata (buffer : JS.Buffer) (file : File)
  : M W ImageMetadata :=
  try_catch (extractMetadataBody buffer file)
    (fun error => emit EvConsoleError ;;; ret emptyMetadata).

Definition processImage (file : File) (options : UploadOptions)
  : M W (Image * option Image) :=
  lift (validateFile file) ;;;
  fileId <- call_uuidv4 ;;
  let fileExtension := getFileExtension (file_name file) in
  let filename := (fileId ++ "." ++ fileExtension)%string in
  let thumbnailFilename := (fileId ++ "_thumb.webp")%string in
  processedImage <- processImageFile file options ;;
  imageUrl <- uploadToBlob (pr_buffer processedImage) filename (file_type file) ;;
  thumbnailUrl <-
    match pr_thumbnail processedImage with
    | Some t => u <- uploadToBlob t thumbnailFilename "image/webp" ;; ret (Some u)
    | None => ret None
    end ;;
  metadata <- extractMetadata (pr_buffer processedImage) file ;;
  auto_delete_at <-
    (if JS.truthy (auto_delete_minutes options)
     then now <- call_now ;;
          iso <- lift (toISOString
                         (now + JS.orElse (auto_delete_minutes options) 0 * 60 * 1000)) ;;
          ret (Some iso)
     else ret None) ;;
  (* [new Date()] is the present time, which is always a valid date *)
  created_at <- call_now ;;
  updated_at <- call_now ;;
  let image :=
    {| img_id := fileId;
       img_user_id := "";
       img_filename := filename;
       img_original_name := file_name file;
       img_mime_type := file_type file;
       img_size := file_size file;
       img_width := pr_width processedImage;
       img_height := pr_height processedImage;
       img_url := imageUrl;
       img_thumbnail_url := thumbnailUrl;
       img_is_public := match is_public options with Some b => b | None => true end;
       img_password := password options;
       img_album_id := album_id options;
       img_auto_delete_at := auto_delete_at;
       img_created_at := created_at;
       img_updated_at := updated_at;
       img_view_count := 0;
       img_download_count := 0;
       img_tags := match tags options with Some l => l | None => [] end;
       img_metadata := metadata |} in
  thumbnail <-
    match pr_thumbnail processedImage with
    | Some t =>
        t_created_at <- call_now ;;
        t_updated_at <- call_now ;;
        ret (Some
          {| img_id := (fileId ++ "_thumb")%string;
             img_user_id := "";
             img_filename := thumbnailFilename;
             img_original_name := (file_name file ++ "_thumbnail")%string;
             img_mime_type := "image/webp";
             img_size := JS.byteLength t;
             img_width := pr_thumbnailWidth processedImage;
             img_height := pr_thumbnailHeight processedImage;
             img_url := match thumbnailUrl with Some u => u | None => "" end;
             img_thumbnail_url := None;
             img_is_public := match is_public options with Some b => b | None => true end;
             img_password := None;
             img_album_id := None;
             img_auto_delete_at := None;
             img_created_at := t_created_at;
             img_updated_at := t_updated_at;
             img_view_count := 0;
             img_download_count := 0;
             img_tags := [];
             img_metadata := emptyMetadata |})
    | None => ret None
    end ;;
  ret (image, thumbnail).

End ImageProcessor.

(** ** Vocabulary of the statements *)

(** *** Palette: what is sampled, and how colours are ranked *)

Module Palette.

(** The loop visits the offsets [0, 40, 80, ...] below [data.length]. *)
Definition sampled (i : nat) : bool := Nat.eqb (i mod 40) 0.

(** The fourth byte from offset [i], which the loop reads as the alpha of
    the pixel there, is below 128. *)
Definition transparent (data : JS.Buffer) (i : nat) : bool :=
  match nth_error data (i + 3) with
  | Some a => Z.of_N (Byte.to_N a) <? 128
  | None => false
  end.

Definition counted (data : JS.Buffer) (i : nat) : bool :=
  (sampled i && negb (transparent data i))%bool.

(** The visited offsets that enter the frequency table, in scan order. *)
Definition countedOffsets (data : JS.Buffer) : list nat :=
  filter (counted data) (seq 0 (List.length data)).

Definition hexByte (b : byte) : string :=
  JS.padStart 2 "0"%char (JS.toString16 (Z.of_N (Byte.to_N b))).

(** The colour string made of the three bytes from offset [i]. *)
Definition colorAt (data : JS.Buffer) (i : nat) : option string :=
  match nth_error data i, nth_error data (i + 1), nth_error data (i + 2) with
  | Some r, Some g, Some b => Some ("#" ++ hexByte r ++ hexByte g ++ hexByte b)%string
  | _, _, _ => None
  end.

Definition isHexDigit (c : ascii) : bool :=
  let n := nat_of_ascii c in
  ((Nat.leb 48 n && Nat.leb n 57) || (Nat.leb 97 n && Nat.leb n 102))%bool.

Fixpoint allHex (s : string) : bool :=
  match s with
  | EmptyString => true
  | String c r => (isHexDigit c && allHex r)%bool
  end.

(** Exactly two hexadecimal digits. *)
Definition twoHex (s : string) : bool :=
  match s with
  | String c1 (String c2 EmptyString) => (isHexDigit c1 && isHexDigit c2)%bool
  | _ => false
  end.

(** ['#'] followed by exactly six hexadecimal digits. *)
Definition isHexColor (s : string) : bool :=
  match s with
  | String "#"%char r => (Nat.eqb (String.length r) 6 && allHex r)%bool
  | _ => false
  end.

(** How often [c] occurs in the scan [cs]. *)
Definition frequency (cs : list string) (c : string) : nat :=
  count_occ string_dec cs c.

(** Position of the first occurrence of [c] in the scan [cs]. *)
Fixpoint firstIndex (cs : list string) (c : string) : nat :=
  match cs with
  | [] => O
  | x :: r => if String.eqb x c then O else S (firstIndex r c)
  end.

(** [a] is ranked before [b]: more frequent, or as frequent and met first. *)
Definition outranks (cs : list string) (a b : string) : Prop :=
  (frequency cs b < frequency cs a)%nat \/
  (frequency cs a = frequency cs b /\ (firstIndex cs a < firstIndex cs b)%nat).

(** The frequency table after the scan [cs]. *)
Definition tallyStep (m : ColorMap.t) (c : string) : ColorMap.t :=
  ColorMap.set m c (JS.orElse (ColorMap.get m c) 0 + 1).

Definition tally (cs : list string) (m : ColorMap.t) : ColorMap.t :=
  fold_left tallyStep cs m.

(** [a] was met before [b] in the scan. *)
Definition metEarlier (cs : list string) (a b : string) : Prop :=
  (firstIndex cs a < firstIndex cs b)%nat.

(** The order the comparator of the sort induces on table entries, given
    an order [P] on the keys for ties. *)
Definition entryBefore (P : string -> string -> Prop) (a b : string * Z) : Prop :=
  snd b < snd a \/ (snd a = snd b /\ P (fst a) (fst b)).

(** The table [m] is exactly the tally of the scan [cs]: one entry per
    colour, with its count, in the order the colours were first met. *)
Definition TallyOf (cs : list string) (m : ColorMap.t) : Prop :=
  NoDup (map fst m) /\
  (forall c, In c (map fst m) <-> In c cs) /\
  Forall (fun e => snd e = Z.of_nat (frequency cs (fst e))) m /\
  StronglySorted (metEarlier cs) (map fst m).

End Palette.

(** *** Rasters: pixels, and the raw buffers [sharp] makes of them *)

Module Raster.

(** One pixel of a decoded image; in an image without alpha channel every
    pixel is opaque. *)
Record Pixel := {
  px_red : byte;
  px_green : byte;
  px_blue : byte;
  px_alpha : byte
}.

(** Raw output with four channels: [r, g, b, a] for each pixel in turn. *)
Definition rgba (pixels : list Pixel) : JS.Buffer :=
  flat_map (fun p => [px_red p; px_green p; px_blue p; px_alpha p]) pixels.

(** Raw output with three channels, as [sharp] gives it for an image
    without alpha channel: [r, g, b] for each pixel in turn. *)
Definition rgb (pixels : list Pixel) : JS.Buffer :=
  flat_map (fun p => [px_red p; px_green p; px_blue p]) pixels.

Definition visible (p : Pixel) : bool :=
  negb (Z.of_N (Byte.to_N (px_alpha p)) <? 128).

Definition hexDigit (n : N) : ascii :=
  nth (N.to_nat n) (list_ascii_of_string "0123456789abcdef") "0"%char.

(** The two hexadecimal digits of a byte. *)
Definition hexOf (b : byte) : string :=
  let n := Byte.to_N b in
  String (hexDigit (n / 16)) (String (hexDigit (n mod 16)) EmptyString).

Definition colourOf (p : Pixel) : string :=
  ("#" ++ hexOf (px_red p) ++ hexOf (px_green p) ++ hexOf (px_blue p))%string.

(** Every tenth pixel, the first one included; [k] is the number of the
    pixel at the head of the list. *)
Fixpoint everyTenthFrom (k : nat) (pixels : list Pixel) : list Pixel :=
  match pixels with
  | [] => []
  | p :: r =>
      if Nat.eqb (k mod 10) 0 then p :: everyTenthFrom (S k) r
      else everyTenthFrom (S k) r
  end.

Definition sampledPixels (pixels : list Pixel) : list Pixel :=
  everyTenthFrom 0 pixels.

(** The colours to count: those of the sampled pixels that are not
    transparent, in the order of the pixels. *)
Definition scan (pixels : list Pixel) : list string :=
  map colourOf (filter visible (sampledPixels pixels)).

End Raster.

(** *** A stand-in codec and platform, to run the pipeline on inputs

    The codec reads an uncompressed raster: width and height as two
    big-endian 16-bit numbers, then RGBA samples.  Resizing rewrites the
    header and keeps the leading samples that fit the new size. *)

Module Fixture.

Definition byteOfZ (z : Z) : byte :=
  match Byte.of_N (Z.to_N z) with
  | Some b => b
  | None => x00
  end.

Definition zOfByte (b : byte) : Z := Z.of_N (Byte.to_N b).

Definition header (w h : Z) : JS.Buffer :=
  [byteOfZ (w / 256); byteOfZ (w mod 256); byteOfZ (h / 256); byteOfZ (h mod 256)].

Definition dims (b : JS.Buffer) : option (Z * Z) :=
  match b with
  | a :: b :: c :: d :: _ =>
      Some (256 * zOfByte a + zOfByte b, 256 * zOfByte c + zOfByte d)
  | _ => None
  end.

(** Rounded [a * n / d]. *)
Definition scale (a n d : Z) : Z := (a * n + d / 2) / d.

(** Fit inside the box, keeping the aspect ratio. *)
Definition inside (w h : Z) (o : ResizeOptions) : Z * Z :=
  let byWidth bw := (bw, scale h bw w) in
  let byHeight bh := (scale w bh h, bh) in
  let target :=
    match rz_width o, rz_height o with
    | Some bw, Some bh => if bw * h <=? bh * w then byWidth bw else byHeight bh
    | Some bw, None => byWidth bw
    | None, Some bh => byHeight bh
    | None, None => (w, h)
    end in
  if (rz_withoutEnlargement o && ((w <? fst target) || (h <? snd target)))%bool
  then (w, h) else target.

Definition newDims (w h : Z) (r : option ResizeOptions) : Z * Z :=
  match r with
  | None => (w, h)
  | Some o =>
      match rz_fit o with
      | FitInside => inside w h o
      | FitCover =>
          (match rz_width o with Some x => x | None => w end,
           match rz_height o with Some y => y | None => h end)
      end
  end.

Definition samples (w h : Z) (payload : JS.Buffer) : JS.Buffer :=
  firstn (Z.to_nat (Z.min (4 * w * h) (Z.of_nat (List.length payload)))) payload.

Definition toBuffer (p : SharpPipeline) : option (JS.Buffer * OutputInfo) :=
  match dims (sp_input p) with
  | None => None
  | Some (w, h) =>
      let (w', h') := newDims w h (sp_resize p) in
      let px := samples w' h' (skipn 4 (sp_input p)) in
      let info := {| info_width := w'; info_height := h'; info_channels := 4 |} in
      match sp_output p with
      | OutRaw => Some (px, info)
      | _ => Some (header w' h' ++ px, info)
      end
  end.

Definition metadata (b : JS.Buffer) : option SharpMetadata :=
  match dims b with
  | None => None
  | Some (w, h) =>
      Some {| md_width := Some w; md_height := Some h; md_exif := None;
              md_pages := None; md_duration := None; md_density := None;
              md_size := Some (JS.byteLength b) |}
  end.

Definition codec : Sharp :=
  {| sharp_metadata := metadata; sharp_toBuffer := toBuffer |}.

(** A codec whose raw output cannot be read: metadata extraction fails. *)
Definition codecNoRaw : Sharp :=
  {| sharp_metadata := metadata;
     sharp_toBuffer := fun p => match sp_output p with
                                | OutRaw => None
                                | _ => toBuffer p
                                end |}.

(** The world: the outcomes of the coming [put] calls, and a clock. *)
Record World := {
  w_puts : list bool;
  w_clock : Z
}.

Definition platform : Platform World :=
  {| uuidv4 := fun w => ("6f1c"%string, w);
     blob_put := fun filename _ _ w =>
       match w_puts w with
       | true :: r =>
           (Some ("https://blob.example/" ++ filename)%string,
            {| w_puts := r; w_clock := w_clock w |})
       | _ :: r => (None, {| w_puts := r; w_clock := w_clock w |})
       | [] => (None, w)
       end;
     date_now := fun w =>
       (w_clock w, {| w_puts := w_puts w; w_clock := w_clock w + 1 |}) |}.

Definition start (puts : list bool) : St World :=
  {| st_world := {| w_puts := puts; w_clock := 1700000000000 |};
     st_trace := [] |}.

Definition red : JS.Buffer := [xff; x00; x00; xff].
Definition blue : JS.Buffer := [x00; x00; xff; xff].
Definition clear : JS.Buffer := [x00; xff; x00; x00].

(** A 4x2 raster: eight RGBA pixels. *)
Definition raster4x2 : JS.Buffer :=
  header 4 2 ++ red ++ red ++ blue ++ clear ++ red ++ blue ++ blue ++ red.

Definition photo : File :=
  {| file_name := "Photo.PNG"; file_type := "image/png";
     file_size := JS.byteLength raster4x2; file_bytes := raster4x2 |}.

Definition halfWidth : UploadOptions :=
  {| auto_delete_minutes := None; is_public := None; password := None;
     album_id := None; tags := None; quality := None; max_width := Some 2;
     max_height := None; convert_to_webp := None |}.

(** A pixel followed by the nine pixels the sampling loop steps over. *)
Definition spaced (px : JS.Buffer) : JS.Buffer := px ++ repeat x00 36.

(** Five sampled pixels: blue, red, transparent, red, blue. *)
Definition stripe : JS.Buffer :=
  spaced blue ++ spaced red ++ spaced clear ++ spaced red ++ spaced blue.

Definition tooBig (name : string) : File :=
  {| file_name := name; file_type := "image/png";
     file_size := MAX_FILE_SIZE + 1; file_bytes := raster4x2 |}.

Definition opaque (r g b : byte) : Raster.Pixel :=
  {| Raster.px_red := r; Raster.px_green := g; Raster.px_blue := b;
     Raster.px_alpha := xff |}.

Definition bluePixel : Raster.Pixel := opaque x00 x00 xff.
Definition redPixel : Raster.Pixel := opaque xff x00 x00.

(** A 150 by 150 image, the size [extractMetadata] asks for, all blue. *)
Definition blueImage : list Raster.Pixel := repeat bluePixel (150 * 150).

(** A codec that reads every image as the all-blue one, without alpha
    channel: its raw output has three bytes per pixel. *)
Definition codecOpaque : Sharp :=
  {| sharp_metadata := metadata;
     sharp_toBuffer := fun p =>
       match sp_output p with
       | OutRaw =>
           Some (Raster.rgb blueImage,
                 {| info_width := 150; info_height := 150; info_channels := 3 |})
       | _ => toBuffer p
       end |}.

(** Twenty-one pixels, red but for the first and the last; the sampled
    ones are blue, red and blue. *)
Definition flag : list Raster.Pixel :=
  [bluePixel] ++ repeat redPixel 19 ++ [bluePixel].

End Fixture.

(** The events a successful [processImageFile] leaves; [t] is the thumbnail. *)
Definition fileEvents (file : File) (options : UploadOptions) (t : JS.Buffer)
  : list Event :=
  [EvArrayBuffer;
   EvMetadata (file_bytes file);
   EvToBuffer (primaryPipeline (file_bytes file) options);
   EvToBuffer (thumbnailPipeline (file_bytes file));
   EvMetadata t].

(** *** The stages of a run of [processImage] from the state [s] *)

Section Stages.
Context {W : Type} (sys : Platform W).

(** The identifier [uuidv4()] hands out. *)
Definition fileIdAt (s : St W) : string := fst (uuidv4 sys (st_world s)).

Definition primaryName (file : File) (s : St W) : string :=
  (fileIdAt s ++ "." ++ getFileExtension (file_name file))%string.

Definition thumbnailName (s : St W) : string :=
  (fileIdAt s ++ "_thumb.webp")%string.

(** The state in which [processImageFile] starts. *)
Definition afterUuid (s : St W) : St W :=
  {| st_world := snd (uuidv4 sys (st_world s));
     st_trace := st_trace s ++ [EvUuid] |}.

(** The store's answers to the two uploads; [p] is what
    [processImageFile] returned, in state [s2], and [t] its thumbnail. *)
Definition primaryPut (file : File) (s : St W) (p : Processed) (s2 : St W)
  : option string * W :=
  blob_put sys (primaryName file s) (pr_buffer p) (file_type file) (st_world s2).

Definition thumbnailPut (file : File) (s : St W) (p : Processed) (s2 : St W)
    (t : JS.Buffer) : option string * W :=
  blob_put sys (thumbnailName s) t "image/webp" (snd (primaryPut file s p s2)).

(** The state once both uploads have been made. *)
Definition afterPublish (file : File) (s : St W) (p : Processed) (s2 : St W)
    (t : JS.Buffer) : St W :=
  {| st_world := snd (thumbnailPut file s p s2 t);
     st_trace := st_trace s2 ++
                 [EvPut (primaryName file s) (pr_buffer p) (file_type file);
                  EvPut (thumbnailName s) t "image/webp"] |}.

(** The time value of the expiry date the record asks for when the clock
    is read in the world [w]; [None] when the options ask for none. *)
Definition expiryAt (options : UploadOptions) (w : W) : option Z :=
  if JS.truthy (auto_delete_minutes options)
  then Some (fst (date_now sys w)
             + JS.orElse (auto_delete_minutes options) 0 * 60 * 1000)
  else None.

(** No expiry is asked for, or its date is a valid one. *)
Definition expiryValid (options : UploadOptions) (w : W) : bool :=
  match expiryAt options w with
  | Some t => JS.validTime t
  | None => true
  end.
End Stages.

(** The codec keeps to the size asked of a cover resize: whatever it
    returns for the thumbnail request on [b] decodes as 300 by 300. *)
Definition HonoursCover (lib : Sharp) (b : JS.Buffer) : Prop :=
  forall t info,
    sharp_toBuffer lib (thumbnailPipeline b) = Some (t, info) ->
    exists md,
      sharp_metadata lib t = Some md /\
      md_width md = Some 300 /\ md_height md = Some 300.

(** The tier table as the specification words it. *)
Definition specTier (q : Z) : Z :=
  if q <=? 30 then 60
  else if q <=? 70 then 80
  else if q <=? 90 then 90
  else 100.

(** No ['.'] occurs in the string. *)
Fixpoint noDot (s : string) : bool :=
  match s with
  | EmptyString => true
  | String c r => (negb (Ascii.eqb c "."%char) && noDot r)%bool
  end.

(** *** Further vocabulary *)

(** The options with another [quality]. *)
Definition withQuality (q : option Z) (o : UploadOptions) : UploadOptions :=
  {| auto_delete_minutes := auto_delete_minutes o; is_public := is_public o;
     password := password o; album_id := album_id o; tags := tags o;
     quality := q; max_width := max_width o; max_height := max_height o;
     convert_to_webp := convert_to_webp o |}.

(** Two buffers of one length that agree on the four bytes the sampling
    loop reads at each offset it visits. *)
Definition sameSamples (data data' : JS.Buffer) : Prop :=
  List.length data = List.length data' /\
  forall i, (i mod 40 < 4)%nat -> nth_error data i = nth_error data' i.

(** The metadata request of [extractMetadata] on [buffer]. *)
Definition rawPipeline (buffer : JS.Buffer) : SharpPipeline :=
  raw (resize (resizeTo 150 150 FitCover) (sharp buffer)).

Section Clock.
Context {W : Type} (sys : Platform W).

(** The world after [n] readings of the clock. *)
Fixpoint afterReads (n : nat) (w : W) : W :=
  match n with
  | O => w
  | S k => snd (date_now sys (afterReads k w))
  end.

(** What the reading after [n] earlier ones returns. *)
Definition clockRead (n : nat) (w : W) : Z := fst (date_now sys (afterReads n w)).

(** The clock never goes back. *)
Definition MonotoneClock : Prop :=
  forall w, fst (date_now sys w) <= fst (date_now sys (snd (date_now sys w))).
End Clock.

(** Options that ask for deletion after five minutes. *)
Definition expiringOptions : UploadOptions :=
  {| auto_delete_minutes := Some 5; is_public := Some false;
     password := Some "s3cret"%string; album_id := None; tags := None;
     quality := None; max_width := None; max_height := None;
     convert_to_webp := None |}.

(** Options that ask for deletion some 380000 years from now. *)
Definition farExpiry : UploadOptions :=
  {| auto_delete_minutes := Some 200000000000; is_public := None;
     password := None; album_id := None; tags := None; quality := None;
     max_width := None; max_height := None; convert_to_webp := None |}.

(** A file whose bytes the stand-in codec cannot read. *)
Definition corruptFile : File :=
  {| file_name := "broken.png"; file_type := "image/png";
     file_size := 2; file_bytes := [x89; x50] |}.

(** ** The upload route ([app/api/images/upload/route.ts], [POST]) *)

(** What [request.formData()] resolves to: the [file] and [options]
    entries, [None] where [get] answers [null]. *)
Record FormData := {
  fd_file : option File;
  fd_options : option string
}.

(** The answer of [insert(...).select().single()]: the row, an [error]
    field, or a rejected promise. *)
Inductive InsertOutcome :=
| Inserted (data : Image)
| InsertError
| InsertRejected.

(** [JSON.parse] at the type the route gives its result ([None] stands for
    a [SyntaxError]), and the [images] table; the insert shows in the world
    only. *)
Record Backend (W : Type) := {
  json_parse : string -> option UploadOptions;
  images_insert : Image -> W -> InsertOutcome * W
}.
Arguments json_parse {W}.
Arguments images_insert {W}.

(** [NextResponse.json(body, { status })] *)
Record Response := {
  res_status : Z;
  res_success : bool;
  res_error : option string;
  res_data : option Image
}.

(** What can be thrown inside the handler's [try]. *)
Inductive Thrown :=
| ThrownBy (e : PipelineError)   (* out of [processImage] *)
| SyntaxError                    (* [JSON.parse] *)
| ReferenceError                 (* a name that is bound nowhere *)
| Rejection.                     (* a rejected promise of the framework or the database *)

Definition Handler (W A : Type) : Type := St W -> (A + Thrown) * St W.

Definition hret {W A} (a : A) : Handler W A := fun s => (inl a, s).

Definition hthrow {W A} (t : Thrown) : Handler W A := fun s => (inr t, s).

Definition hbind {W A B} (m : Handler W A) (k : A -> Handler W B) : Handler W B :=
  fun s =>
    match m s with
    | (inl a, s') => k a s'
    | (inr t, s') => (inr t, s')
    end.

Definition hlift {W A} (m : M W A) : Handler W A :=
  fun s =>
    match m s with
    | (Ok a, s') => (inl a, s')
    | (Err e, s') => (inr (ThrownBy e), s')
    end.

(** [{ ...image, created_at, updated_at }] after [image.user_id = user]. *)
Definition rowOf (user : string) (created_at updated_at : Z) (image : Image) : Image :=
  {| img_id := img_id image;
     img_user_id := user;
     img_filename := img_filename image;
     img_original_name := img_original_name image;
     img_mime_type := img_mime_type image;
     img_size := img_size image;
     img_width := img_width image;
     img_height := img_height image;
     img_url := img_url image;
     img_thumbnail_url := img_thumbnail_url image;
     img_is_public := img_is_public image;
     img_password := img_password image;
     img_album_id := img_album_id image;
     img_auto_delete_at := img_auto_delete_at image;
     img_created_at := created_at;
     img_updated_at := updated_at;
     img_view_count := img_view_count image;
     img_download_count := img_download_count image;
     img_tags := img_tags image;
     img_metadata := img_metadata image |}.

Definition failure (status : Z) (message : string) : Response :=
  {| res_status := status; res_success := false;
     res_error := Some message; res_data := None |}.

Section UploadRoute.
Context {W : Type}.
Variable lib : Sharp.
Variable sys : Platform W.
Variable db : Backend W.

Definition call_insert (row : Image) : Handler W InsertOutcome :=
  fun s =>
    let (r, w) := images_insert db row (st_world s) in
    (inl r, {| st_world := w; st_trace := st_trace s |}).

(** [optionsString ? JSON.parse(optionsString) : {}]; [None] when
    [JSON.parse] throws. *)
Definition optionsOf (formData : FormData) : option UploadOptions :=
  match fd_options formData with
  | Some EmptyString | None => Some noOptions
  | Some text => json_parse db text
  end.

(** The [try] block of [POST]. *)
Definition POST_try (request : option FormData) : Handler W Response :=
  hbind (match request with
         | Some fd => hret fd
         | None => hthrow Rejection
         end) (fun formData =>
  let file := fd_file formData in
  hbind (match optionsOf formData with
         | Some o => hret o
         | None => hthrow SyntaxError
         end) (fun uploadOptions =>
  hbind (match file with
         | Some f => hlift (processImage lib sys f uploadOptions)
         | None => hthrow (ThrownBy TypeError)   (* [file.size] of [null] *)
         end) (fun r =>
  let image := fst r in
  hbind (hlift (call_now sys)) (fun created_at =>
  hbind (hlift (call_now sys)) (fun updated_at =>
  hbind (call_insert (rowOf "anonymous" created_at updated_at image)) (fun answer =>
  match answer with
  | InsertRejected => hthrow Rejection
  | InsertError =>
      hbind (hlift (emit EvConsoleError)) (fun _ =>
      hret (failure 500 "Failed to save image data"))
  | Inserted data =>
      (* [if (imageData.auto_delete_at)]: the module binds no [imageData] *)
      hbind (hthrow ReferenceError : Handler W unit) (fun _ =>
      hret {| res_status := 200; res_success := true;
              res_error := None; res_data := Some data |})
  end)))))).

Definition POST (request : option FormData) : St W -> Response * St W :=
  fun s =>
    match POST_try request s with
    | (inl response, s') => (response, s')
    | (inr _, s') => (failure 500 "Internal server error", logged EvConsoleError s')
    end.
End UploadRoute.

(** A table that takes every row. *)
Definition acceptingBackend : Backend Fixture.World :=
  {| json_parse := fun _ => Some noOptions;
     images_insert := fun row w => (Inserted row, w) |}.

(** * Properties *)

(** ** Strings *)

Lemma lowerUnit_idem (c : ascii) : JS.lowerUnit (JS.lowerUnit c) = JS.lowerUnit c.
Proof.
  destruct c as [[] [] [] [] [] [] [] []]; reflexivity.
Qed.

Lemma toLowerCase_idem (s : string) : JS.toLowerCase (JS.toLowerCase s) = JS.toLowerCase s.
Proof.
  induction s as [|c r IH]; simpl; [reflexivity|].
  now rewrite lowerUnit_idem, IH.
Qed.

Lemma getFileExtension_pop (filename : string) :
  getFileExtension filename =
  match JS.pop (JS.split "."%char filename) with
  | Some s => JS.toLowerCase s
  | None => EmptyString
  end.
Proof.
  unfold getFileExtension.
  destruct (JS.pop _) as [s|]; [|reflexivity].
  now destruct (JS.toLowerCase s).
Qed.

Lemma getFileExtension_lower (filename : string) :
  JS.toLowerCase (getFileExtension filename) = getFileExtension filename.
Proof.
  rewrite getFileExtension_pop.
  destruct (JS.pop _); [apply toLowerCase_idem | reflexivity].
Qed.

Lemma split_noDot (s : string) : noDot s = true -> JS.split "."%char s = [s].
Proof.
  induction s as [|c r IH]; simpl; [reflexivity|].
  intros H. apply andb_true_iff in H as [Hc Hr].
  apply negb_true_iff in Hc. rewrite Hc, (IH Hr). reflexivity.
Qed.

Lemma split_after_dot (pre ext : string) :
  exists h t,
    JS.split "."%char (pre ++ String "."%char ext) = h :: t /\
    t <> [] /\ JS.pop t = JS.pop (JS.split "."%char ext).
Proof.
  assert (Hne : forall s, JS.split "."%char s <> []).
  { intros s. destruct s as [|c r]; simpl; [discriminate|].
    destruct (Ascii.eqb c "."); [discriminate|].
    destruct (JS.split "." r); discriminate. }
  induction pre as [|c r (h & t & E & Ht & Hp)]; simpl.
  - exists EmptyString, (JS.split "."%char ext). auto.
  - rewrite E. destruct (Ascii.eqb c ".").
    + exists EmptyString, (h :: t). repeat split; [discriminate|].
      destruct t; [contradiction | exact Hp].
    + exists (String c h), t. auto.
Qed.

Lemma pop_cons (h : string) (t : list string) : t <> [] -> JS.pop (h :: t) = JS.pop t.
Proof.
  destruct t; [contradiction | reflexivity].
Qed.

(** The extension is the lowercased text after the last ['.']. *)
Lemma getFileExtension_after_last_dot (pre ext : string) :
  noDot ext = true ->
  getFileExtension (pre ++ String "."%char ext) = JS.toLowerCase ext.
Proof.
  intros H. rewrite getFileExtension_pop.
  destruct (split_after_dot pre ext) as (h & t & E & Ht & Hp).
  rewrite E, (pop_cons _ _ Ht), Hp, (split_noDot _ H). reflexivity.
Qed.

Lemma getFileExtension_noDot (filename : string) :
  noDot filename = true -> getFileExtension filename = JS.toLowerCase filename.
Proof.
  intros H. rewrite getFileExtension_pop, (split_noDot _ H). reflexivity.
Qed.

Lemma includes_In (l : list string) (x : string) :
  JS.includes l x = true <-> In x l.
Proof.
  unfold JS.includes. rewrite existsb_exists. split.
  - intros (y & Hy & E). apply String.eqb_eq in E. now subst.
  - intros H. exists x. split; [exact H | apply String.eqb_refl].
Qed.

Lemma includes_not_In (l : list string) (x : string) :
  ~ In x l -> JS.includes l x = false.
Proof.
  intros H. destruct (JS.includes l x) eqn:E; [|reflexivity].
  apply includes_In in E. contradiction.
Qed.

Example split_keeps_empty_parts :
  JS.split "."%char "a.b." = ["a"; "b"; ""]%string /\
  JS.split "."%char "" = [""]%string /\
  JS.split "."%char ".env" = [""; "env"]%string.
Proof. repeat split. Qed.

Example extension_samples :
  getFileExtension "Holiday.Photo.JPG" = "jpg"%string /\
  getFileExtension "png" = "png"%string /\
  getFileExtension "archive.tar.GZ" = "gz"%string /\
  getFileExtension "scan." = ""%string /\
  getFileExtension "" = ""%string.
Proof. repeat split. Qed.

(** U+00C4 is a capital letter, lowered to U+00E4; the multiplication sign
    U+00D7 and the sharp s U+00DF are left as they are. *)
Example extension_latin1 :
  getFileExtension ("photo." ++ String (ascii_of_nat 196) "B")
    = String (ascii_of_nat 228) "b" /\
  JS.toLowerCase (String (ascii_of_nat 215) (String (ascii_of_nat 223) "Z"))
    = String (ascii_of_nat 215) (String (ascii_of_nat 223) "z").
Proof. split; reflexivity. Qed.

(** ** Validation *)

Lemma validateFile_too_large (file : File) :
  file_size file > MAX_FILE_SIZE -> validateFile file = Err PayloadTooLarge.
Proof.
  intros H. unfold validateFile.
  destruct (file_size file >? MAX_FILE_SIZE) eqn:E; [reflexivity|].
  rewrite Z.gtb_ltb in E. apply Z.ltb_ge in E. lia.
Qed.

Lemma validateFile_unsupported (file : File) :
  file_size file <= MAX_FILE_SIZE ->
  ~ In (getFileExtension (file_name file)) SUPPORTED_FORMATS ->
  validateFile file = Err UnsupportedFormat.
Proof.
  intros Hs Hx. unfold validateFile.
  destruct (file_size file >? MAX_FILE_SIZE) eqn:E.
  - apply Z.gtb_gt in E. lia.
  - rewrite getFileExtension_lower, (includes_not_In _ _ Hx). reflexivity.
Qed.

Section Rejection.
Context {W : Type} (lib : Sharp) (sys : Platform W).

(** A file that fails validation stops the run there: the error is the
    validator's and nothing has been called. *)
Lemma processImage_invalid (file : File) (options : UploadOptions)
    (e : PipelineError) (s : St W) :
  validateFile file = Err e ->
  processImage lib sys file options s = (Err e, s).
Proof.
  intros H. unfold processImage, bind, lift. rewrite H. reflexivity.
Qed.

Lemma processImage_unsupported (file : File) (options : UploadOptions) (s : St W) :
  file_size file <= MAX_FILE_SIZE ->
  ~ In (getFileExtension (file_name file)) SUPPORTED_FORMATS ->
  processImage lib sys file options s = (Err UnsupportedFormat, s).
Proof.
  intros Hs Hx. apply processImage_invalid.
  now apply validateFile_unsupported.
Qed.
End Rejection.

(** ** The stable sort *)

Section SortFacts.
Import Palette.
Variable P : string -> string -> Prop.

Lemma sort_insert_perm (x : string * Z) (l : list (string * Z)) :
  Permutation (sort_insert byFrequency x l) (x :: l).
Proof.
  induction l as [|y r IH]; simpl; [reflexivity|].
  destruct (byFrequency x y <=? 0); [reflexivity|].
  rewrite IH. apply perm_swap.
Qed.

Lemma array_sort_perm (l : list (string * Z)) :
  Permutation (array_sort byFrequency l) l.
Proof.
  induction l as [|x r IH]; simpl; [reflexivity|].
  rewrite sort_insert_perm. now constructor.
Qed.

Lemma sort_insert_sorted (x : string * Z) (l : list (string * Z)) :
  StronglySorted (entryBefore P) l ->
  Forall (fun y => P (fst x) (fst y)) l ->
  StronglySorted (entryBefore P) (sort_insert byFrequency x l).
Proof.
  induction l as [|y r IH]; intros Hs Hx; simpl.
  - repeat constructor.
  - apply StronglySorted_inv in Hs as [Hr Hy].
    inversion Hx as [|? ? Pxy Pxr]; subst.
    unfold byFrequency at 1.
    destruct (snd y - snd x <=? 0) eqn:E.
    + apply Z.leb_le in E.
      constructor; [constructor; assumption|].
      constructor.
      * unfold entryBefore. destruct (Z.eq_dec (snd x) (snd y)); [right|left]; auto; lia.
      * rewrite Forall_forall in *. intros z Hz.
        specialize (Hy z Hz). specialize (Pxr z Hz).
        unfold entryBefore in *.
        destruct (Z.eq_dec (snd x) (snd z)); [right; auto|left; lia].
    + apply Z.leb_gt in E.
      constructor; [apply IH; assumption|].
      rewrite Forall_forall. intros z Hz.
      apply (Permutation_in _ (sort_insert_perm x r)) in Hz.
      destruct Hz as [<-|Hz].
      * left. lia.
      * rewrite Forall_forall in Hy. auto.
Qed.

Lemma array_sort_sorted (l : list (string * Z)) :
  StronglySorted (fun a b => P (fst a) (fst b)) l ->
  StronglySorted (entryBefore P) (array_sort byFrequency l).
Proof.
  induction l as [|x r IH]; intros Hs; simpl; [constructor|].
  apply StronglySorted_inv in Hs as [Hr Hx].
  apply sort_insert_sorted; [auto|].
  rewrite Forall_forall in *. intros y Hy.
  apply Hx. now apply (Permutation_in _ (array_sort_perm r)).
Qed.
End SortFacts.

Lemma Ok_inj {A : Type} (a b : A) : Ok a = Ok b -> a = b.
Proof.
  congruence.
Qed.

(** ** Lists in order *)

Section SortedFacts.
Context {A B : Type}.

Lemma StronglySorted_map (f : A -> B) (R : B -> B -> Prop) (l : list A) :
  StronglySorted R (map f l) <-> StronglySorted (fun a b => R (f a) (f b)) l.
Proof.
  induction l as [|x r IH]; simpl; split; intros H; try constructor;
    apply StronglySorted_inv in H as [H1 H2];
    try (apply IH; assumption).
  - rewrite Forall_map in H2. exact H2.
  - rewrite Forall_map. exact H2.
Qed.

Lemma StronglySorted_snoc (R : A -> A -> Prop) (l : list A) (x : A) :
  StronglySorted R l -> Forall (fun a => R a x) l -> StronglySorted R (l ++ [x]).
Proof.
  induction l as [|y r IH]; simpl; intros Hs Hx.
  - repeat constructor.
  - apply StronglySorted_inv in Hs as [H1 H2].
    inversion Hx; subst.
    constructor; [auto|].
    apply Forall_app. split; [assumption | repeat constructor; assumption].
Qed.

Lemma StronglySorted_weaken (R R' : A -> A -> Prop) (l : list A) :
  (forall a b, In a l -> In b l -> R a b -> R' a b) ->
  StronglySorted R l -> StronglySorted R' l.
Proof.
  induction l as [|x r IH]; intros HR Hs; [constructor|].
  apply StronglySorted_inv in Hs as [H1 H2].
  constructor.
  - apply IH; [|assumption]. intros a b Ha Hb. apply HR; now right.
  - rewrite Forall_forall in *. intros y Hy.
    apply HR; [now left | now right | auto].
Qed.

Lemma StronglySorted_firstn (R : A -> A -> Prop) (n : nat) (l : list A) :
  StronglySorted R l -> StronglySorted R (firstn n l).
Proof.
  revert l. induction n as [|n IH]; intros [|x r] Hs; simpl; try constructor.
  - apply IH. now apply StronglySorted_inv in Hs.
  - apply StronglySorted_inv in Hs as [_ H2].
    rewrite Forall_forall in *. intros y Hy. apply H2.
    rewrite <- (firstn_skipn n r). apply in_or_app. now left.
Qed.

(** In a strongly sorted list every element of a prefix is related to
    every later element. *)
Lemma StronglySorted_prefix (R : A -> A -> Prop) (n : nat) (l : list A) (a b : A) :
  StronglySorted R l -> In a (firstn n l) -> In b (skipn n l) -> R a b.
Proof.
  revert l. induction n as [|n IH]; intros [|x r] Hs Ha Hb; simpl in *;
    try contradiction.
  apply StronglySorted_inv in Hs as [H1 H2].
  destruct Ha as [<-|Ha].
  - rewrite Forall_forall in H2. apply H2.
    rewrite <- (firstn_skipn n r). apply in_or_app. now right.
  - eapply IH; eauto.
Qed.
End SortedFacts.

(** ** The frequency table *)

Section ColorMapFacts.
Import Palette.

Lemma get_absent (m : ColorMap.t) (k : string) :
  ~ In k (map fst m) -> ColorMap.get m k = None.
Proof.
  induction m as [|[k' v'] r IH]; simpl; intros H; [reflexivity|].
  destruct (String.eqb_spec k' k) as [->|Hne]; [tauto|]. apply IH. tauto.
Qed.

Lemma set_absent (m : ColorMap.t) (k : string) (v : Z) :
  ~ In k (map fst m) -> ColorMap.set m k v = m ++ [(k, v)].
Proof.
  induction m as [|[k' v'] r IH]; simpl; intros H; [reflexivity|].
  destruct (String.eqb_spec k' k) as [->|Hne]; [tauto|].
  rewrite IH; [reflexivity | tauto].
Qed.

Lemma set_present (m : ColorMap.t) (k : string) :
  In k (map fst m) ->
  exists m1 v0 m2,
    m = m1 ++ (k, v0) :: m2 /\ ColorMap.get m k = Some v0 /\
    forall v, ColorMap.set m k v = m1 ++ (k, v) :: m2.
Proof.
  induction m as [|[k' v'] r IH]; simpl; intros H; [contradiction|].
  destruct (String.eqb_spec k' k) as [->|Hne].
  - exists [], v', r. auto.
  - destruct H as [H|H]; [contradiction|].
    destruct (IH H) as (m1 & v0 & m2 & -> & Hg & Hs).
    exists ((k', v') :: m1), v0, m2. repeat split; auto.
    intros v. simpl. now rewrite Hs.
Qed.

Lemma frequency_snoc (cs : list string) (c x : string) :
  frequency (cs ++ [c]) x =
  (frequency cs x + if string_dec c x then 1 else 0)%nat.
Proof.
  unfold frequency. rewrite count_occ_app. simpl.
  now destruct (string_dec c x).
Qed.

Lemma frequency_snoc_other (cs : list string) (c x : string) :
  x <> c -> frequency (cs ++ [c]) x = frequency cs x.
Proof.
  intros H. rewrite frequency_snoc.
  destruct (string_dec c x); [congruence | lia].
Qed.

Lemma frequency_pos (cs : list string) (c : string) :
  In c cs <-> (0 < frequency cs c)%nat.
Proof.
  unfold frequency. rewrite (count_occ_In string_dec). lia.
Qed.

Lemma firstIndex_app_in (cs l : list string) (a : string) :
  In a cs -> firstIndex (cs ++ l) a = firstIndex cs a.
Proof.
  induction cs as [|x r IH]; simpl; intros H; [contradiction|].
  destruct (String.eqb_spec x a) as [->|Hne]; [reflexivity|].
  destruct H as [H|H]; [contradiction|]. now rewrite IH.
Qed.

Lemma firstIndex_app_out (cs l : list string) (a : string) :
  ~ In a cs -> firstIndex (cs ++ l) a = (List.length cs + firstIndex l a)%nat.
Proof.
  induction cs as [|x r IH]; simpl; intros H; [reflexivity|].
  destruct (String.eqb_spec x a) as [->|Hne]; [tauto|].
  rewrite IH; tauto.
Qed.

Lemma firstIndex_in (cs : list string) (a : string) :
  In a cs -> (firstIndex cs a < List.length cs)%nat.
Proof.
  induction cs as [|x r IH]; simpl; intros H; [contradiction|].
  destruct (String.eqb_spec x a) as [->|Hne]; [lia|].
  destruct H as [H|H]; [contradiction|]. apply IH in H. lia.
Qed.

Lemma metEarlier_snoc (cs : list string) (c a b : string) :
  In a cs -> In b cs -> metEarlier cs a b -> metEarlier (cs ++ [c]) a b.
Proof.
  unfold metEarlier. intros Ha Hb H.
  now rewrite !firstIndex_app_in.
Qed.

Lemma TallyOf_nil : TallyOf [] ColorMap.empty.
Proof.
  repeat split; simpl; try tauto; constructor.
Qed.

(** Counting one more pixel keeps the table the tally of the scan. *)
Lemma TallyOf_step (cs : list string) (m : ColorMap.t) (c : string) :
  TallyOf cs m -> TallyOf (cs ++ [c]) (tallyStep m c).
Proof.
  intros (Hnd & Hin & Hcount & Hord). unfold tallyStep.
  destruct (in_dec string_dec c (map fst m)) as [Hc|Hc].
  - destruct (set_present m c Hc) as (m1 & v0 & m2 & E & Hg & Hs).
    rewrite Hs, Hg. clear Hs Hg.
    assert (Hkeys : forall v, map fst (m1 ++ (c, v) :: m2) = map fst m).
    { intros v. rewrite E, !map_app. reflexivity. }
    assert (Hcs : In c cs) by now apply Hin.
    assert (Hv0 : v0 = Z.of_nat (frequency cs c)).
    { rewrite Forall_forall in Hcount.
      apply (Hcount (c, v0)). rewrite E. apply in_or_app. right. now left. }
    assert (Hor : JS.orElse (Some v0) 0 = v0).
    { apply frequency_pos in Hcs. unfold JS.orElse, JS.truthy.
      destruct (v0 =? 0) eqn:E0; [apply Z.eqb_eq in E0; lia | reflexivity]. }
    rewrite Hor.
    assert (Hother : forall e, In e (m1 ++ m2) -> fst e <> c).
    { intros e He <-. rewrite E, map_app in Hnd. simpl in Hnd.
      apply NoDup_remove_2 in Hnd. apply Hnd.
      rewrite <- map_app. now apply in_map. }
    repeat split.
    + now rewrite Hkeys.
    + rewrite Hkeys, in_app_iff, Hin. simpl. tauto.
    + rewrite Hkeys, in_app_iff, Hin. simpl. intros [H|[<-|[]]]; auto.
    + rewrite E in Hcount. apply Forall_app in Hcount as [H1 H2].
      inversion H2 as [|? ? _ H3]; subst.
      apply Forall_app. split; [|constructor].
      * rewrite Forall_forall in *. intros e He. rewrite (H1 e He).
        rewrite frequency_snoc_other; [reflexivity|].
        apply Hother. apply in_or_app. now left.
      * simpl. rewrite frequency_snoc.
        destruct (string_dec c c); [lia | congruence].
      * rewrite Forall_forall in *. intros e He. rewrite (H3 e He).
        rewrite frequency_snoc_other; [reflexivity|].
        apply Hother. apply in_or_app. now right.
    + rewrite Hkeys.
      eapply StronglySorted_weaken; [|exact Hord].
      intros a b Ha Hb. apply metEarlier_snoc; now apply Hin.
  - rewrite (get_absent _ _ Hc), (set_absent _ _ _ Hc).
    assert (Hcs : ~ In c cs) by (intros H; now apply Hin in H).
    replace (JS.orElse None 0 + 1) with 1 by reflexivity.
    unfold TallyOf. rewrite map_app. simpl.
    repeat split.
    + apply NoDup_rev in Hnd.
      rewrite <- (rev_involutive (map fst m ++ [c])).
      apply NoDup_rev. rewrite rev_app_distr. simpl.
      constructor; [|exact Hnd]. now rewrite <- in_rev.
    + rewrite !in_app_iff, Hin. tauto.
    + rewrite !in_app_iff, Hin. tauto.
    + apply Forall_app. split; [|repeat constructor].
      * rewrite Forall_forall in *. intros e He. rewrite (Hcount e He).
        rewrite frequency_snoc_other; [reflexivity|].
        intros <-. apply Hc. now apply in_map.
      * simpl. rewrite frequency_snoc.
        assert (frequency cs c = 0%nat) by now apply count_occ_not_In.
        destruct (string_dec c c); [lia | congruence].
    + apply StronglySorted_snoc.
      * eapply StronglySorted_weaken; [|exact Hord].
        intros a b Ha Hb. apply metEarlier_snoc; now apply Hin.
      * rewrite Forall_forall. intros a Ha. apply Hin in Ha.
        unfold metEarlier.
        rewrite (firstIndex_app_in _ _ _ Ha), (firstIndex_app_out _ _ _ Hcs).
        apply firstIndex_in in Ha. lia.
Qed.

Lemma tally_TallyOf (cs : list string) : TallyOf cs (tally cs ColorMap.empty).
Proof.
  induction cs as [|c cs IH] using rev_ind.
  - apply TallyOf_nil.
  - unfold tally. rewrite fold_left_app. simpl. now apply TallyOf_step.
Qed.
End ColorMapFacts.

(** ** The sampling loop *)

Section LoopFacts.
Import Palette.
Variable data : JS.Buffer.

Lemma lt_alpha (i : nat) :
  JS.lt (JS.index data (i + 3)) 128 = transparent data i.
Proof.
  unfold JS.lt, JS.index, transparent.
  now destruct (nth_error data (i + 3)).
Qed.

Lemma hex2_index (i : nat) :
  hex2 (JS.index data i) =
  match nth_error data i with
  | Some b => Ok (hexByte b)
  | None => Err TypeError
  end.
Proof.
  unfold hex2, JS.index. now destruct (nth_error data i).
Qed.

Lemma paletteStep_transparent (i : nat) (colors : ColorMap.t) :
  transparent data i = true -> paletteStep data i colors = Ok colors.
Proof.
  intros H. unfold paletteStep. now rewrite lt_alpha, H.
Qed.

Lemma paletteStep_counted (i : nat) (colors m : ColorMap.t) :
  transparent data i = false ->
  paletteStep data i colors = Ok m ->
  exists c, colorAt data i = Some c /\ m = tallyStep colors c.
Proof.
  intros H. unfold paletteStep, colorAt.
  rewrite lt_alpha, H, !hex2_index.
  destruct (nth_error data i); [|discriminate].
  destruct (nth_error data (i + 1)); [|discriminate].
  destruct (nth_error data (i + 2)); [|discriminate].
  intros [= <-]. eexists. split; reflexivity.
Qed.

Lemma paletteStep_defined (i : nat) (colors : ColorMap.t) :
  (i + 2 < List.length data)%nat ->
  exists m, paletteStep data i colors = Ok m.
Proof.
  intros H. unfold paletteStep. rewrite !hex2_index.
  destruct (JS.lt _ _); [eauto|].
  destruct (nth_error data i) eqn:E0;
    [|apply nth_error_None in E0; lia].
  destruct (nth_error data (i + 1)) eqn:E1;
    [|apply nth_error_None in E1; lia].
  destruct (nth_error data (i + 2)) eqn:E2;
    [|apply nth_error_None in E2; lia].
  eauto.
Qed.

Lemma filter_none {A : Type} (f : A -> bool) (l : list A) :
  (forall x, In x l -> f x = false) -> filter f l = [].
Proof.
  induction l as [|x r IH]; simpl; intros H; [reflexivity|].
  rewrite (H x (or_introl eq_refl)). apply IH. auto.
Qed.

Lemma not_sampled (i d : nat) :
  (i mod 40 = 0)%nat -> (1 <= d <= 39)%nat -> sampled (i + d) = false.
Proof.
  intros Hi Hd. unfold sampled. apply Nat.eqb_neq.
  rewrite Nat.Div0.add_mod, Hi, Nat.add_0_l, Nat.Div0.mod_mod.
  rewrite Nat.mod_small; lia.
Qed.

(** Between two visited offsets nothing is counted. *)
Lemma counted_gap (i n : nat) :
  (i mod 40 = 0)%nat ->
  filter (counted data) (seq (S i) n) =
  filter (counted data) (seq (i + 40) (n - 39)).
Proof.
  intros Hi.
  assert (Hgap : forall k, (k <= 39)%nat ->
                 filter (counted data) (seq (S i) k) = []).
  { intros k Hk. apply filter_none. intros x Hx.
    apply in_seq in Hx. unfold counted.
    replace x with (i + (x - i))%nat by lia.
    rewrite not_sampled; [reflexivity | assumption | lia]. }
  destruct (Nat.le_gt_cases n 39) as [Hn|Hn].
  - replace (n - 39)%nat with 0%nat by lia. simpl. now apply Hgap.
  - replace n with (39 + (n - 39))%nat at 1 by lia.
    rewrite seq_app, filter_app, Hgap by lia.
    simpl. do 2 f_equal. lia.
Qed.

(** The table the loop returns is the tally of the colours counted at
    the visited offsets, taken in scan order. *)
Lemma paletteLoop_scan (fuel : nat) :
  forall (i : nat) (colors m : ColorMap.t),
    (i mod 40 = 0)%nat ->
    (List.length data <= i + 40 * fuel)%nat ->
    paletteLoop fuel data i colors = Ok m ->
    exists cs,
      map (colorAt data) (filter (counted data) (seq i (List.length data - i)))
        = map Some cs /\
      m = tally cs colors.
Proof.
  induction fuel as [|fuel IH]; intros i colors m Hi Hlen; simpl.
  - intros [= <-]. exists []. replace (List.length data - i)%nat with 0%nat by lia.
    auto.
  - destruct (Nat.ltb_spec i (List.length data)) as [Hlt|Hge].
    + assert (Hnext : ((i + 40) mod 40 = 0)%nat).
      { rewrite Nat.Div0.add_mod, Hi. reflexivity. }
      destruct (List.length data - i)%nat as [|n] eqn:En; [lia|].
      simpl seq. simpl filter.
      assert (Hs : sampled i = true) by (unfold sampled; now rewrite Hi).
      unfold counted at 1. rewrite Hs. simpl andb.
      rewrite counted_gap by assumption.
      replace (n - 39)%nat with (List.length data - (i + 40))%nat by lia.
      destruct (transparent data i) eqn:Ht; simpl negb; cbv iota.
      * rewrite paletteStep_transparent by assumption.
        intros H. apply IH in H; [exact H | assumption | lia].
      * destruct (paletteStep data i colors) as [colors'|e] eqn:Es;
          [|discriminate].
        destruct (paletteStep_counted _ _ _ Ht Es) as (c & Hc & ->).
        intros H. apply IH in H; [|assumption|lia].
        destruct H as (cs & Hcs & ->).
        exists (c :: cs). simpl. now rewrite Hc, Hcs.
    + intros [= <-]. exists [].
      replace (List.length data - i)%nat with 0%nat by lia. auto.
Qed.

(** On a buffer of whole RGBA pixels the loop never throws. *)
Lemma paletteLoop_rgba (fuel : nat) :
  (List.length data mod 4 = 0)%nat ->
  forall (i : nat) (colors : ColorMap.t),
    (i mod 4 = 0)%nat ->
    exists m, paletteLoop fuel data i colors = Ok m.
Proof.
  intros Hd. induction fuel as [|fuel IH]; intros i colors Hi; simpl; [eauto|].
  destruct (Nat.ltb_spec i (List.length data)) as [Hlt|Hge]; [|eauto].
  destruct (paletteStep_defined i colors) as (m & ->).
  - apply Nat.Div0.mod_divides in Hd as (a & Ha).
    apply Nat.Div0.mod_divides in Hi as (b & Hb). lia.
  - apply IH. rewrite Nat.Div0.add_mod, Hi. reflexivity.
Qed.
End LoopFacts.

(** ** The colour strings *)

Lemma hexByte_digits (b : byte) : Palette.twoHex (Palette.hexByte b) = true.
Proof.
  destruct b; vm_compute; reflexivity.
Qed.

Lemma colorAt_hex (data : JS.Buffer) (i : nat) (c : string) :
  Palette.colorAt data i = Some c -> Palette.isHexColor c = true.
Proof.
  unfold Palette.colorAt.
  destruct (nth_error data i) as [r|]; [|discriminate].
  destruct (nth_error data (i + 1)) as [g|]; [|discriminate].
  destruct (nth_error data (i + 2)) as [b|]; [|discriminate].
  intros [= <-].
  pose proof (hexByte_digits r) as Hr.
  pose proof (hexByte_digits g) as Hg.
  pose proof (hexByte_digits b) as Hb.
  unfold Palette.twoHex in *.
  destruct (Palette.hexByte r) as [|r1 [|r2 [|]]]; try discriminate.
  destruct (Palette.hexByte g) as [|g1 [|g2 [|]]]; try discriminate.
  destruct (Palette.hexByte b) as [|b1 [|b2 [|]]]; try discriminate.
  apply andb_true_iff in Hr as [Hr1 Hr2].
  apply andb_true_iff in Hg as [Hg1 Hg2].
  apply andb_true_iff in Hb as [Hb1 Hb2].
  cbn [Palette.isHexColor String.append String.length Palette.allHex Nat.eqb].
  now rewrite Hr1, Hr2, Hg1, Hg2, Hb1, Hb2.
Qed.

(** ** The palette *)

Section PaletteFacts.
Import Palette.

Lemma entryBefore_outranks (cs : list string) (a b : string * Z) :
  snd a = Z.of_nat (frequency cs (fst a)) ->
  snd b = Z.of_nat (frequency cs (fst b)) ->
  entryBefore (metEarlier cs) a b -> outranks cs (fst a) (fst b).
Proof.
  unfold entryBefore, outranks, metEarlier. intros -> ->. lia.
Qed.

(** The whole ranking the palette is cut from. *)
Lemma ranking_of_tally (cs : list string) (m : ColorMap.t) :
  TallyOf cs m ->
  let ranking := map fst (array_sort byFrequency (ColorMap.entries m)) in
  NoDup ranking /\
  (forall c, In c ranking <-> In c cs) /\
  StronglySorted (outranks cs) ranking.
Proof.
  intros (Hnd & Hin & Hcount & Hord). unfold ColorMap.entries. cbv zeta.
  pose proof (array_sort_perm m) as Hperm.
  pose proof (Permutation_map fst Hperm) as Hkeys.
  split; [|split].
  - eapply Permutation_NoDup; [symmetry; exact Hkeys | exact Hnd].
  - intros c. rewrite <- Hin. split; apply Permutation_in;
      [exact Hkeys | symmetry; exact Hkeys].
  - apply StronglySorted_map.
    apply StronglySorted_weaken with (R := entryBefore (metEarlier cs)).
    + rewrite Forall_forall in Hcount. intros a b Ha Hb.
      apply entryBefore_outranks; apply Hcount;
        eapply Permutation_in; eauto.
    + apply array_sort_sorted. now apply StronglySorted_map.
Qed.
End PaletteFacts.

Example palette_of_stripe :
  extractColorPalette Fixture.stripe 150 150 = Ok ["#0000ff"; "#ff0000"]%string.
Proof. reflexivity. Qed.

Example palette_skips_transparent :
  extractColorPalette (Fixture.spaced Fixture.clear) 150 150 = Ok [].
Proof. reflexivity. Qed.

Example palette_most_frequent_first :
  extractColorPalette (Fixture.stripe ++ Fixture.red) 150 150
  = Ok ["#ff0000"; "#0000ff"]%string.
Proof. reflexivity. Qed.

(** ** Rejections *)

(** C2, as worded: the size of the file plays no part.  It does: the size
    is checked first, so an oversized file with an extension outside the
    list is turned down for its size. *)
Lemma C2_oversized_counterexample :
  ~ In (getFileExtension (file_name (Fixture.tooBig "setup.exe"))) SUPPORTED_FORMATS /\
  fst (processImage Fixture.codec Fixture.platform (Fixture.tooBig "setup.exe")
         noOptions (Fixture.start [true; true]))
  = Err PayloadTooLarge /\
  Err PayloadTooLarge <> Err UnsupportedFormat :> Result (Image * option Image).
Proof.
  split; [|split].
  - vm_compute. intuition discriminate.
  - vm_compute. reflexivity.
  - discriminate.
Qed.

(** C2, amended.  A file within the size limit whose extension is outside
    the list is turned down with [UnsupportedFormat], whatever its declared
    MIME type, and before anything else happens. *)
Theorem C2_unsupported_extension {W : Type} (lib : Sharp) (sys : Platform W)
    (file : File) (options : UploadOptions) (s : St W) :
  file_size file <= MAX_FILE_SIZE ->
  ~ In (getFileExtension (file_name file)) SUPPORTED_FORMATS ->
  processImage lib sys file options s = (Err UnsupportedFormat, s).
Proof.
  apply processImage_unsupported.
Qed.

Lemma C2_unsupported_extension_witness :
  processImage Fixture.codec Fixture.platform
    {| file_name := "notes.txt"; file_type := "image/png";
       file_size := 12; file_bytes := [] |}
    noOptions (Fixture.start [true; true])
  = (Err UnsupportedFormat, Fixture.start [true; true]).
Proof.
  apply C2_unsupported_extension.
  - vm_compute. discriminate.
  - vm_compute. intuition discriminate.
Defined.

(** C8.  A file of more than 32 MiB is turned down with [PayloadTooLarge]
    and nothing has been called; and in any run, a decode call in the trace
    means validation had accepted the file. *)
Theorem C8_size_checked_before_decode {W : Type} (lib : Sharp) (sys : Platform W)
    (file : File) (options : UploadOptions) (w : W) :
  let s := {| st_world := w; st_trace := [] |} in
  (file_size file > MAX_FILE_SIZE ->
   processImage lib sys file options s = (Err PayloadTooLarge, s)) /\
  (forall r s',
     processImage lib sys file options s = (r, s') ->
     existsb is_decode (st_trace s') = true ->
     validateFile file = Ok tt).
Proof.
  intros s. split.
  - intros H. apply processImage_invalid. now apply validateFile_too_large.
  - intros r s' Hrun Hdec.
    destruct (validateFile file) as [[]|e] eqn:Hv; [reflexivity|].
    rewrite (processImage_invalid lib sys file options e s Hv) in Hrun.
    injection Hrun as _ <-. discriminate.
Qed.

Lemma C8_size_checked_before_decode_witness :
  processImage Fixture.codec Fixture.platform (Fixture.tooBig "big.png")
    noOptions (Fixture.start [true; true])
  = (Err PayloadTooLarge, Fixture.start [true; true]).
Proof.
  apply (proj1 (C8_size_checked_before_decode Fixture.codec Fixture.platform
                  (Fixture.tooBig "big.png") noOptions _)).
  vm_compute. reflexivity.
Defined.

(** ** Quality tiers *)

Lemma primaryPipeline_webp_quality (buffer : JS.Buffer) (options : UploadOptions) :
  convert_to_webp options <> Some false ->
  sp_output (primaryPipeline buffer options)
  = OutWebp (getQualityLevel (quality options)).
Proof.
  intros Hc. unfold primaryPipeline.
  destruct (convert_to_webp options) as [[]|]; try congruence;
    destruct (JS.truthy (quality options));
    destruct (JS.truthy (max_width options) || JS.truthy (max_height options))%bool;
    reflexivity.
Qed.

Example quality_samples :
  getQualityLevel (Some 25) = 60 /\ getQualityLevel (Some 30) = 60 /\
  getQualityLevel (Some 31) = 80 /\ getQualityLevel (Some 70) = 80 /\
  getQualityLevel (Some 90) = 90 /\ getQualityLevel (Some 91) = 100 /\
  getQualityLevel (Some 0) = 80 /\ getQualityLevel None = 80.
Proof. repeat split. Qed.

(** C3, as worded: the table holds for every preference from 0 to 100.
    At 0 the code answers 80 where the table says 60. *)
Lemma C3_zero_counterexample :
  0 <= 0 <= 100 /\ specTier 0 = 60 /\ getQualityLevel (Some 0) = 80.
Proof.
  repeat split; try reflexivity; lia.
Qed.

(** C3, amended.  For a preference from 1 to 100 the tier is the table's;
    a preference of 0 is taken as absent, and an absent preference gives
    the medium tier 80.  Unless [convert_to_webp] is [false], that tier is
    the quality the primary artifact is encoded at. *)
Theorem C3_quality_tier (q : Z) (buffer : JS.Buffer) (options : UploadOptions) :
  (1 <= q <= 100 -> getQualityLevel (Some q) = specTier q) /\
  getQualityLevel (Some 0) = 80 /\
  getQualityLevel None = 80 /\
  (convert_to_webp options <> Some false ->
   sp_output (primaryPipeline buffer options)
   = OutWebp (getQualityLevel (quality options))).
Proof.
  repeat split.
  - intros Hq. unfold getQualityLevel, specTier, JS.truthy.
    destruct (q =? 0) eqn:E; [apply Z.eqb_eq in E; lia|]. reflexivity.
  - apply primaryPipeline_webp_quality.
Qed.

Lemma C3_quality_tier_witness :
  getQualityLevel (Some 25) = 60 /\
  sp_output (primaryPipeline [] Fixture.halfWidth) = OutWebp 80.
Proof.
  destruct (C3_quality_tier 25 [] Fixture.halfWidth) as (H1 & _ & _ & H2).
  split.
  - apply H1. lia.
  - apply H2. discriminate.
Defined.

(** ** The extension *)

(** C9, as worded: a name that is empty or ends in ['.'] is turned down
    with [UnsupportedFormat].  When the file is also over the size limit
    the run ends with [PayloadTooLarge]. *)
Lemma C9_oversized_counterexample :
  getFileExtension (file_name (Fixture.tooBig "scan.")) = EmptyString /\
  fst (processImage Fixture.codec Fixture.platform (Fixture.tooBig "scan.")
         noOptions (Fixture.start []))
  <> Err UnsupportedFormat.
Proof.
  split; vm_compute; [reflexivity | discriminate].
Qed.

(** C9, amended.  The validator's extension is [getFileExtension] of the
    name: the lowercased text after the last ['.'], or the whole lowercased
    name when there is no ['.']; so a file named [png] passes the format
    check.  An empty name or a name ending in ['.'] has the empty extension,
    and such a file, when within the size limit, is turned down with
    [UnsupportedFormat]. *)
Theorem C9_extension (name : string) :
  JS.toLowerCase (getFileExtension name) = getFileExtension name /\
  (forall pre ext, name = (pre ++ String "."%char ext)%string ->
     noDot ext = true -> getFileExtension name = JS.toLowerCase ext) /\
  (noDot name = true -> getFileExtension name = JS.toLowerCase name) /\
  (forall file, file_name file = "png"%string ->
     validateFile file <> Err UnsupportedFormat) /\
  (name = EmptyString \/ (exists pre, name = (pre ++ ".")%string) ->
   getFileExtension name = EmptyString /\
   forall {W : Type} (lib : Sharp) (sys : Platform W) file options (s : St W),
     file_name file = name ->
     file_size file <= MAX_FILE_SIZE ->
     processImage lib sys file options s = (Err UnsupportedFormat, s)).
Proof.
  split; [|split; [|split; [|split]]].
  - apply getFileExtension_lower.
  - intros pre ext -> H. now apply getFileExtension_after_last_dot.
  - apply getFileExtension_noDot.
  - intros file Hn. unfold validateFile. rewrite Hn.
    destruct (file_size file >? MAX_FILE_SIZE); [discriminate|].
    simpl.
    destruct (_ && _)%bool; discriminate.
  - intros Hname.
    assert (Hext : getFileExtension name = EmptyString).
    { destruct Hname as [->|(pre & ->)]; [reflexivity|].
      now rewrite getFileExtension_after_last_dot. }
    split; [exact Hext|].
    intros W lib sys file options s Hn Hs.
    apply processImage_unsupported; [exact Hs|].
    rewrite Hn, Hext. vm_compute. intuition discriminate.
Qed.

Lemma C9_extension_witness :
  getFileExtension "Holiday.Photo.JPG" = "jpg"%string /\
  getFileExtension "README" = "readme"%string /\
  processImage Fixture.codec Fixture.platform
    {| file_name := "scan."; file_type := "image/png";
       file_size := 12; file_bytes := [] |}
    noOptions (Fixture.start [true; true])
  = (Err UnsupportedFormat, Fixture.start [true; true]).
Proof.
  split; [|split].
  - apply (proj1 (proj2 (C9_extension "Holiday.Photo.JPG"))
             "Holiday.Photo"%string "JPG"%string);
      reflexivity.
  - apply (proj1 (proj2 (proj2 (C9_extension "README")))). reflexivity.
  - apply (proj2 (proj2 (proj2 (proj2 (C9_extension "scan."))))).
    + right. exists "scan"%string. reflexivity.
    + reflexivity.
    + vm_compute. discriminate.
Defined.

(** ** Running the pipeline *)

Section MonadFacts.
Context {W A B : Type}.

Lemma bind_ok (m : M W A) (k : A -> M W B) (s s1 : St W) (a : A) :
  m s = (Ok a, s1) -> bind m k s = k a s1.
Proof.
  intros H. unfold bind. now rewrite H.
Qed.

Lemma bind_err (m : M W A) (k : A -> M W B) (s s1 : St W) (e : PipelineError) :
  m s = (Err e, s1) -> bind m k s = (Err e, s1).
Proof.
  intros H. unfold bind. now rewrite H.
Qed.

Lemma bind_inv (m : M W A) (k : A -> M W B) (s s' : St W) (b : B) :
  bind m k s = (Ok b, s') ->
  exists a s1, m s = (Ok a, s1) /\ k a s1 = (Ok b, s').
Proof.
  unfold bind. destruct (m s) as [[a|e] s1]; [eauto | discriminate].
Qed.
End MonadFacts.

(** Splits a successful run of a sequence into its steps. *)
Ltac step_inv H :=
  let a := fresh "a" in
  let s := fresh "s" in
  let H1 := fresh "Hstep" in
  apply bind_inv in H as (a & s & H1 & H).

Section RunFacts.
Context {W : Type} (lib : Sharp) (sys : Platform W).

Lemma call_metadata_run (b : JS.Buffer) (s : St W) :
  call_metadata lib b s =
  (match sharp_metadata lib b with
   | Some m => Ok m
   | None => Err DecodeError
   end, logged (EvMetadata b) s).
Proof.
  unfold call_metadata, bind, emit, ret, throw.
  now destruct (sharp_metadata lib b).
Qed.

Lemma call_toBufferObj_run (p : SharpPipeline) (s : St W) :
  call_toBufferObj lib p s =
  (match sharp_toBuffer lib p with
   | Some r => Ok r
   | None => Err DecodeError
   end, logged (EvToBuffer p) s).
Proof.
  unfold call_toBufferObj, bind, emit, ret, throw.
  now destruct (sharp_toBuffer lib p).
Qed.

Lemma call_toBuffer_run (p : SharpPipeline) (s : St W) :
  call_toBuffer lib p s =
  (match sharp_toBuffer lib p with
   | Some r => Ok (fst r)
   | None => Err DecodeError
   end, logged (EvToBuffer p) s).
Proof.
  unfold call_toBuffer, bind. rewrite call_toBufferObj_run.
  now destruct (sharp_toBuffer lib p).
Qed.

Lemma call_put_run (filename : string) (b : JS.Buffer) (ct : string) (s : St W) :
  call_put sys filename b ct s =
  (match fst (blob_put sys filename b ct (st_world s)) with
   | Some url => Ok url
   | None => Err PublishError
   end,
   {| st_world := snd (blob_put sys filename b ct (st_world s));
      st_trace := st_trace s ++ [EvPut filename b ct] |}).
Proof.
  unfold call_put, bind, emit. simpl.
  now destruct (blob_put sys filename b ct (st_world s)) as [[url|] w].
Qed.

Lemma call_now_run (s : St W) :
  call_now sys s =
  (Ok (fst (date_now sys (st_world s))),
   {| st_world := snd (date_now sys (st_world s));
      st_trace := st_trace s ++ [EvNow] |}).
Proof.
  unfold call_now, bind, emit. simpl.
  now destruct (date_now sys (st_world s)).
Qed.

Lemma call_uuidv4_run (s : St W) :
  call_uuidv4 sys s =
  (Ok (fst (uuidv4 sys (st_world s))),
   {| st_world := snd (uuidv4 sys (st_world s));
      st_trace := st_trace s ++ [EvUuid] |}).
Proof.
  unfold call_uuidv4, bind, emit. simpl.
  now destruct (uuidv4 sys (st_world s)).
Qed.

(** What a successful [createThumbnail] has done. *)
Lemma createThumbnail_inv (buffer : JS.Buffer) (s s' : St W) (t : Thumbnail) :
  createThumbnail lib buffer s = (Ok t, s') ->
  exists info md,
    sharp_toBuffer lib (thumbnailPipeline buffer) = Some (th_buffer t, info) /\
    sharp_metadata lib (th_buffer t) = Some md /\
    th_width t = JS.orElse (md_width md) 300 /\
    th_height t = JS.orElse (md_height md) 300 /\
    s' = logged (EvMetadata (th_buffer t))
           (logged (EvToBuffer (thumbnailPipeline buffer)) s).
Proof.
  unfold createThumbnail. intros H.
  step_inv H. rewrite call_toBuffer_run in Hstep.
  destruct (sharp_toBuffer lib _) as [[out info]|] eqn:Et; [|discriminate].
  injection Hstep as <- <-.
  step_inv H. rewrite call_metadata_run in Hstep.
  destruct (sharp_metadata lib _) as [md|] eqn:Em; [|discriminate].
  injection Hstep as <- <-.
  injection H as <- <-. simpl. eauto 10.
Qed.

Lemma createThumbnail_run (buffer out : JS.Buffer) (info : OutputInfo)
    (md : SharpMetadata) (s : St W) :
  sharp_toBuffer lib (thumbnailPipeline buffer) = Some (out, info) ->
  sharp_metadata lib out = Some md ->
  createThumbnail lib buffer s =
  (Ok {| th_buffer := out;
         th_width := JS.orElse (md_width md) 300;
         th_height := JS.orElse (md_height md) 300 |},
   logged (EvMetadata out) (logged (EvToBuffer (thumbnailPipeline buffer)) s)).
Proof.
  intros Et Em. unfold createThumbnail, bind.
  rewrite call_toBuffer_run, Et. cbn [fst].
  rewrite call_metadata_run, Em. reflexivity.
Qed.

(** What a successful [processImageFile] has done. *)
Lemma processImageFile_inv (file : File) (options : UploadOptions)
    (s s' : St W) (p : Processed) :
  processImageFile lib file options s = (Ok p, s') ->
  exists md info t tinfo tmd,
    sharp_metadata lib (file_bytes file) = Some md /\
    sharp_toBuffer lib (primaryPipeline (file_bytes file) options)
      = Some (pr_buffer p, info) /\
    sharp_toBuffer lib (thumbnailPipeline (file_bytes file)) = Some (t, tinfo) /\
    sharp_metadata lib t = Some tmd /\
    pr_width p = match md_width md with Some w => w | None => 0 end /\
    pr_height p = match md_height md with Some h => h | None => 0 end /\
    pr_thumbnail p = Some t /\
    pr_thumbnailWidth p = JS.orElse (md_width tmd) 300 /\
    pr_thumbnailHeight p = JS.orElse (md_height tmd) 300 /\
    st_world s' = st_world s /\
    st_trace s' = st_trace s ++ fileEvents file options t.
Proof.
  unfold processImageFile. intros H.
  step_inv H. unfold call_arrayBuffer, bind, emit, ret in Hstep.
  injection Hstep as <- <-.
  step_inv H. rewrite call_metadata_run in Hstep.
  destruct (sharp_metadata lib _) as [md|] eqn:Em; [|discriminate].
  injection Hstep as <- <-.
  step_inv H. rewrite call_toBuffer_run in Hstep.
  destruct (sharp_toBuffer lib _) as [[out info]|] eqn:Eo; [|discriminate].
  injection Hstep as <- <-.
  step_inv H.
  apply createThumbnail_inv in Hstep as (tinfo & tmd & Et & Etm & Hw & Hh & ->).
  injection H as <- <-. simpl.
  exists md, info, (th_buffer a), tinfo, tmd.
  repeat split; try assumption.
  unfold fileEvents. rewrite <- !app_assoc. reflexivity.
Qed.

Lemma processImageFile_run (file : File) (options : UploadOptions) (s : St W)
    (md tmd : SharpMetadata) (out t : JS.Buffer) (info tinfo : OutputInfo) :
  sharp_metadata lib (file_bytes file) = Some md ->
  sharp_toBuffer lib (primaryPipeline (file_bytes file) options) = Some (out, info) ->
  sharp_toBuffer lib (thumbnailPipeline (file_bytes file)) = Some (t, tinfo) ->
  sharp_metadata lib t = Some tmd ->
  exists s',
    processImageFile lib file options s =
    (Ok {| pr_buffer := out;
           pr_width := match md_width md with Some w => w | None => 0 end;
           pr_height := match md_height md with Some h => h | None => 0 end;
           pr_thumbnail := Some t;
           pr_thumbnailWidth := JS.orElse (md_width tmd) 300;
           pr_thumbnailHeight := JS.orElse (md_height tmd) 300 |}, s') /\
    st_world s' = st_world s /\
    st_trace s' = st_trace s ++ fileEvents file options t.
Proof.
  intros Em Eo Et Etm. unfold processImageFile.
  eexists. split; [|split].
  - erewrite bind_ok by reflexivity.
    erewrite bind_ok by (rewrite call_metadata_run, Em; reflexivity).
    erewrite bind_ok by (rewrite call_toBuffer_run, Eo; reflexivity).
    erewrite bind_ok by (eapply createThumbnail_run; eassumption).
    reflexivity.
  - reflexivity.
  - simpl. unfold fileEvents. rewrite <- !app_assoc. reflexivity.
Qed.
End RunFacts.

Section ExtractFacts.
Context {W : Type} (lib : Sharp) (sys : Platform W).

(** The body of the [try] block only talks to the codec. *)
Lemma extractMetadataBody_frame (b : JS.Buffer) (f : File) (s s' : St W)
    (r : Result ImageMetadata) :
  extractMetadataBody lib b f s = (r, s') ->
  st_world s' = st_world s /\
  exists evs, st_trace s' = st_trace s ++ evs /\ existsb is_put evs = false.
Proof.
  unfold extractMetadataBody, bind. rewrite call_metadata_run.
  destruct (sharp_metadata lib b) as [md|].
  - rewrite call_toBufferObj_run.
    destruct (sharp_toBuffer lib _) as [[data info]|].
    + unfold lift, ret.
      destruct (extractColorPalette _ _ _); intros [= <- <-];
        (split; [reflexivity|]);
        eexists; simpl; rewrite <- app_assoc; split; reflexivity.
    + intros [= <- <-]. split; [reflexivity|].
      eexists; simpl; rewrite <- app_assoc; split; reflexivity.
  - intros [= <- <-]. split; [reflexivity|].
    eexists; simpl; split; reflexivity.
Qed.

(** [extractMetadata] always resolves; when its body throws, to [{}]. *)
Lemma extractMetadata_total (b : JS.Buffer) (f : File) (s : St W) :
  exists m s',
    extractMetadata lib b f s = (Ok m, s') /\
    st_world s' = st_world s /\
    (exists evs, st_trace s' = st_trace s ++ evs /\ existsb is_put evs = false) /\
    (forall e s1, extractMetadataBody lib b f s = (Err e, s1) -> m = emptyMetadata) /\
    (forall m1 s1, extractMetadataBody lib b f s = (Ok m1, s1) -> m = m1).
Proof.
  unfold extractMetadata, try_catch.
  destruct (extractMetadataBody lib b f s) as [[m|e] s1] eqn:E;
    apply extractMetadataBody_frame in E as (Hw & evs & Ht & Hp).
  - exists m, s1. repeat split; eauto; congruence.
  - eexists _, _. split; [reflexivity|]. simpl.
    repeat split; try congruence.
    exists (evs ++ [EvConsoleError]). rewrite Ht, <- app_assoc.
    split; [reflexivity|]. rewrite existsb_app, Hp. reflexivity.
Qed.
End ExtractFacts.

Section PipelineFacts.
Context {W : Type} (lib : Sharp) (sys : Platform W).
Variables (file : File) (options : UploadOptions) (s : St W).
Variables (p : Processed) (s2 : St W) (t : JS.Buffer).
Hypothesis Hvalid : validateFile file = Ok tt.
Hypothesis Hfile : processImageFile lib file options (afterUuid sys s) = (Ok p, s2).
Hypothesis Hthumb : pr_thumbnail p = Some t.

Ltac enter :=
  unfold processImage;
  erewrite bind_ok by (unfold lift; rewrite Hvalid; reflexivity);
  erewrite bind_ok by apply call_uuidv4_run;
  erewrite bind_ok by exact Hfile;
  unfold uploadToBlob.

Lemma processImage_primary_publish_fails :
  fst (primaryPut sys file s p s2) = None ->
  exists s', processImage lib sys file options s = (Err PublishError, s').
Proof.
  unfold primaryPut, primaryName, fileIdAt. intros H1. enter.
  eexists. erewrite bind_err; [reflexivity|].
  rewrite call_put_run, H1. reflexivity.
Qed.

Lemma processImage_thumbnail_publish_fails (url : string) :
  fst (primaryPut sys file s p s2) = Some url ->
  fst (thumbnailPut sys file s p s2 t) = None ->
  exists s', processImage lib sys file options s = (Err PublishError, s').
Proof.
  unfold thumbnailPut, thumbnailName, primaryPut, primaryName, fileIdAt.
  intros H1 H2. enter.
  erewrite bind_ok by (rewrite call_put_run, H1; reflexivity).
  rewrite Hthumb.
  eexists. erewrite bind_err; [reflexivity|].
  erewrite bind_err; [reflexivity|].
  rewrite call_put_run. cbn [st_world]. rewrite H2. reflexivity.
Qed.

(** With both artifacts published, a run whose expiry date is valid ends
    in a record. *)
Lemma processImage_published (url turl : string) :
  fst (primaryPut sys file s p s2) = Some url ->
  fst (thumbnailPut sys file s p s2 t) = Some turl ->
  expiryValid sys options (st_world (afterPublish sys file s p s2 t)) = true ->
  exists image th s' m s5 evs,
    processImage lib sys file options s = (Ok (image, Some th), s') /\
    extractMetadata lib (pr_buffer p) file (afterPublish sys file s p s2 t)
      = (Ok m, s5) /\
    st_trace s' = st_trace (afterPublish sys file s p s2 t) ++ evs /\
    existsb is_put evs = false /\
    img_metadata image = m /\
    img_id image = fileIdAt sys s /\
    img_filename image = primaryName sys file s /\
    img_original_name image = file_name file /\
    img_mime_type image = file_type file /\
    img_size image = file_size file /\
    img_width image = pr_width p /\
    img_height image = pr_height p /\
    img_url image = url /\
    img_thumbnail_url image = Some turl /\
    img_filename th = thumbnailName sys s /\
    img_mime_type th = "image/webp"%string /\
    img_size th = JS.byteLength t /\
    img_width th = pr_thumbnailWidth p /\
    img_height th = pr_thumbnailHeight p /\
    img_url th = turl.
Proof.
  destruct (extractMetadata_total lib (pr_buffer p) file
              (afterPublish sys file s p s2 t))
    as (m & s5 & Hm & Hw5 & (mevs & Ht5 & Hp5) & _).
  remember (afterPublish sys file s p s2 t) as published eqn:Hpub in *.
  symmetry in Hpub.
  unfold afterPublish, thumbnailPut, thumbnailName, primaryPut, primaryName,
    fileIdAt in *.
  intros H1 H2 Hx. enter.
  erewrite bind_ok by (rewrite call_put_run, H1; reflexivity).
  rewrite Hthumb.
  erewrite bind_ok
    by (erewrite bind_ok
          by (rewrite call_put_run; cbn [st_world]; rewrite H2; reflexivity);
        reflexivity).
  cbn [st_trace]. rewrite <- app_assoc. cbn [app].
  rewrite Hpub.
  erewrite bind_ok by exact Hm.
  clear Hpub.
  unfold expiryValid, expiryAt in Hx. rewrite <- Hw5 in Hx.
  destruct (JS.truthy (auto_delete_minutes options)).
  - erewrite bind_ok
      by (erewrite bind_ok by apply call_now_run; cbv beta;
          erewrite bind_ok
            by (unfold lift, toISOString; rewrite Hx; reflexivity);
          reflexivity).
    erewrite bind_ok by apply call_now_run.
    erewrite bind_ok by apply call_now_run.
    erewrite bind_ok
      by (erewrite bind_ok by apply call_now_run;
          erewrite bind_ok by apply call_now_run; reflexivity).
    do 6 eexists. split; [reflexivity|].
    split; [exact Hm|]. simpl. rewrite Ht5, <- !app_assoc.
    split; [reflexivity|].
    rewrite !existsb_app, Hp5. repeat split; reflexivity.
  - erewrite bind_ok by reflexivity.
    erewrite bind_ok by apply call_now_run.
    erewrite bind_ok by apply call_now_run.
    erewrite bind_ok
      by (erewrite bind_ok by apply call_now_run;
          erewrite bind_ok by apply call_now_run; reflexivity).
    do 6 eexists. split; [reflexivity|].
    split; [exact Hm|]. simpl. rewrite Ht5, <- !app_assoc.
    split; [reflexivity|].
    rewrite !existsb_app, Hp5. repeat split; reflexivity.
Qed.

(** With both artifacts published, a run whose expiry date is not valid
    throws when it renders that date: metadata has been extracted and the
    clock read once. *)
Lemma processImage_expiry_invalid (url turl : string) :
  fst (primaryPut sys file s p s2) = Some url ->
  fst (thumbnailPut sys file s p s2 t) = Some turl ->
  expiryValid sys options (st_world (afterPublish sys file s p s2 t)) = false ->
  exists m s5 evs,
    extractMetadata lib (pr_buffer p) file (afterPublish sys file s p s2 t)
      = (Ok m, s5) /\
    st_world s5 = st_world (afterPublish sys file s p s2 t) /\
    st_trace s5 = st_trace (afterPublish sys file s p s2 t) ++ evs /\
    existsb is_put evs = false /\
    processImage lib sys file options s =
    (Err RangeError,
     {| st_world := snd (date_now sys (st_world s5));
        st_trace := st_trace s5 ++ [EvNow] |}).
Proof.
  destruct (extractMetadata_total lib (pr_buffer p) file
              (afterPublish sys file s p s2 t))
    as (m & s5 & Hm & Hw5 & (evs & Ht5 & Hp5) & _).
  intros H1 H2 Hx. exists m, s5, evs.
  split; [exact Hm|]. split; [exact Hw5|]. split; [exact Ht5|].
  split; [exact Hp5|]. clear Ht5.
  remember (afterPublish sys file s p s2 t) as published eqn:Hpub in *.
  symmetry in Hpub.
  unfold afterPublish, thumbnailPut, thumbnailName, primaryPut, primaryName,
    fileIdAt in *.
  enter.
  erewrite bind_ok by (rewrite call_put_run, H1; reflexivity).
  rewrite Hthumb.
  erewrite bind_ok
    by (erewrite bind_ok
          by (rewrite call_put_run; cbn [st_world]; rewrite H2; reflexivity);
        reflexivity).
  cbn [st_trace]. rewrite <- app_assoc. cbn [app].
  rewrite Hpub.
  erewrite bind_ok by exact Hm.
  clear Hpub.
  unfold expiryValid, expiryAt in Hx. rewrite <- Hw5 in Hx.
  destruct (JS.truthy (auto_delete_minutes options)); [|discriminate].
  erewrite bind_err; [reflexivity|].
  erewrite bind_ok by apply call_now_run. cbv beta.
  erewrite bind_err; [reflexivity|].
  unfold lift, toISOString. rewrite Hx. reflexivity.
Qed.
End PipelineFacts.

Section InversionFacts.
Context {W : Type} (lib : Sharp) (sys : Platform W).
Variables (file : File) (options : UploadOptions) (s : St W).

Lemma processImage_file_fails (e : PipelineError) (s2 : St W) :
  validateFile file = Ok tt ->
  processImageFile lib file options (afterUuid sys s) = (Err e, s2) ->
  processImage lib sys file options s = (Err e, s2).
Proof.
  intros Hv Hf. unfold processImage.
  erewrite bind_ok by (unfold lift; rewrite Hv; reflexivity).
  erewrite bind_ok by apply call_uuidv4_run.
  erewrite bind_err by exact Hf. reflexivity.
Qed.

(** A run that ends in a record has passed every stage. *)
Lemma processImage_inv (image : Image) (thumbnail : option Image) (s' : St W) :
  processImage lib sys file options s = (Ok (image, thumbnail), s') ->
  exists p s2 t url turl,
    validateFile file = Ok tt /\
    processImageFile lib file options (afterUuid sys s) = (Ok p, s2) /\
    pr_thumbnail p = Some t /\
    fst (primaryPut sys file s p s2) = Some url /\
    fst (thumbnailPut sys file s p s2 t) = Some turl /\
    expiryValid sys options (st_world (afterPublish sys file s p s2 t)) = true.
Proof.
  intros Hrun.
  destruct (validateFile file) as [[]|e] eqn:Hv;
    [|rewrite (processImage_invalid lib sys file options e s Hv) in Hrun;
      discriminate].
  destruct (processImageFile lib file options (afterUuid sys s))
    as [[p|e] s2] eqn:Hf;
    [|rewrite (processImage_file_fails e s2 Hv Hf) in Hrun; discriminate].
  destruct (processImageFile_inv lib file options _ _ p Hf)
    as (md & info & t & tinfo & tmd & _ & _ & _ & _ & _ & _ & Ht & _).
  destruct (fst (primaryPut sys file s p s2)) as [url|] eqn:H1.
  - destruct (fst (thumbnailPut sys file s p s2 t)) as [turl|] eqn:H2.
    + destruct (expiryValid sys options
                  (st_world (afterPublish sys file s p s2 t))) eqn:Hx.
      * exists p, s2, t, url, turl. auto 10.
      * destruct (processImage_expiry_invalid lib sys file options s
                    p s2 t Hv Hf Ht url turl H1 H2 Hx)
          as (m & s5 & evs & _ & _ & _ & _ & E).
        rewrite E in Hrun. discriminate.
    + destruct (processImage_thumbnail_publish_fails lib sys file options s
                  p s2 t Hv Hf Ht url H1 H2) as (s3 & E).
      rewrite E in Hrun. discriminate.
  - destruct (processImage_primary_publish_fails lib sys file options s
                p s2 Hv Hf H1) as (s3 & E).
    rewrite E in Hrun. discriminate.
Qed.
End InversionFacts.

Lemma filter_existsb_false {A : Type} (f : A -> bool) (l : list A) :
  existsb f l = false -> filter f l = [].
Proof.
  induction l as [|x r IH]; simpl; [reflexivity|].
  destruct (f x); simpl; [discriminate | exact IH].
Qed.

(** ** Publishing *)

(** C5.  When the store takes the primary artifact and refuses the
    thumbnail, the run ends with [PublishError] and returns no record; and
    every record a run returns carries both addresses, each the store's
    answer to a successful upload. *)
Theorem C5_no_half_published_record {W : Type} (lib : Sharp) (sys : Platform W)
    (file : File) (options : UploadOptions) (s : St W) :
  (forall p s2 t url,
     validateFile file = Ok tt ->
     processImageFile lib file options (afterUuid sys s) = (Ok p, s2) ->
     pr_thumbnail p = Some t ->
     fst (primaryPut sys file s p s2) = Some url ->
     fst (thumbnailPut sys file s p s2 t) = None ->
     exists s', processImage lib sys file options s = (Err PublishError, s')) /\
  (forall image thumbnail s',
     processImage lib sys file options s = (Ok (image, thumbnail), s') ->
     exists p s2 t url turl th,
       processImageFile lib file options (afterUuid sys s) = (Ok p, s2) /\
       pr_thumbnail p = Some t /\
       fst (primaryPut sys file s p s2) = Some url /\
       fst (thumbnailPut sys file s p s2 t) = Some turl /\
       img_url image = url /\
       img_thumbnail_url image = Some turl /\
       thumbnail = Some th /\
       img_url th = turl).
Proof.
  split.
  - intros p s2 t url Hv Hf Ht H1 H2.
    eapply processImage_thumbnail_publish_fails; eassumption.
  - intros image thumbnail s' Hrun.
    destruct (processImage_inv lib sys file options s _ _ _ Hrun)
      as (p & s2 & t & url & turl & Hv & Hf & Ht & H1 & H2 & Hx).
    destruct (processImage_published lib sys file options s p s2 t Hv Hf Ht
                url turl H1 H2 Hx)
      as (image' & th & s'' & m & s5 & evs & E & _ & _ & _ & _ & _ & _ & _
          & _ & _ & _ & _ & Hu & Htu & _ & _ & _ & _ & _ & Hthu).
    rewrite E in Hrun. injection Hrun as <- <- <-.
    exists p, s2, t, url, turl, th. auto 10.
Qed.

Lemma C5_no_half_published_record_witness :
  exists s',
    processImage Fixture.codec Fixture.platform Fixture.photo Fixture.halfWidth
      (Fixture.start [true; false])
    = (Err PublishError, s').
Proof.
  eapply (proj1 (C5_no_half_published_record Fixture.codec Fixture.platform
                   Fixture.photo Fixture.halfWidth (Fixture.start [true; false]))).
  - reflexivity.
  - vm_compute. reflexivity.
  - reflexivity.
  - vm_compute. reflexivity.
  - vm_compute. reflexivity.
Defined.

(** C10.  A run that returns a record has made exactly two uploads: the
    primary artifact, under the generated identifier with the upload's own
    (lowercased) extension and under the declared MIME type, and then the
    thumbnail, under [<id>_thumb.webp] as [image/webp].  The record carries
    the same file name and the declared MIME type.  This holds also when the
    primary artifact has been encoded as WebP, which is the case unless
    [convert_to_webp] is [false]. *)
Theorem C10_primary_published_as_declared {W : Type} (lib : Sharp)
    (sys : Platform W) (file : File) (options : UploadOptions) (s : St W)
    (image : Image) (thumbnail : option Image) (s' : St W) :
  processImage lib sys file options s = (Ok (image, thumbnail), s') ->
  exists primary info t th,
    sharp_toBuffer lib (primaryPipeline (file_bytes file) options)
      = Some (primary, info) /\
    (convert_to_webp options <> Some false ->
     sp_output (primaryPipeline (file_bytes file) options)
     = OutWebp (getQualityLevel (quality options))) /\
    filter is_put (st_trace s') =
      filter is_put (st_trace s) ++
      [EvPut (primaryName sys file s) primary (file_type file);
       EvPut (thumbnailName sys s) t "image/webp"] /\
    primaryName sys file s
      = (fileIdAt sys s ++ "." ++ getFileExtension (file_name file))%string /\
    img_filename image = primaryName sys file s /\
    img_mime_type image = file_type file /\
    thumbnail = Some th /\
    img_filename th = thumbnailName sys s /\
    img_mime_type th = "image/webp"%string.
Proof.
  intros Hrun.
  destruct (processImage_inv lib sys file options s _ _ _ Hrun)
    as (p & s2 & t & url & turl & Hv & Hf & Ht & H1 & H2 & Hx).
  destruct (processImage_published lib sys file options s p s2 t Hv Hf Ht
              url turl H1 H2 Hx)
    as (image' & th & s'' & m & s5 & evs & E & _ & Htr & Hevs & _ & _ & Hfn
        & _ & Hmt & _ & _ & _ & _ & _ & Htfn & Htmt & _).
  rewrite E in Hrun. injection Hrun as <- <- <-.
  destruct (processImageFile_inv lib file options _ _ p Hf)
    as (md & info & t' & tinfo & tmd & _ & Hprim & _ & _ & _ & _ & Ht' & _ & _
        & _ & Htr2).
  rewrite Ht in Ht'. injection Ht' as <-.
  exists (pr_buffer p), info, t, th.
  repeat split; try assumption.
  - intros Hc. apply (primaryPipeline_webp_quality (file_bytes file) options Hc).
  - rewrite Htr. unfold afterPublish. cbn [st_trace]. rewrite Htr2.
    unfold afterUuid. cbn [st_trace].
    rewrite !filter_app, (filter_existsb_false _ _ Hevs), app_nil_r.
    cbn [filter is_put fileEvents app]. now rewrite !app_nil_r.
Qed.

(** ** Metadata extraction *)

(** C7.  Once both artifacts are published, [extractMetadata] always
    resolves, and leaves the world as it found it: when its body throws,
    whatever the reason, it resolves to the empty bag.  Whether the run
    then returns a record does not depend on the extraction: it returns
    one exactly when the expiry date, if the options ask for one, is valid,
    and the only failure left is the [RangeError] of rendering an invalid
    expiry date.  The record carries the bag as its metadata; the other
    fields are what they are in any run. *)
Theorem C7_extraction_failure_not_fatal {W : Type} (lib : Sharp)
    (sys : Platform W) (file : File) (options : UploadOptions) (s : St W)
    (p : Processed) (s2 : St W) (t : JS.Buffer) (url turl : string) :
  validateFile file = Ok tt ->
  processImageFile lib file options (afterUuid sys s) = (Ok p, s2) ->
  pr_thumbnail p = Some t ->
  fst (primaryPut sys file s p s2) = Some url ->
  fst (thumbnailPut sys file s p s2 t) = Some turl ->
  exists m s5,
    extractMetadata lib (pr_buffer p) file (afterPublish sys file s p s2 t)
      = (Ok m, s5) /\
    st_world s5 = st_world (afterPublish sys file s p s2 t) /\
    (forall e s6,
       extractMetadataBody lib (pr_buffer p) file (afterPublish sys file s p s2 t)
         = (Err e, s6) ->
       m = emptyMetadata) /\
    (forall m1 s6,
       extractMetadataBody lib (pr_buffer p) file (afterPublish sys file s p s2 t)
         = (Ok m1, s6) ->
       m = m1) /\
    (expiryValid sys options (st_world (afterPublish sys file s p s2 t)) = true ->
     exists image th s',
       processImage lib sys file options s = (Ok (image, Some th), s') /\
       img_metadata image = m /\
       img_id image = fileIdAt sys s /\
       img_filename image = primaryName sys file s /\
       img_mime_type image = file_type file /\
       img_size image = file_size file /\
       img_width image = pr_width p /\
       img_height image = pr_height p /\
       img_url image = url /\
       img_thumbnail_url image = Some turl /\
       img_url th = turl /\
       img_width th = pr_thumbnailWidth p /\
       img_height th = pr_thumbnailHeight p) /\
    (expiryValid sys options (st_world (afterPublish sys file s p s2 t)) = false ->
     exists s', processImage lib sys file options s = (Err RangeError, s')) /\
    (forall e s',
       processImage lib sys file options s = (Err e, s') ->
       e = RangeError /\
       expiryValid sys options (st_world (afterPublish sys file s p s2 t)) = false).
Proof.
  intros Hv Hf Ht H1 H2.
  destruct (extractMetadata_total lib (pr_buffer p) file
              (afterPublish sys file s p s2 t))
    as (m & s5 & Hm & Hw5 & _ & Hfail & Hok).
  exists m, s5.
  split; [exact Hm|]. split; [exact Hw5|].
  split; [exact Hfail|]. split; [exact Hok|]. split.
  - intros Hx.
    destruct (processImage_published lib sys file options s p s2 t Hv Hf Ht
                url turl H1 H2 Hx)
      as (image & th & s' & m' & s5' & evs & E & Hm' & _ & _ & Hmeta & Hid & Hfn
          & _ & Hmt & Hsz & Hw & Hh & Hu & Htu & _ & _ & _ & Htw & Hth & Hthu).
    rewrite Hm in Hm'. injection Hm' as <- <-.
    exists image, th, s'.
    split; [exact E|]. split; [exact Hmeta|]. split; [exact Hid|].
    split; [exact Hfn|]. split; [exact Hmt|]. split; [exact Hsz|].
    split; [exact Hw|]. split; [exact Hh|]. split; [exact Hu|].
    split; [exact Htu|]. split; [exact Hthu|]. split; [exact Htw | exact Hth].
  - split.
    { intros Hx.
      destruct (processImage_expiry_invalid lib sys file options s p s2 t
                  Hv Hf Ht url turl H1 H2 Hx)
        as (m' & s5' & evs & _ & _ & _ & _ & E).
      eexists. exact E. }
    intros e s' Hrun.
    destruct (expiryValid sys options
                (st_world (afterPublish sys file s p s2 t))) eqn:Hx.
    + destruct (processImage_published lib sys file options s p s2 t Hv Hf Ht
                  url turl H1 H2 Hx) as (image & th & s'' & m' & s5' & evs & E & _).
      rewrite E in Hrun. discriminate.
    + destruct (processImage_expiry_invalid lib sys file options s p s2 t
                  Hv Hf Ht url turl H1 H2 Hx)
        as (m' & s5' & evs & _ & _ & _ & _ & E).
      rewrite E in Hrun. injection Hrun as <- _. split; reflexivity.
Qed.

Lemma C7_extraction_failure_not_fatal_witness :
  exists image th s',
    processImage Fixture.codecNoRaw Fixture.platform Fixture.photo noOptions
      (Fixture.start [true; true])
    = (Ok (image, Some th), s') /\
    img_metadata image = emptyMetadata.
Proof.
  edestruct (C7_extraction_failure_not_fatal Fixture.codecNoRaw Fixture.platform
               Fixture.photo noOptions (Fixture.start [true; true]))
    as (m & s5 & _ & _ & Hfail & _ & Hrun & _).
  - reflexivity.
  - vm_compute. reflexivity.
  - reflexivity.
  - vm_compute. reflexivity.
  - vm_compute. reflexivity.
  - destruct (Hrun eq_refl) as (image & th & s' & E & Hmeta & _).
    exists image, th, s'. split; [exact E|].
    rewrite Hmeta. eapply Hfail. vm_compute. reflexivity.
Defined.

Lemma C10_primary_published_as_declared_witness :
  exists image thumbnail s',
    processImage Fixture.codec Fixture.platform Fixture.photo Fixture.halfWidth
      (Fixture.start [true; true])
    = (Ok (image, thumbnail), s') /\
    img_filename image = "6f1c.png"%string /\
    img_mime_type image = "image/png"%string.
Proof.
  let v := eval vm_compute in
    (processImage Fixture.codec Fixture.platform Fixture.photo Fixture.halfWidth
       (Fixture.start [true; true])) in
  match v with
  | (Ok (?i, ?t), ?s) =>
      exists i, t, s;
      assert (Hrun : processImage Fixture.codec Fixture.platform Fixture.photo
                       Fixture.halfWidth (Fixture.start [true; true])
                     = (Ok (i, t), s)) by (vm_compute; reflexivity)
  end.
  split; [exact Hrun|].
  destruct (C10_primary_published_as_declared _ _ _ _ _ _ _ _ Hrun)
    as (primary & info & t & th & _ & _ & _ & _ & Hfn & Hmt & _).
  split; [exact Hfn | exact Hmt].
Defined.

(** ** The thumbnail *)

(** C4.  The thumbnail request is fixed: the bytes of the upload, resized
    to 300 by 300 with fit [cover] anchored at the centre, encoded as WebP
    at quality 80.  Whatever the options, the thumbnail [processImageFile]
    returns is the codec's answer to that request, and with a codec that
    keeps to the size asked for it is recorded as 300 by 300, in the
    thumbnail's record too.  An upload the codec can read always gets its
    thumbnail. *)
Theorem C4_thumbnail_fixed {W : Type} (lib : Sharp) (sys : Platform W)
    (file : File) (options : UploadOptions) (s : St W) :
  thumbnailPipeline (file_bytes file)
  = {| sp_input := file_bytes file;
       sp_resize := Some {| rz_width := Some 300; rz_height := Some 300;
                            rz_fit := FitCover; rz_position := PosCentre;
                            rz_withoutEnlargement := false |};
       sp_output := OutWebp 80 |} /\
  (forall p s',
     processImageFile lib file options s = (Ok p, s') ->
     exists t info,
       pr_thumbnail p = Some t /\
       sharp_toBuffer lib (thumbnailPipeline (file_bytes file)) = Some (t, info) /\
       (HonoursCover lib (file_bytes file) ->
        pr_thumbnailWidth p = 300 /\ pr_thumbnailHeight p = 300)) /\
  (forall image thumbnail s',
     processImage lib sys file options s = (Ok (image, thumbnail), s') ->
     HonoursCover lib (file_bytes file) ->
     exists th, thumbnail = Some th /\ img_width th = 300 /\ img_height th = 300) /\
  (forall md out info,
     sharp_metadata lib (file_bytes file) = Some md ->
     sharp_toBuffer lib (primaryPipeline (file_bytes file) options) = Some (out, info) ->
     forall t tinfo tmd,
       sharp_toBuffer lib (thumbnailPipeline (file_bytes file)) = Some (t, tinfo) ->
       sharp_metadata lib t = Some tmd ->
       exists p s',
         processImageFile lib file options s = (Ok p, s') /\
         pr_thumbnail p = Some t).
Proof.
  assert (Hsize : forall (s0 s1 : St W) p,
             processImageFile lib file options s0 = (Ok p, s1) ->
             exists t info,
               pr_thumbnail p = Some t /\
               sharp_toBuffer lib (thumbnailPipeline (file_bytes file)) = Some (t, info) /\
               (HonoursCover lib (file_bytes file) ->
                pr_thumbnailWidth p = 300 /\ pr_thumbnailHeight p = 300)).
  { intros s0 s1 p Hf.
    destruct (processImageFile_inv lib file options _ _ p Hf)
      as (md & info & t & tinfo & tmd & _ & _ & Het & Hem & _ & _ & Ht & Hw & Hh & _).
    exists t, tinfo. split; [exact Ht|]. split; [exact Het|].
    intros Hcover.
    destruct (Hcover t tinfo Het) as (md' & Hmd' & Hw' & Hh').
    rewrite Hem in Hmd'. injection Hmd' as <-.
    rewrite Hw, Hh, Hw', Hh'. split; reflexivity. }
  split; [reflexivity|]. split; [|split].
  - intros p s'. apply Hsize.
  - intros image thumbnail s' Hrun Hcover.
    destruct (processImage_inv lib sys file options s _ _ _ Hrun)
      as (p & s2 & t & url & turl & Hv & Hf & Ht & H1 & H2 & Hx).
    destruct (processImage_published lib sys file options s p s2 t Hv Hf Ht
                url turl H1 H2 Hx)
      as (image' & th & s'' & m & s5 & evs & E & _ & _ & _ & _ & _ & _
          & _ & _ & _ & _ & _ & _ & _ & _ & _ & _ & Htw & Hth & _).
    rewrite E in Hrun. injection Hrun as <- <- <-.
    destruct (Hsize _ _ _ Hf) as (t' & info & _ & _ & Hdim).
    destruct (Hdim Hcover) as [Hw Hh].
    exists th. rewrite Htw, Hth. auto.
  - intros md out info Hm Ho t tinfo tmd Het Hem.
    destruct (processImageFile_run lib file options s md tmd out t info tinfo
                Hm Ho Het Hem) as (s' & E & _).
    eexists _, s'. split; [exact E | reflexivity].
Qed.

Lemma C4_thumbnail_fixed_witness :
  exists image th s',
    processImage Fixture.codec Fixture.platform Fixture.photo Fixture.halfWidth
      (Fixture.start [true; true])
    = (Ok (image, Some th), s') /\
    img_width th = 300 /\ img_height th = 300.
Proof.
  let v := eval vm_compute in
    (processImage Fixture.codec Fixture.platform Fixture.photo Fixture.halfWidth
       (Fixture.start [true; true])) in
  match v with
  | (Ok (?i, ?t), ?s) =>
      pose (image := i); pose (thumbnail := t); pose (s' := s);
      assert (Hrun : processImage Fixture.codec Fixture.platform Fixture.photo
                       Fixture.halfWidth (Fixture.start [true; true])
                     = (Ok (image, thumbnail), s')) by (vm_compute; reflexivity)
  end.
  destruct (C4_thumbnail_fixed Fixture.codec Fixture.platform Fixture.photo
              Fixture.halfWidth (Fixture.start [true; true]))
    as (_ & _ & Hrec & _).
  destruct (Hrec _ _ _ Hrun) as (th & Hth & Hw & Hh).
  - intros t info Ht. vm_compute in Ht. injection Ht as <- <-.
    eexists. split; [vm_compute; reflexivity|]. split; reflexivity.
  - exists image, th, s'. rewrite <- Hth. auto.
Defined.

(** ** The record's dimensions *)

(** What the record reports, in every run: the width and height decoded
    from the uploaded bytes, before any resize, and the size of the upload. *)
Lemma processImage_record_dimensions {W : Type} (lib : Sharp) (sys : Platform W)
    (file : File) (options : UploadOptions) (s s' : St W)
    (image : Image) (thumbnail : option Image) :
  processImage lib sys file options s = (Ok (image, thumbnail), s') ->
  exists md,
    sharp_metadata lib (file_bytes file) = Some md /\
    img_width image = match md_width md with Some w => w | None => 0 end /\
    img_height image = match md_height md with Some h => h | None => 0 end /\
    img_size image = file_size file.
Proof.
  intros Hrun.
  destruct (processImage_inv lib sys file options s _ _ _ Hrun)
    as (p & s2 & t & url & turl & Hv & Hf & Ht & H1 & H2 & Hx).
  destruct (processImage_published lib sys file options s p s2 t Hv Hf Ht
              url turl H1 H2 Hx)
    as (image' & th & s'' & m & s5 & evs & E & _ & _ & _ & _ & _ & _
        & _ & _ & Hsz & Hw & Hh & _).
  rewrite E in Hrun. injection Hrun as <- <- <-.
  destruct (processImageFile_inv lib file options _ _ p Hf)
    as (md & info & t' & tinfo & tmd & Hmd & _ & _ & _ & Hpw & Hph & _).
  exists md. rewrite Hw, Hh, Hpw, Hph. auto.
Qed.

(** C1, on a 4 by 2 upload of 36 bytes with [max_width: 2].  The primary
    artifact that is published decodes as 2 by 1 and has 12 bytes; the
    record says 4 by 2 and 36 bytes, the figures of the upload. *)
Theorem C1_record_reports_the_upload :
  exists image thumbnail s' primary md,
    processImage Fixture.codec Fixture.platform Fixture.photo Fixture.halfWidth
      (Fixture.start [true; true])
    = (Ok (image, thumbnail), s') /\
    In (EvPut (img_filename image) primary (img_mime_type image)) (st_trace s') /\
    sharp_metadata Fixture.codec primary = Some md /\
    md_width md = Some 2 /\ md_height md = Some 1 /\
    JS.byteLength primary = 12 /\
    img_width image = 4 /\ img_height image = 2 /\ img_size image = 36.
Proof.
  do 5 eexists. split; [vm_compute; reflexivity|].
  split.
  - cbn [st_trace img_filename img_mime_type].
    do 6 right. left. reflexivity.
  - split; [vm_compute; reflexivity|]. repeat split.
Qed.

(** * Further properties of the pipeline *)

(** ** The quality score *)

Lemma calculateQualityScore_bounds (metadata : SharpMetadata) :
  55 <= calculateQualityScore metadata <= 100.
Proof.
  unfold calculateQualityScore.
  repeat match goal with
    | |- context [if ?c then _ else _] => destruct c
    end; lia.
Qed.

(** The score lies between 55 and 100, so the final clamp never acts; it
    is 100 exactly when no penalty applies, and a width, height, density or
    size that is unknown, or a density or size of 0, brings no penalty. *)
Theorem calculateQualityScore_range (metadata : SharpMetadata) :
  55 <= calculateQualityScore metadata <= 100 /\
  (calculateQualityScore metadata = 100 <->
   (forall w, md_width metadata = Some w -> 800 <= w) /\
   (forall h, md_height metadata = Some h -> 600 <= h) /\
   (forall d, md_density metadata = Some d -> d = 0 \/ 72 <= d) /\
   (forall z, md_size metadata = Some z -> z = 0 \/ 50000 <= z)).
Proof.
  unfold calculateQualityScore, JS.lt, JS.truthy.
  destruct (md_width metadata) as [w|], (md_height metadata) as [h|],
    (md_density metadata) as [d|], (md_size metadata) as [z|];
    repeat match goal with
      | |- context [?a <? ?b] => destruct (Z.ltb_spec a b)
      | |- context [?a =? ?b] => destruct (Z.eqb_spec a b)
      end;
    cbn [orb andb negb]; (split; [lia|]);
    (split;
     [ intros Hs; try lia; repeat split; intros x [= <-]; lia
     | intros (Hw & Hh & Hd & Hz);
       try (specialize (Hw _ eq_refl)); try (specialize (Hh _ eq_refl));
       try (specialize (Hd _ eq_refl)); try (specialize (Hz _ eq_refl));
       lia ]).
Qed.

(** ** Validation *)

Lemma validateFile_cases (file : File) :
  validateFile file =
  if file_size file >? MAX_FILE_SIZE then Err PayloadTooLarge
  else if negb (JS.includes SUPPORTED_FORMATS (getFileExtension (file_name file)))
       then Err UnsupportedFormat
       else if (negb (JS.startsWith (file_type file) "image/")
                && negb (String.eqb (file_type file) "application/pdf"))%bool
            then Err TypeMismatch
            else Ok tt.
Proof.
  unfold validateFile. now rewrite getFileExtension_lower.
Qed.

(** A file is accepted exactly when it is at most 32 MiB, its extension is
    in the list, and its declared type starts with [image/] or is
    [application/pdf]; the extension and the type are not compared with
    one another.  A file that passes the first two tests and fails the
    third is turned down with [TypeMismatch]. *)
Theorem validateFile_accepts (file : File) :
  (validateFile file = Ok tt <->
   file_size file <= MAX_FILE_SIZE /\
   In (getFileExtension (file_name file)) SUPPORTED_FORMATS /\
   (JS.startsWith (file_type file) "image/" = true \/
    file_type file = "application/pdf"%string)) /\
  (file_size file <= MAX_FILE_SIZE ->
   In (getFileExtension (file_name file)) SUPPORTED_FORMATS ->
   JS.startsWith (file_type file) "image/" = false ->
   file_type file <> "application/pdf"%string ->
   validateFile file = Err TypeMismatch).
Proof.
  rewrite validateFile_cases.
  destruct (Z.gtb_spec (file_size file) MAX_FILE_SIZE) as [Hs|Hs].
  { split; [split; [discriminate | lia] | lia]. }
  destruct (JS.includes SUPPORTED_FORMATS _) eqn:Hi; cbn [negb].
  - apply includes_In in Hi.
    destruct (JS.startsWith (file_type file) "image/") eqn:Hp; cbn [negb andb].
    + split; [split; auto | discriminate].
    + destruct (String.eqb_spec (file_type file) "application/pdf") as [He|He];
        cbn [negb].
      * split; [split; auto | congruence].
      * split; [|reflexivity].
        split; [discriminate|]. intros (_ & _ & [H|H]); congruence.
  - assert (Hn : ~ In (getFileExtension (file_name file)) SUPPORTED_FORMATS).
    { intros H. apply includes_In in H. congruence. }
    split; [split; [discriminate | tauto] | tauto].
Qed.

Lemma validateFile_accepts_witness :
  validateFile {| file_name := "invoice.PDF"; file_type := "image/png";
                  file_size := 1024; file_bytes := [] |} = Ok tt /\
  validateFile {| file_name := "notes.png"; file_type := "text/plain";
                  file_size := 1024; file_bytes := [] |} = Err TypeMismatch.
Proof.
  split.
  - apply (proj1 (validateFile_accepts _)). cbn [file_size file_name file_type].
    split; [vm_compute; discriminate|].
    split; [vm_compute; tauto | left; reflexivity].
  - apply (proj2 (validateFile_accepts _)); cbn [file_size file_name file_type].
    + vm_compute; discriminate.
    + vm_compute; tauto.
    + reflexivity.
    + discriminate.
Defined.

(** ** Letter case of the name *)

Lemma lowerUnit_dot (c : ascii) :
  Ascii.eqb (JS.lowerUnit c) "."%char = Ascii.eqb c "."%char.
Proof.
  destruct c as [[] [] [] [] [] [] [] []]; reflexivity.
Qed.

Lemma split_toLowerCase (s : string) :
  JS.split "."%char (JS.toLowerCase s) = map JS.toLowerCase (JS.split "."%char s).
Proof.
  induction s as [|c r IH]; [reflexivity|].
  cbn [JS.toLowerCase JS.split]. rewrite lowerUnit_dot, IH.
  destruct (Ascii.eqb c "."); [reflexivity|].
  destruct (JS.split "." r); reflexivity.
Qed.

Lemma pop_map (f : string -> string) (l : list string) :
  JS.pop (map f l) = option_map f (JS.pop l).
Proof.
  induction l as [|x [|y r] IH]; try reflexivity.
  exact IH.
Qed.

Lemma split_parts_noDot (s : string) :
  Forall (fun part => noDot part = true) (JS.split "."%char s).
Proof.
  induction s as [|c r IH]; cbn [JS.split]; [repeat constructor|].
  destruct (Ascii.eqb c ".") eqn:E; [constructor; [reflexivity | exact IH]|].
  destruct (JS.split "." r) as [|h t]; [repeat constructor; cbn; now rewrite E|].
  inversion IH; subst. constructor; [|assumption].
  cbn. now rewrite E.
Qed.

Lemma pop_In (l : list string) (x : string) : JS.pop l = Some x -> In x l.
Proof.
  induction l as [|y [|z r] IH]; [discriminate | intros [= <-]; now left |].
  intros H. right. now apply IH.
Qed.

Lemma noDot_toLowerCase (s : string) : noDot (JS.toLowerCase s) = noDot s.
Proof.
  induction s as [|c r IH]; [reflexivity|].
  cbn [JS.toLowerCase noDot]. now rewrite lowerUnit_dot, IH.
Qed.

(** For names of code units below U+0100, which is what a [string] holds:
    the extension does not depend on the letter case of the name, is
    itself in lower case and holds no ['.']; so two files that differ only
    in the case of their names get the same verdict from the validator. *)
Theorem getFileExtension_case_blind (name : string) :
  getFileExtension (JS.toLowerCase name) = getFileExtension name /\
  JS.toLowerCase (getFileExtension name) = getFileExtension name /\
  noDot (getFileExtension name) = true /\
  (forall f1 f2,
     file_name f1 = name ->
     JS.toLowerCase (file_name f2) = JS.toLowerCase name ->
     file_size f2 = file_size f1 -> file_type f2 = file_type f1 ->
     validateFile f2 = validateFile f1).
Proof.
  assert (Hlow : forall n, getFileExtension (JS.toLowerCase n) = getFileExtension n).
  { intros n. rewrite !getFileExtension_pop, split_toLowerCase, pop_map.
    destruct (JS.pop _); [apply toLowerCase_idem | reflexivity]. }
  split; [apply Hlow|]. split; [apply getFileExtension_lower|]. split.
  - rewrite getFileExtension_pop.
    destruct (JS.pop _) as [x|] eqn:E; [|reflexivity].
    rewrite noDot_toLowerCase. apply pop_In in E.
    pose proof (split_parts_noDot name) as H.
    rewrite Forall_forall in H. now apply H.
  - intros f1 f2 H1 H2 Hs Ht.
    rewrite !validateFile_cases, Hs, Ht.
    rewrite <- (Hlow (file_name f2)), H2, Hlow, H1. reflexivity.
Qed.

Lemma getFileExtension_case_blind_witness :
  validateFile {| file_name := "SHOT.Jpeg"; file_type := "image/jpeg";
                  file_size := 10; file_bytes := [] |}
  = validateFile {| file_name := "shot.jpeg"; file_type := "image/jpeg";
                    file_size := 10; file_bytes := [] |}.
Proof.
  apply (proj2 (proj2 (proj2 (getFileExtension_case_blind "shot.jpeg"))));
    reflexivity.
Defined.

(** ** The palette and the dominant colour *)

(** The palette is the first ten entries of a ranking of all counted
    colours. *)
Lemma extractColorPalette_ranking (data : JS.Buffer) (width height : Z)
    (palette : list string) :
  extractColorPalette data width height = Ok palette ->
  exists cs ranking,
    map (Palette.colorAt data) (Palette.countedOffsets data) = map Some cs /\
    palette = firstn 10 ranking /\
    NoDup ranking /\
    (forall c, In c ranking <-> In c cs) /\
    StronglySorted (Palette.outranks cs) ranking.
Proof.
  unfold extractColorPalette.
  destruct (paletteLoop _ data 0 ColorMap.empty) as [m|e] eqn:El; [|discriminate].
  intros H. apply Ok_inj in H. subst palette.
  apply paletteLoop_scan in El; [|reflexivity|lia].
  destruct El as (cs & Hcs & ->).
  rewrite Nat.sub_0_r in Hcs. fold (Palette.countedOffsets data) in Hcs.
  destruct (ranking_of_tally cs _ (tally_TallyOf cs)) as (Hnd & Hin & Hord).
  rewrite <- firstn_map.
  eexists cs, _. repeat split; try eassumption; apply Hin.
Qed.

Lemma counted_colour_hex (data : JS.Buffer) (cs : list string) (c : string) :
  map (Palette.colorAt data) (Palette.countedOffsets data) = map Some cs ->
  In c cs -> Palette.isHexColor c = true.
Proof.
  intros Hcs Hc. apply (in_map Some) in Hc. rewrite <- Hcs in Hc.
  apply in_map_iff in Hc as (i & Hi & _). now apply colorAt_hex in Hi.
Qed.

Lemma getDominantColor_head (c : string) (r : list string) :
  Palette.isHexColor c = true -> getDominantColor (c :: r) = c.
Proof.
  destruct c; [discriminate | reflexivity].
Qed.

Lemma palette_entries_hex (data : JS.Buffer) (width height : Z)
    (palette : list string) :
  extractColorPalette data width height = Ok palette ->
  Forall (fun c => Palette.isHexColor c = true) palette /\
  (List.length palette <= 10)%nat.
Proof.
  intros H.
  destruct (extractColorPalette_ranking _ _ _ _ H)
    as (cs & ranking & Hcs & -> & Hnd & Hin & Hord).
  split; [|apply firstn_le_length].
  rewrite Forall_forall. intros c Hc.
  apply (counted_colour_hex data cs); [exact Hcs|].
  apply Hin. rewrite <- (firstn_skipn 10 ranking). apply in_or_app. now left.
Qed.

Lemma getDominantColor_hex (palette : list string) :
  Forall (fun c => Palette.isHexColor c = true) palette ->
  Palette.isHexColor (getDominantColor palette) = true.
Proof.
  intros H. destruct palette as [|c r]; [reflexivity|].
  inversion H; subst. now rewrite getDominantColor_head.
Qed.

(** ** Pixels and bytes *)

Lemma hexByte_hexOf (b : byte) : Palette.hexByte b = Raster.hexOf b.
Proof.
  destruct b; vm_compute; reflexivity.
Qed.

Lemma map_Some_inj {A : Type} (l l' : list A) : map Some l = map Some l' -> l = l'.
Proof.
  revert l'. induction l as [|x r IH]; intros [|y r']; try discriminate;
    [reflexivity|].
  cbn. intros [= -> H]. f_equal. now apply IH.
Qed.

(** A list without repetition whose only possible member is [x], and
    which has it. *)
Lemma NoDup_single {A : Type} (x : A) (l : list A) :
  NoDup l -> (forall c, In c l <-> c = x) -> l = [x].
Proof.
  intros Hnd Hin. destruct l as [|a [|b r]].
  - destruct (proj2 (Hin x) eq_refl).
  - f_equal. apply Hin. now left.
  - assert (a = x) as -> by (apply Hin; now left).
    assert (b = x) as -> by (apply Hin; right; now left).
    inversion Hnd as [|? ? Hnot _]; subst. destruct Hnot. now left.
Qed.

Section PixelFacts.
Import Palette Raster.

Lemma rgba_length (pixels : list Pixel) :
  List.length (rgba pixels) = (4 * List.length pixels)%nat.
Proof.
  induction pixels as [|p r IH]; [reflexivity|].
  cbn [rgba flat_map app List.length] in *. fold (rgba r). lia.
Qed.

Lemma rgba_snoc (pixels : list Pixel) (p : Pixel) :
  rgba (pixels ++ [p]) = rgba pixels ++ [px_red p; px_green p; px_blue p; px_alpha p].
Proof.
  unfold rgba. now rewrite flat_map_app.
Qed.

Lemma everyTenthFrom_snoc (pixels : list Pixel) (p : Pixel) :
  forall k,
    everyTenthFrom k (pixels ++ [p]) =
    everyTenthFrom k pixels ++
    (if Nat.eqb ((k + List.length pixels) mod 10) 0 then [p] else []).
Proof.
  induction pixels as [|q r IH]; intros k; cbn [app everyTenthFrom List.length].
  - rewrite Nat.add_0_r. now destruct (Nat.eqb (k mod 10) 0).
  - rewrite IH, <- Nat.add_succ_comm.
    now destruct (Nat.eqb (k mod 10) 0).
Qed.

Lemma everyTenthFrom_In (pixels : list Pixel) (p : Pixel) :
  forall k, In p (everyTenthFrom k pixels) -> In p pixels.
Proof.
  induction pixels as [|q r IH]; intros k; cbn [everyTenthFrom]; [tauto|].
  destruct (Nat.eqb (k mod 10) 0); cbn [In]; intros H.
  - destruct H as [H|H]; [now left | right; eauto].
  - right. eauto.
Qed.

(** Pixel number [n] starts at byte [4 * n]: it is visited when [n] is a
    multiple of ten, and the three bytes after its first are never the
    start of a visit. *)
Lemma sampled_pixel (n : nat) : sampled (4 * n) = Nat.eqb (n mod 10) 0.
Proof.
  unfold sampled. change 40%nat with (4 * 10)%nat.
  rewrite Nat.Div0.mul_mod_distr_l.
  destruct (n mod 10)%nat; reflexivity.
Qed.

Lemma sampled_inside (n d : nat) :
  (1 <= d <= 3)%nat -> sampled (4 * n + d) = false.
Proof.
  intros Hd. unfold sampled. apply Nat.eqb_neq. intros H.
  apply Nat.Div0.mod_divides in H as (c & Hc). lia.
Qed.

Lemma sampled_bound (i n : nat) :
  sampled i = true -> (i < 4 * n)%nat -> (i + 3 < 4 * n)%nat.
Proof.
  unfold sampled. intros H Hlt. apply Nat.eqb_eq in H.
  apply Nat.Div0.mod_divides in H as (c & Hc). lia.
Qed.

Lemma counted_app (data suffix : JS.Buffer) (i : nat) :
  (i + 3 < List.length data)%nat ->
  counted (data ++ suffix) i = counted data i /\
  colorAt (data ++ suffix) i = colorAt data i.
Proof.
  intros H. unfold counted, transparent, colorAt.
  rewrite !nth_error_app1 by lia. split; reflexivity.
Qed.

(** On four bytes per pixel the loop counts the sampled visible pixels,
    each under its own colour. *)
Lemma rgba_counted (pixels : list Pixel) :
  map (colorAt (rgba pixels)) (countedOffsets (rgba pixels)) = map Some (scan pixels).
Proof.
  induction pixels as [|p pixels IH] using rev_ind; [reflexivity|].
  unfold countedOffsets, scan, sampledPixels in *.
  rewrite everyTenthFrom_snoc, Nat.add_0_l, filter_app, !map_app, <- IH.
  rewrite rgba_snoc, length_app, rgba_length.
  cbn [List.length]. rewrite seq_app, filter_app, map_app. cbn [Nat.add].
  set (data := rgba pixels). set (n := List.length pixels).
  set (quad := [px_red p; px_green p; px_blue p; px_alpha p]).
  assert (Hlen : List.length data = (4 * n)%nat) by apply rgba_length.
  f_equal.
  - assert (Hlow : forall i, In i (seq 0 (4 * n)) -> sampled i = true ->
                   counted (data ++ quad) i = counted data i /\
                   colorAt (data ++ quad) i = colorAt data i).
    { intros i Hi Hs. apply in_seq in Hi. apply counted_app.
      rewrite Hlen. apply sampled_bound; [assumption | lia]. }
    rewrite (filter_ext_in (counted (data ++ quad)) (counted data)).
    + apply map_ext_in. intros i Hi. apply filter_In in Hi as [Hi Hc].
      apply Hlow; [assumption|].
      unfold counted in Hc. now apply andb_true_iff in Hc as [Hc _].
    + intros i Hi. destruct (sampled i) eqn:Hs; [now apply Hlow|].
      unfold counted. now rewrite Hs.
  - cbn [seq].
    replace [(4 * n)%nat; S (4 * n); S (S (4 * n)); S (S (S (4 * n)))]
      with ([4 * n] ++ [4 * n + 1; 4 * n + 2; 4 * n + 3])%nat
      by (cbn [app]; repeat f_equal; lia).
    rewrite filter_app, (filter_none _ [4 * n + 1; 4 * n + 2; 4 * n + 3]%nat),
      app_nil_r.
    2:{ intros x [<-|[<-|[<-|[]]]]; unfold counted;
          rewrite sampled_inside by lia; reflexivity. }
    cbn [filter].
    unfold counted. rewrite sampled_pixel.
    destruct (Nat.eqb (n mod 10) 0); [|reflexivity].
    cbn [andb]. unfold transparent, visible.
    rewrite nth_error_app2 by lia.
    replace (4 * n + 3 - List.length data)%nat with 3%nat by lia.
    cbn [nth_error quad filter].
    destruct (negb _); [|reflexivity].
    cbn [map]. f_equal. unfold colorAt.
    rewrite !nth_error_app2 by lia.
    replace (4 * n - List.length data)%nat with 0%nat by lia.
    replace (4 * n + 1 - List.length data)%nat with 1%nat by lia.
    replace (4 * n + 2 - List.length data)%nat with 2%nat by lia.
    cbn [nth_error quad]. unfold colourOf.
    now rewrite !hexByte_hexOf.
Qed.

(** On four bytes per pixel the function returns, and the palette is the
    head of a ranking of the colours of the sampled visible pixels. *)
Lemma extractColorPalette_rgba (pixels : list Pixel) (width height : Z) :
  exists palette ranking,
    extractColorPalette (rgba pixels) width height = Ok palette /\
    palette = firstn 10 ranking /\
    NoDup ranking /\
    (forall c, In c ranking <-> In c (scan pixels)) /\
    StronglySorted (outranks (scan pixels)) ranking.
Proof.
  assert (Hret : exists palette,
             extractColorPalette (rgba pixels) width height = Ok palette).
  { unfold extractColorPalette.
    destruct (paletteLoop_rgba (rgba pixels) (List.length (rgba pixels)))
      with (i := 0%nat) (colors := ColorMap.empty) as (m & ->);
      [|reflexivity|eauto].
    rewrite rgba_length, Nat.mul_comm. apply Nat.Div0.mod_mul. }
  destruct Hret as (palette & Hp).
  destruct (extractColorPalette_ranking _ _ _ _ Hp)
    as (cs & ranking & Hcs & -> & Hnd & Hin & Hord).
  rewrite rgba_counted in Hcs. apply map_Some_inj in Hcs. subst cs.
  exists (firstn 10 ranking), ranking. auto.
Qed.
End PixelFacts.

(** On a raw buffer of four bytes per pixel, as [sharp] gives it for an
    image with an alpha channel: the dominant colour is always ['#'] and
    six hexadecimal digits.  It is the fallback [#000000] when no sampled
    pixel is visible; otherwise it is the colour of a sampled visible
    pixel, the first entry of the palette, and outranks every other such
    colour: more frequent, or as frequent and met first. *)
Theorem getDominantColor_of_palette (pixels : list Raster.Pixel)
    (width height : Z) :
  exists palette,
    extractColorPalette (Raster.rgba pixels) width height = Ok palette /\
    Palette.isHexColor (getDominantColor palette) = true /\
    (Raster.scan pixels = [] ->
     palette = [] /\ getDominantColor palette = "#000000"%string) /\
    (Raster.scan pixels <> [] ->
     In (getDominantColor palette) (Raster.scan pixels) /\
     nth_error palette 0 = Some (getDominantColor palette) /\
     forall c, In c (Raster.scan pixels) ->
       c = getDominantColor palette \/
       Palette.outranks (Raster.scan pixels) (getDominantColor palette) c).
Proof.
  destruct (extractColorPalette_rgba pixels width height)
    as (palette & ranking & Hp & -> & Hnd & Hin & Hord).
  exists (firstn 10 ranking). split; [exact Hp|].
  destruct ranking as [|d r].
  - assert (Raster.scan pixels = []) as ->.
    { destruct (Raster.scan pixels) as [|c cs]; [reflexivity|].
      destruct (proj2 (Hin c) (or_introl eq_refl)). }
    split; [reflexivity|]. split; [intros _; split; reflexivity|].
    intros Hne. now destruct Hne.
  - assert (Hd : In d (Raster.scan pixels)) by (apply Hin; now left).
    assert (Hhex : Palette.isHexColor d = true).
    { eapply counted_colour_hex; [apply rgba_counted | exact Hd]. }
    cbn [firstn]. rewrite (getDominantColor_head _ _ Hhex).
    split; [exact Hhex|]. split.
    + intros E. rewrite E in Hd. destruct Hd.
    + intros _. split; [exact Hd|]. split; [reflexivity|].
      intros c Hc. apply Hin in Hc as [<-|Hc]; [now left|right].
      apply StronglySorted_inv in Hord as [_ Hall].
      rewrite Forall_forall in Hall. now apply Hall.
Qed.

Lemma getDominantColor_of_palette_witness :
  exists palette,
    extractColorPalette (Raster.rgba Fixture.flag) 150 150 = Ok palette /\
    getDominantColor palette = "#0000ff"%string.
Proof.
  destruct (getDominantColor_of_palette Fixture.flag 150 150)
    as (palette & Hp & _ & _ & Hsome).
  exists palette. split; [exact Hp|].
  destruct Hsome as (Hin & _ & Htop); [discriminate|].
  change (Raster.scan Fixture.flag)
    with ["#0000ff"; "#ff0000"; "#0000ff"]%string in Hin, Htop.
  destruct Hin as [<-|[Hred|[<-|[]]]]; [reflexivity| |reflexivity].
  destruct (Htop "#0000ff"%string (or_introl eq_refl)) as [Heq|Hout];
    [now rewrite <- Heq|].
  rewrite <- Hred in Hout.
  destruct Hout as [Hlt|[Heq _]]; vm_compute in *; [lia | discriminate Heq].
Defined.

Lemma NoDup_same_length {A : Type} (l l' : list A) :
  NoDup l -> NoDup l' -> (forall x, In x l <-> In x l') ->
  List.length l = List.length l'.
Proof.
  intros H H' Hin. apply Permutation_length.
  now apply NoDup_Permutation.
Qed.

(** On a raw buffer of four bytes per pixel the palette holds each colour
    once, and has as many entries as the sampled visible pixels have
    distinct colours, up to ten. *)
Theorem extractColorPalette_size (pixels : list Raster.Pixel)
    (width height : Z) :
  exists palette,
    extractColorPalette (Raster.rgba pixels) width height = Ok palette /\
    NoDup palette /\
    List.length palette
    = Nat.min 10 (List.length (nodup string_dec (Raster.scan pixels))).
Proof.
  destruct (extractColorPalette_rgba pixels width height)
    as (palette & ranking & Hp & -> & Hnd & Hin & Hord).
  exists (firstn 10 ranking). split; [exact Hp|]. split.
  - rewrite <- (firstn_skipn 10 ranking) in Hnd.
    now apply NoDup_app_remove_r in Hnd.
  - rewrite length_firstn. f_equal.
    apply NoDup_same_length; [assumption | apply NoDup_nodup|].
    intros c. rewrite Hin. symmetry. apply nodup_In.
Qed.

Lemma extractColorPalette_size_witness :
  exists palette,
    extractColorPalette (Raster.rgba Fixture.flag) 150 150 = Ok palette /\
    List.length palette = 2%nat.
Proof.
  destruct (extractColorPalette_size Fixture.flag 150 150)
    as (palette & Hp & _ & Hlen).
  exists palette. split; [exact Hp | exact Hlen].
Defined.

(** On a raw buffer of four bytes per pixel the function returns, and
    the palette is the head of the ranking of the colours of the sampled
    visible pixels.  It has at most ten entries, each ['#'] and six
    hexadecimal digits, each the colour of a sampled pixel whose alpha is
    not below 128, none twice.  The entries are in order of decreasing
    frequency among those pixels, a tie going to the colour met first; no
    colour left out ranks above one that is kept, and none is left out
    when there are fewer than ten. *)
Theorem extractColorPalette_rgba_ranked (pixels : list Raster.Pixel)
    (width height : Z) :
  exists palette,
    extractColorPalette (Raster.rgba pixels) width height = Ok palette /\
    (List.length palette <= 10)%nat /\
    Forall (fun c => Palette.isHexColor c = true) palette /\
    NoDup palette /\
    (forall c, In c palette -> In c (Raster.scan pixels)) /\
    StronglySorted (Palette.outranks (Raster.scan pixels)) palette /\
    (forall c c', In c palette -> In c' (Raster.scan pixels) ->
                  ~ In c' palette ->
                  Palette.outranks (Raster.scan pixels) c c') /\
    ((List.length palette < 10)%nat ->
     forall c, In c (Raster.scan pixels) -> In c palette).
Proof.
  destruct (extractColorPalette_rgba pixels width height)
    as (palette & ranking & Hp & -> & Hnd & Hin & Hord).
  exists (firstn 10 ranking). split; [exact Hp|].
  assert (Hsub : forall c, In c (firstn 10 ranking) -> In c ranking).
  { intros c Hc. rewrite <- (firstn_skipn 10 ranking).
    apply in_or_app. now left. }
  split; [apply firstn_le_length|].
  split; [|split; [|split; [|split; [|split]]]].
  - rewrite Forall_forall. intros c Hc.
    apply (counted_colour_hex (Raster.rgba pixels) (Raster.scan pixels));
      [apply rgba_counted|].
    now apply Hin, Hsub.
  - rewrite <- (firstn_skipn 10 ranking) in Hnd.
    now apply NoDup_app_remove_r in Hnd.
  - intros c Hc. now apply Hin, Hsub.
  - now apply StronglySorted_firstn.
  - intros c c' Hc Hc' Hout.
    apply (StronglySorted_prefix _ 10 ranking); [assumption..|].
    apply Hin in Hc'. rewrite <- (firstn_skipn 10 ranking) in Hc'.
    apply in_app_or in Hc' as [Hc'|Hc']; [contradiction | assumption].
  - intros Hlen c Hc. apply Hin in Hc.
    rewrite firstn_all2; [assumption|].
    rewrite length_firstn in Hlen. lia.
Qed.

(** The image is mostly red; of the three sampled pixels two are blue. *)
Example palette_of_flag :
  extractColorPalette (Raster.rgba Fixture.flag) 150 150
  = Ok ["#0000ff"; "#ff0000"]%string.
Proof. reflexivity. Qed.

(** ** An image without alpha channel *)

Section OpaqueFacts.
Import Palette Raster.

Lemma rgb_length (pixels : list Pixel) :
  List.length (rgb pixels) = (3 * List.length pixels)%nat.
Proof.
  induction pixels as [|p r IH]; [reflexivity|].
  cbn [rgb flat_map app List.length] in *. fold (rgb r). lia.
Qed.

(** In the three-channel output of a one-colour image, byte [3 * q + r] is
    component [r] of the colour. *)
Lemma rgb_repeat_nth (p : Pixel) (n : nat) :
  forall q r,
    (q < n)%nat -> (r < 3)%nat ->
    nth_error (rgb (repeat p n)) (3 * q + r)
    = nth_error [px_red p; px_green p; px_blue p] r.
Proof.
  induction n as [|n IH]; intros q r Hq Hr; [lia|].
  cbn [repeat rgb flat_map app]. fold (rgb (repeat p n)).
  destruct q as [|q].
  - destruct r as [|[|[|r]]]; [reflexivity..|lia].
  - replace (3 * S q + r)%nat with (S (S (S (3 * q + r)))) by lia.
    cbn [nth_error]. apply IH; lia.
Qed.

(** The loop returns when every visit finds its three colour bytes. *)
Lemma paletteLoop_total (data : JS.Buffer) :
  (forall i, (i mod 40 = 0)%nat -> (i < List.length data)%nat ->
             (i + 2 < List.length data)%nat) ->
  forall (fuel i : nat) (colors : ColorMap.t),
    (i mod 40 = 0)%nat ->
    exists m, paletteLoop fuel data i colors = Ok m.
Proof.
  intros Hb. induction fuel as [|fuel IH]; intros i colors Hi; simpl; [eauto|].
  destruct (Nat.ltb_spec i (List.length data)) as [Hlt|Hge]; [|eauto].
  destruct (paletteStep_defined data i colors (Hb i Hi Hlt)) as (m & ->).
  apply IH. rewrite Nat.Div0.add_mod, Hi. reflexivity.
Qed.

(** Read four bytes at a time, an all-blue image without alpha channel
    shows one colour only, and it is red: a visit is counted when its
    fourth byte is a blue one, and then its first byte is the blue of the
    pixel before. *)
Lemma blue_counted (n i : nat) :
  (i + 3 < 3 * n)%nat ->
  counted (rgb (repeat Fixture.bluePixel n)) i = true ->
  colorAt (rgb (repeat Fixture.bluePixel n)) i = Some "#ff0000"%string.
Proof.
  intros Hb Hc. unfold counted in Hc. apply andb_true_iff in Hc as [_ Ht].
  apply negb_true_iff in Ht. unfold transparent in Ht. unfold colorAt.
  pose proof (Nat.div_mod_eq i 3) as E.
  pose proof (Nat.mod_upper_bound i 3 ltac:(lia)) as Hr.
  set (q := (i / 3)%nat) in *. set (r := (i mod 3)%nat) in *.
  clearbody q r. subst i.
  destruct r as [|[|[|r]]]; [| | |lia].
  - replace (3 * q + 0 + 3)%nat with (3 * (q + 1) + 0)%nat in Ht by lia.
    rewrite rgb_repeat_nth in Ht by lia. discriminate Ht.
  - replace (3 * q + 1 + 3)%nat with (3 * (q + 1) + 1)%nat in Ht by lia.
    rewrite rgb_repeat_nth in Ht by lia. discriminate Ht.
  - replace (3 * q + 2 + 1)%nat with (3 * (q + 1) + 0)%nat by lia.
    replace (3 * q + 2 + 2)%nat with (3 * (q + 1) + 1)%nat by lia.
    rewrite !rgb_repeat_nth by lia. reflexivity.
Qed.

Lemma blue_80_counted (n : nat) :
  (28 <= n)%nat ->
  In 80%nat (countedOffsets (rgb (repeat Fixture.bluePixel n))) /\
  colorAt (rgb (repeat Fixture.bluePixel n)) 80 = Some "#ff0000"%string.
Proof.
  intros Hn.
  assert (Hc : counted (rgb (repeat Fixture.bluePixel n)) 80 = true).
  { unfold counted, transparent.
    change (80 + 3)%nat with (3 * 27 + 2)%nat.
    rewrite rgb_repeat_nth by lia. reflexivity. }
  split.
  - unfold countedOffsets. apply filter_In. split; [|exact Hc].
    apply in_seq. rewrite rgb_length, repeat_length. lia.
  - apply blue_counted; [lia | exact Hc].
Qed.

Lemma opaque_blue_palette (n : nat) (width height : Z) :
  (28 <= n)%nat -> (3 < (3 * n) mod 40)%nat ->
  extractColorPalette (rgb (repeat Fixture.bluePixel n)) width height
  = Ok ["#ff0000"%string].
Proof.
  intros Hn Hrem. set (data := rgb (repeat Fixture.bluePixel n)).
  assert (Hlen : List.length data = (3 * n)%nat).
  { unfold data. now rewrite rgb_length, repeat_length. }
  assert (Hvisit : forall i, (i mod 40 = 0)%nat -> (i < List.length data)%nat ->
                             (i + 3 < 3 * n)%nat).
  { intros i Hi Hlt. rewrite Hlen in Hlt.
    apply Nat.Div0.mod_divides in Hi as (c & ->).
    pose proof (Nat.div_mod_eq (3 * n) 40) as E.
    pose proof (Nat.mod_upper_bound (3 * n) 40 ltac:(lia)) as Hup. lia. }
  assert (Hret : exists palette,
             extractColorPalette data width height = Ok palette).
  { unfold extractColorPalette.
    destruct (paletteLoop_total data) with (fuel := List.length data)
      (i := 0%nat) (colors := ColorMap.empty) as (m & ->);
      [|reflexivity|eauto].
    intros i Hi Hlt. specialize (Hvisit i Hi Hlt). lia. }
  destruct Hret as (palette & Hp). rewrite Hp. f_equal.
  destruct (extractColorPalette_ranking _ _ _ _ Hp)
    as (cs & ranking & Hcs & -> & Hnd & Hin & _).
  subst data.
  assert (Hone : ranking = ["#ff0000"%string]).
  { apply NoDup_single; [exact Hnd|]. intros c. rewrite Hin. split.
    - intros Hc. apply (in_map Some) in Hc. rewrite <- Hcs in Hc.
      apply in_map_iff in Hc as (i & Hi & Hoff).
      apply filter_In in Hoff as [Hseq Hcount].
      apply in_seq in Hseq.
      rewrite blue_counted in Hi; [congruence | | exact Hcount].
      apply Hvisit; [|lia].
      unfold counted, sampled in Hcount.
      apply andb_true_iff in Hcount as [Hs _]. now apply Nat.eqb_eq in Hs.
    - intros ->. destruct (blue_80_counted n Hn) as [Hoff Hcol].
      apply (in_map (colorAt (rgb (repeat Fixture.bluePixel n)))) in Hoff.
      rewrite Hcol, Hcs in Hoff.
      apply in_map_iff in Hoff as (c & [= ->] & Hc). exact Hc. }
  now rewrite Hone.
Qed.

(** With four bytes per pixel the same image shows blue. *)
Lemma opaque_blue_palette_rgba (n : nat) (width height : Z) :
  (1 <= n)%nat ->
  extractColorPalette (rgba (repeat Fixture.bluePixel n)) width height
  = Ok ["#0000ff"%string].
Proof.
  intros Hn.
  destruct (extractColorPalette_rgba (repeat Fixture.bluePixel n) width height)
    as (palette & ranking & -> & -> & Hnd & Hin & _).
  f_equal.
  assert (Hone : ranking = ["#0000ff"%string]).
  { apply NoDup_single; [exact Hnd|]. intros c. rewrite Hin.
    unfold scan, sampledPixels. split.
    - intros Hc. apply in_map_iff in Hc as (p & <- & Hp).
      apply filter_In in Hp as [Hp _].
      apply everyTenthFrom_In, repeat_spec in Hp. now subst p.
    - intros ->. destruct n as [|n]; [lia|]. now left. }
  now rewrite Hone.
Qed.
End OpaqueFacts.

(** C6, on an image without alpha channel.  Every pixel of the image is
    opaque and blue, and [sharp] hands its raw output over with three bytes
    per pixel.  The loop reads four bytes per visit: it takes the first
    byte of the next pixel for the alpha, drops the blue pixels it lands on
    and counts a colour that starts in the middle of one.  The palette is
    red, the colour of no pixel, and [extractMetadata], which passes the
    buffer on whatever the number of channels, reports red as the dominant
    colour.  With four bytes per pixel the same image gives blue. *)
Theorem C6_opaque_image_palette (n : nat) (width height : Z) :
  (28 <= n)%nat -> (3 < (3 * n) mod 40)%nat ->
  Forall (fun p => Raster.visible p = true /\
                   Raster.colourOf p = "#0000ff"%string)
    (repeat Fixture.bluePixel n) /\
  extractColorPalette (Raster.rgb (repeat Fixture.bluePixel n)) width height
  = Ok ["#ff0000"%string] /\
  (forall (W : Type) (lib : Sharp) (b : JS.Buffer) (f : File) (s : St W)
          (md : SharpMetadata) (info : OutputInfo),
     sharp_metadata lib b = Some md ->
     sharp_toBuffer lib (rawPipeline b)
     = Some (Raster.rgb (repeat Fixture.bluePixel n), info) ->
     exists m s',
       extractMetadata lib b f s = (Ok m, s') /\
       color_palette m = Some ["#ff0000"%string] /\
       dominant_color m = Some "#ff0000"%string) /\
  extractColorPalette (Raster.rgba (repeat Fixture.bluePixel n)) width height
  = Ok ["#0000ff"%string].
Proof.
  intros Hn Hrem. split; [|split; [|split]].
  - apply Forall_forall. intros p Hp. apply repeat_spec in Hp. subst p.
    split; reflexivity.
  - now apply opaque_blue_palette.
  - intros W lib b f s md info Hmd Hraw. unfold rawPipeline in Hraw.
    unfold extractMetadata, try_catch, extractMetadataBody, bind.
    rewrite call_metadata_run, Hmd, call_toBufferObj_run, Hraw.
    unfold lift. rewrite (opaque_blue_palette n _ _ Hn Hrem).
    eexists _, _. split; [reflexivity|]. split; reflexivity.
  - apply opaque_blue_palette_rgba. lia.
Qed.

Lemma C6_opaque_image_palette_witness :
  extractColorPalette (Raster.rgb Fixture.blueImage) 150 150
  = Ok ["#ff0000"%string] /\
  (exists m s',
     extractMetadata Fixture.codecOpaque Fixture.raster4x2 Fixture.photo
       (Fixture.start [])
     = (Ok m, s') /\
     dominant_color m = Some "#ff0000"%string) /\
  extractColorPalette (Raster.rgba Fixture.blueImage) 150 150
  = Ok ["#0000ff"%string].
Proof.
  destruct (C6_opaque_image_palette (150 * 150) 150 150)
    as (_ & Hrgb & Hmeta & Hrgba).
  - lia.
  - replace ((3 * (150 * 150)) mod 40)%nat with 20%nat
      by (vm_compute; reflexivity).
    lia.
  - split; [exact Hrgb|]. split; [|exact Hrgba].
    destruct (Hmeta Fixture.World Fixture.codecOpaque Fixture.raster4x2
                Fixture.photo (Fixture.start []) _ _ eq_refl eq_refl)
      as (m & s' & Hrun & _ & Hdom).
    exists m, s'. split; [exact Hrun | exact Hdom].
Defined.

(** ** What the sampling loop reads *)

Section SampledBytes.
Variables data data' : JS.Buffer.
Hypothesis Hsame : sameSamples data data'.

Lemma sameSamples_index (i k : nat) :
  (i mod 40 = 0)%nat -> (k < 4)%nat ->
  JS.index data (i + k) = JS.index data' (i + k).
Proof.
  intros Hi Hk. unfold JS.index. f_equal. apply Hsame.
  rewrite Nat.Div0.add_mod, Hi, Nat.add_0_l, Nat.Div0.mod_mod.
  rewrite Nat.mod_small; lia.
Qed.

Lemma sameSamples_step (i : nat) (colors : ColorMap.t) :
  (i mod 40 = 0)%nat -> paletteStep data i colors = paletteStep data' i colors.
Proof.
  intros Hi. unfold paletteStep.
  pose proof (sameSamples_index i 0 Hi ltac:(lia)) as H0.
  rewrite Nat.add_0_r in H0.
  rewrite H0, (sameSamples_index i 1), (sameSamples_index i 2),
    (sameSamples_index i 3) by (assumption || lia).
  reflexivity.
Qed.

Lemma sameSamples_loop (fuel : nat) :
  forall (i : nat) (colors : ColorMap.t),
    (i mod 40 = 0)%nat ->
    paletteLoop fuel data i colors = paletteLoop fuel data' i colors.
Proof.
  induction fuel as [|fuel IH]; intros i colors Hi; [reflexivity|].
  cbn [paletteLoop]. rewrite (proj1 Hsame), (sameSamples_step _ _ Hi).
  destruct (Nat.ltb i _); [|reflexivity].
  destruct (paletteStep data' i colors); [|reflexivity].
  apply IH. rewrite Nat.Div0.add_mod, Hi. reflexivity.
Qed.
End SampledBytes.

(** Only every tenth pixel is read: two buffers of the same length that
    agree on the pixels at offsets 0, 40, 80, ... give the same palette (or
    throw alike), whatever the bytes in between and whatever width and
    height are passed. *)
Theorem extractColorPalette_reads_samples_only (data data' : JS.Buffer)
    (width height width' height' : Z) :
  sameSamples data data' ->
  extractColorPalette data width height = extractColorPalette data' width' height'.
Proof.
  intros H. unfold extractColorPalette.
  rewrite (sameSamples_loop data data' H) by reflexivity.
  now rewrite (proj1 H).
Qed.

Lemma extractColorPalette_reads_samples_only_witness :
  extractColorPalette (Fixture.blue ++ repeat x00 36 ++ Fixture.red) 150 150
  = extractColorPalette (Fixture.blue ++ repeat xff 36 ++ Fixture.red) 1 1.
Proof.
  apply extractColorPalette_reads_samples_only. split; [reflexivity|].
  intros i Hi.
  destruct (Nat.lt_ge_cases i 44) as [Hlt|Hge].
  - do 44 (destruct i as [|i]; [first [reflexivity | cbn in Hi; lia]|]). lia.
  - rewrite !(proj2 (nth_error_None _ _)); [reflexivity | cbn; lia | cbn; lia].
Defined.

(** ** Metadata extraction *)

Section ExtractCases.
Context {W : Type} (lib : Sharp).
Variables (b : JS.Buffer) (f : File) (s : St W).

Lemma animated_flag (pages : option Z) :
  (if JS.truthy pages
   then match pages with Some n => n >? 1 | None => false end
   else false)
  = match pages with Some n => 1 <? n | None => false end.
Proof.
  destruct pages as [n|]; [|reflexivity]. cbn [JS.truthy].
  rewrite Z.gtb_ltb.
  destruct (Z.eqb_spec n 0) as [->|]; reflexivity.
Qed.

(** The two ways [extractMetadata] ends. *)
Lemma extractMetadata_cases :
  (exists md data info palette,
     sharp_metadata lib b = Some md /\
     sharp_toBuffer lib (rawPipeline b) = Some (data, info) /\
     extractColorPalette data (info_width info) (info_height info) = Ok palette /\
     extractMetadata lib b f s =
     (Ok {| exif := md_exif md;
            color_palette := Some palette;
            dominant_color := Some (getDominantColor palette);
            is_animated := Some match md_pages md with
                                | Some n => 1 <? n
                                | None => false
                                end;
            duration := md_duration md;
            quality_score := Some (calculateQualityScore md) |},
      {| st_world := st_world s;
         st_trace := st_trace s ++ [EvMetadata b; EvToBuffer (rawPipeline b)] |}))
  \/
  (exists evs e s1,
     (evs = [EvMetadata b] \/ evs = [EvMetadata b; EvToBuffer (rawPipeline b)]) /\
     extractMetadataBody lib b f s = (Err e, s1) /\
     extractMetadata lib b f s =
     (Ok emptyMetadata,
      {| st_world := st_world s;
         st_trace := st_trace s ++ evs ++ [EvConsoleError] |})).
Proof.
  unfold extractMetadata, try_catch, extractMetadataBody, bind.
  rewrite call_metadata_run.
  destruct (sharp_metadata lib b) as [md|].
  - rewrite call_toBufferObj_run. fold (rawPipeline b).
    destruct (sharp_toBuffer lib (rawPipeline b)) as [[data info]|].
    + unfold lift, ret.
      destruct (extractColorPalette data _ _) as [palette|e] eqn:Ep.
      * left. exists md, data, info, palette.
        repeat split; try assumption.
        rewrite animated_flag. unfold logged. cbn [st_world st_trace].
        now rewrite <- app_assoc.
      * right. exists [EvMetadata b; EvToBuffer (rawPipeline b)], e.
        eexists. split; [now right|]. split; [reflexivity|].
        unfold emit, logged. cbn [st_world st_trace].
        now rewrite <- !app_assoc.
    + right. exists [EvMetadata b; EvToBuffer (rawPipeline b)], DecodeError.
      eexists. split; [now right|]. split; [reflexivity|].
      unfold emit, logged. cbn [st_world st_trace].
      now rewrite <- !app_assoc.
  - right. exists [EvMetadata b], DecodeError.
    eexists. split; [now left|]. split; [reflexivity|].
    unfold emit, logged. cbn [st_world st_trace].
    now rewrite <- !app_assoc.
Qed.
End ExtractCases.

(** The bag [extractMetadata] returns is all or nothing: either [{}], or
    a bag with a palette of at most ten colours, the dominant colour of
    that palette (a well-formed colour), the animation flag (more than
    one page), and a quality score between 55 and 100, all taken from the
    buffer it was given. *)
Theorem extractMetadata_all_or_nothing {W : Type} (lib : Sharp)
    (b : JS.Buffer) (f : File) (s : St W) :
  exists m s',
    extractMetadata lib b f s = (Ok m, s') /\
    (m = emptyMetadata \/
     exists md palette,
       sharp_metadata lib b = Some md /\
       exif m = md_exif md /\
       duration m = md_duration md /\
       color_palette m = Some palette /\
       (List.length palette <= 10)%nat /\
       dominant_color m = Some (getDominantColor palette) /\
       Palette.isHexColor (getDominantColor palette) = true /\
       is_animated m = Some match md_pages md with
                            | Some n => 1 <? n
                            | None => false
                            end /\
       quality_score m = Some (calculateQualityScore md) /\
       55 <= calculateQualityScore md <= 100).
Proof.
  destruct (extractMetadata_cases lib b f s)
    as [(md & data & info & palette & Hmd & Hraw & Hp & E)
       |(evs & e & s1 & _ & _ & E)];
    rewrite E; eexists _, _; (split; [reflexivity|]); [right | now left].
  exists md, palette. cbn.
  destruct (palette_entries_hex _ _ _ _ Hp) as (Hhex & Hlen).
  apply getDominantColor_hex in Hhex.
  repeat split; try assumption; apply calculateQualityScore_bounds.
Qed.

(** A failure inside [extractMetadata] is logged once with
    [console.error], and the bag is [{}] exactly when that happened, which
    is exactly when the body threw.  The function first decodes the buffer
    it was given; it uploads nothing and leaves the world as it was. *)
Theorem extractMetadata_logs_failure {W : Type} (lib : Sharp)
    (b : JS.Buffer) (f : File) (s : St W) :
  exists m s' evs,
    extractMetadata lib b f s = (Ok m, s') /\
    st_world s' = st_world s /\
    st_trace s' = st_trace s ++ EvMetadata b :: evs /\
    existsb is_put evs = false /\
    (In EvConsoleError evs <-> m = emptyMetadata) /\
    (m = emptyMetadata <-> exists e s1, extractMetadataBody lib b f s = (Err e, s1)).
Proof.
  destruct (extractMetadata_total lib b f s) as (m0 & s0 & E0 & _ & _ & Hfail & _).
  destruct (extractMetadata_cases lib b f s)
    as [(md & data & info & palette & Hmd & Hraw & Hp & E)
       |(evs & e & s1 & Hevs & Hbody & E)]; rewrite E.
  - eexists _, _, [EvToBuffer (rawPipeline b)].
    split; [reflexivity|]. cbn [st_world st_trace].
    repeat split; try discriminate.
    + intros [H|[]]. discriminate.
    + intros (e & s1 & Hb). rewrite E in E0. injection E0 as <- _.
      eapply Hfail. eassumption.
  - destruct Hevs as [-> | ->].
    + eexists _, _, [EvConsoleError]. split; [reflexivity|].
      cbn [st_world st_trace app]. repeat split; eauto. now left.
    + eexists _, _, [EvToBuffer (rawPipeline b); EvConsoleError].
      split; [reflexivity|].
      cbn [st_world st_trace app]. repeat split; eauto. right. now left.
Qed.

(** ** The request for the primary artifact *)

(** The primary artifact is always made from the uploaded bytes.  A resize
    is asked for exactly when one of the two bounds is present and not 0,
    and then never enlarges.  The quality option acts only through its
    tier, and not at all when [convert_to_webp] is [false]: the output then
    keeps the format of the input. *)
Theorem primaryPipeline_request (buffer : JS.Buffer) (options : UploadOptions) :
  sp_input (primaryPipeline buffer options) = buffer /\
  (sp_resize (primaryPipeline buffer options) = None <->
   JS.truthy (max_width options) = false /\ JS.truthy (max_height options) = false) /\
  (forall o, sp_resize (primaryPipeline buffer options) = Some o ->
     rz_fit o = FitInside /\ rz_withoutEnlargement o = true /\
     (forall w, rz_width o = Some w -> max_width options = Some w /\ w <> 0) /\
     (forall h, rz_height o = Some h -> max_height options = Some h /\ h <> 0)) /\
  (convert_to_webp options = Some false ->
   sp_output (primaryPipeline buffer options) = OutInput /\
   forall q, primaryPipeline buffer (withQuality q options)
             = primaryPipeline buffer options) /\
  (forall q1 q2, getQualityLevel q1 = getQualityLevel q2 ->
     primaryPipeline buffer (withQuality q1 options)
     = primaryPipeline buffer (withQuality q2 options)).
Proof.
  assert (Hz : forall x, JS.truthy x = true -> forall v, x = Some v -> v <> 0).
  { intros x Hx v -> ->. discriminate. }
  unfold primaryPipeline, withQuality; cbn [quality max_width max_height convert_to_webp].
  split; [|split; [|split; [|split]]].
  - destruct (convert_to_webp options) as [[]|], (JS.truthy (quality options)),
      (JS.truthy (max_width options) || JS.truthy (max_height options))%bool;
      reflexivity.
  - destruct (JS.truthy (max_width options)), (JS.truthy (max_height options)),
      (convert_to_webp options) as [[]|], (JS.truthy (quality options));
      cbn; (split; [intros H | intros [H1 H2]]); try discriminate; auto.
  - intros o.
    destruct (JS.truthy (max_width options)) eqn:Hw,
      (JS.truthy (max_height options)) eqn:Hh,
      (convert_to_webp options) as [[]|], (JS.truthy (quality options));
      cbn; intros [= <-]; cbn;
      (split; [reflexivity | split; [reflexivity | split]]);
      intros v Hv;
      first [ discriminate Hv
            | split; [exact Hv | eapply Hz; [|exact Hv]; assumption] ].
  - intros Hc. rewrite Hc.
    split.
    + destruct (JS.truthy (quality options)),
        (JS.truthy (max_width options) || JS.truthy (max_height options))%bool;
        reflexivity.
    + intros q. destruct (JS.truthy q), (JS.truthy (quality options)); reflexivity.
  - intros q1 q2 Hq. rewrite Hq.
    destruct (convert_to_webp options) as [[]|], (JS.truthy q1), (JS.truthy q2),
      (JS.truthy (max_width options) || JS.truthy (max_height options))%bool;
      reflexivity.
Qed.

Lemma primaryPipeline_request_witness :
  primaryPipeline Fixture.raster4x2 (withQuality (Some 40) Fixture.halfWidth)
  = primaryPipeline Fixture.raster4x2 (withQuality (Some 70) Fixture.halfWidth).
Proof.
  apply (proj2 (proj2 (proj2 (proj2
           (primaryPipeline_request Fixture.raster4x2 Fixture.halfWidth))))).
  reflexivity.
Defined.

(** ** The states a run ends in *)

Section PipelineStates.
Context {W : Type} (lib : Sharp) (sys : Platform W).
Variables (file : File) (options : UploadOptions) (s : St W).
Variables (p : Processed) (s2 : St W) (t : JS.Buffer).
Hypothesis Hvalid : validateFile file = Ok tt.
Hypothesis Hfile : processImageFile lib file options (afterUuid sys s) = (Ok p, s2).
Hypothesis Hthumb : pr_thumbnail p = Some t.

Ltac enter_run :=
  unfold processImage;
  erewrite bind_ok by (unfold lift; rewrite Hvalid; reflexivity);
  erewrite bind_ok by apply call_uuidv4_run;
  erewrite bind_ok by exact Hfile;
  unfold uploadToBlob.

Lemma processImage_primary_refused :
  fst (primaryPut sys file s p s2) = None ->
  processImage lib sys file options s =
  (Err PublishError,
   {| st_world := snd (primaryPut sys file s p s2);
      st_trace := st_trace s2 ++
                  [EvPut (primaryName sys file s) (pr_buffer p) (file_type file)] |}).
Proof.
  unfold primaryPut, primaryName, fileIdAt. intros H1. enter_run.
  erewrite bind_err; [reflexivity|].
  rewrite call_put_run, H1. reflexivity.
Qed.

Lemma processImage_thumbnail_refused (url : string) :
  fst (primaryPut sys file s p s2) = Some url ->
  fst (thumbnailPut sys file s p s2 t) = None ->
  processImage lib sys file options s =
  (Err PublishError, afterPublish sys file s p s2 t).
Proof.
  unfold afterPublish, thumbnailPut, thumbnailName, primaryPut, primaryName, fileIdAt.
  intros H1 H2. enter_run.
  erewrite bind_ok by (rewrite call_put_run, H1; reflexivity).
  rewrite Hthumb.
  erewrite bind_err; [reflexivity|].
  erewrite bind_err; [reflexivity|].
  rewrite call_put_run. cbn [st_world st_trace]. rewrite H2.
  now rewrite <- app_assoc.
Qed.

(** The record and the final state of a run whose uploads both succeed. *)
Lemma processImage_assembled (url turl : string) :
  fst (primaryPut sys file s p s2) = Some url ->
  fst (thumbnailPut sys file s p s2 t) = Some turl ->
  expiryValid sys options (st_world (afterPublish sys file s p s2 t)) = true ->
  let w := st_world (afterPublish sys file s p s2 t) in
  let k := if JS.truthy (auto_delete_minutes options) then 1%nat else 0%nat in
  exists image th s' m s5,
    processImage lib sys file options s = (Ok (image, Some th), s') /\
    extractMetadata lib (pr_buffer p) file (afterPublish sys file s p s2 t)
      = (Ok m, s5) /\
    st_world s' = afterReads sys (k + 4) w /\
    st_trace s' = st_trace s5 ++ repeat EvNow (k + 4) /\
    img_metadata image = m /\
    img_user_id image = ""%string /\
    img_view_count image = 0 /\
    img_download_count image = 0 /\
    img_is_public image = match is_public options with Some v => v | None => true end /\
    img_password image = password options /\
    img_album_id image = album_id options /\
    img_tags image = match tags options with Some l => l | None => [] end /\
    img_auto_delete_at image =
      (if JS.truthy (auto_delete_minutes options)
       then Some (clockRead sys 0 w + JS.orElse (auto_delete_minutes options) 0 * 60 * 1000)
       else None) /\
    img_created_at image = clockRead sys k w /\
    img_updated_at image = clockRead sys (k + 1) w /\
    img_id th = (fileIdAt sys s ++ "_thumb")%string /\
    img_user_id th = ""%string /\
    img_original_name th = (file_name file ++ "_thumbnail")%string /\
    img_is_public th = match is_public options with Some v => v | None => true end /\
    img_password th = None /\
    img_album_id th = None /\
    img_auto_delete_at th = None /\
    img_thumbnail_url th = None /\
    img_created_at th = clockRead sys (k + 2) w /\
    img_updated_at th = clockRead sys (k + 3) w /\
    img_view_count th = 0 /\
    img_download_count th = 0 /\
    img_tags th = [] /\
    img_metadata th = emptyMetadata.
Proof.
  destruct (extractMetadata_total lib (pr_buffer p) file
              (afterPublish sys file s p s2 t))
    as (m & s5 & Hm & Hw5 & _).
  intros H1 H2 Hx. cbv zeta.
  remember (afterPublish sys file s p s2 t) as published eqn:Hpub in *.
  symmetry in Hpub.
  unfold afterPublish, thumbnailPut, thumbnailName, primaryPut, primaryName,
    fileIdAt in *.
  enter_run.
  erewrite bind_ok by (rewrite call_put_run, H1; reflexivity).
  rewrite Hthumb.
  erewrite bind_ok
    by (erewrite bind_ok
          by (rewrite call_put_run; cbn [st_world]; rewrite H2; reflexivity);
        reflexivity).
  cbn [st_trace]. rewrite <- app_assoc. cbn [app].
  rewrite Hpub.
  erewrite bind_ok by exact Hm.
  clear Hpub.
  unfold expiryValid, expiryAt in Hx. unfold clockRead.
  rewrite <- Hw5 in Hx |- *.
  destruct (JS.truthy (auto_delete_minutes options)).
  - erewrite bind_ok
      by (erewrite bind_ok by apply call_now_run; cbv beta;
          erewrite bind_ok
            by (unfold lift, toISOString; rewrite Hx; reflexivity);
          reflexivity).
    erewrite bind_ok by apply call_now_run.
    erewrite bind_ok by apply call_now_run.
    erewrite bind_ok
      by (erewrite bind_ok by apply call_now_run;
          erewrite bind_ok by apply call_now_run; reflexivity).
    do 5 eexists. split; [reflexivity|].
    split; [exact Hm|]. cbn.
    split; [reflexivity|]. rewrite <- !app_assoc.
    repeat split; reflexivity.
  - erewrite bind_ok by reflexivity.
    erewrite bind_ok by apply call_now_run.
    erewrite bind_ok by apply call_now_run.
    erewrite bind_ok
      by (erewrite bind_ok by apply call_now_run;
          erewrite bind_ok by apply call_now_run; reflexivity).
    do 5 eexists. split; [reflexivity|].
    split; [exact Hm|]. cbn.
    split; [reflexivity|]. rewrite <- !app_assoc.
    repeat split; reflexivity.
Qed.
End PipelineStates.

Section FailureFacts.
Context {W : Type} (lib : Sharp) (sys : Platform W).

(** [processImageFile] fails only by a rejected codec call, after it has
    tried to decode the upload, and never talks to the store. *)
Lemma processImageFile_fail_inv (file : File) (options : UploadOptions)
    (s s' : St W) (e : PipelineError) :
  processImageFile lib file options s = (Err e, s') ->
  e = DecodeError /\
  st_world s' = st_world s /\
  exists evs,
    st_trace s' = st_trace s ++ EvArrayBuffer :: EvMetadata (file_bytes file) :: evs /\
    existsb is_put evs = false.
Proof.
  unfold processImageFile, createThumbnail, call_arrayBuffer, bind, emit, ret.
  rewrite call_metadata_run.
  destruct (sharp_metadata lib (file_bytes file)) as [md|].
  - rewrite call_toBuffer_run.
    destruct (sharp_toBuffer lib (primaryPipeline _ _)) as [[out info]|].
    + rewrite call_toBuffer_run.
      destruct (sharp_toBuffer lib (thumbnailPipeline _)) as [[tb tinfo]|].
      * rewrite call_metadata_run. cbn [fst].
        destruct (sharp_metadata lib tb); [discriminate|].
        intros [= <- <-]. repeat split.
        eexists. unfold logged. cbn [st_trace].
        rewrite <- !app_assoc. split; reflexivity.
      * intros [= <- <-]. repeat split.
        eexists. unfold logged. cbn [st_trace].
        rewrite <- !app_assoc. split; reflexivity.
    + intros [= <- <-]. repeat split.
      eexists. unfold logged. cbn [st_trace].
      rewrite <- !app_assoc. split; reflexivity.
  - intros [= <- <-]. repeat split.
    exists []. unfold logged. cbn [st_trace].
    rewrite <- !app_assoc. split; reflexivity.
Qed.

Lemma validateFile_error_kinds (file : File) (e : PipelineError) :
  validateFile file = Err e ->
  e = PayloadTooLarge \/ e = UnsupportedFormat \/ e = TypeMismatch.
Proof.
  rewrite validateFile_cases.
  repeat match goal with
    | |- context [if ?c then _ else _] => destruct c
    end; intros [= <-]; auto.
Qed.
End FailureFacts.

(** ** How a run can fail *)

(** A run fails in one of four ways.  The validator turns the file down
    ([PayloadTooLarge], [UnsupportedFormat] or [TypeMismatch]) and nothing
    has been called.  Or a codec call is rejected ([DecodeError]): the
    bytes have been handed to the codec and nothing has been uploaded.  Or
    the store refuses an upload ([PublishError]): one or two uploads have
    been attempted.  Or the options ask for an expiry whose date is not
    valid ([RangeError]): both uploads have been made by then.  A
    [TypeError] never leaves the pipeline. *)
Theorem processImage_error_kinds {W : Type} (lib : Sharp) (sys : Platform W)
    (file : File) (options : UploadOptions) (w : W)
    (e : PipelineError) (s' : St W) :
  processImage lib sys file options {| st_world := w; st_trace := [] |}
    = (Err e, s') ->
  (validateFile file = Err e /\
   (e = PayloadTooLarge \/ e = UnsupportedFormat \/ e = TypeMismatch) /\
   s' = {| st_world := w; st_trace := [] |}) \/
  (validateFile file = Ok tt /\ e = DecodeError /\
   existsb is_decode (st_trace s') = true /\
   existsb is_put (st_trace s') = false) \/
  (validateFile file = Ok tt /\ e = PublishError /\
   (List.length (filter is_put (st_trace s')) = 1%nat \/
    List.length (filter is_put (st_trace s')) = 2%nat)) \/
  (validateFile file = Ok tt /\ e = RangeError /\
   List.length (filter is_put (st_trace s')) = 2%nat /\
   JS.truthy (auto_delete_minutes options) = true /\
   exists w', expiryValid sys options w' = false).
Proof.
  set (s := {| st_world := w; st_trace := [] |}). intros Hrun.
  destruct (validateFile file) as [[]|e0] eqn:Hv.
  2:{ rewrite (processImage_invalid lib sys file options e0 s Hv) in Hrun.
      injection Hrun as <- <-. left.
      split; [reflexivity|]. split; [|reflexivity].
      now apply (validateFile_error_kinds file). }
  right.
  destruct (processImageFile lib file options (afterUuid sys s))
    as [[p|e0] s2] eqn:Hf.
  2:{ rewrite (processImage_file_fails lib sys file options s e0 s2 Hv Hf) in Hrun.
      injection Hrun as <- <-. left.
      destruct (processImageFile_fail_inv lib file options _ _ _ Hf)
        as (-> & _ & evs & Htr & Hput).
      rewrite Htr. cbn [afterUuid st_trace s app].
      repeat split. cbn. exact Hput. }
  destruct (processImageFile_inv lib file options _ _ p Hf)
    as (md & info & t & tinfo & tmd & _ & _ & _ & _ & _ & _ & Ht & _ & _ & _ & Htr).
  assert (Hfp : filter is_put (st_trace s2) = []).
  { rewrite Htr. reflexivity. }
  right.
  destruct (fst (primaryPut sys file s p s2)) as [url|] eqn:H1.
  - destruct (fst (thumbnailPut sys file s p s2 t)) as [turl|] eqn:H2.
    + destruct (expiryValid sys options
                  (st_world (afterPublish sys file s p s2 t))) eqn:Hx.
      * destruct (processImage_published lib sys file options s p s2 t Hv Hf Ht
                    url turl H1 H2 Hx) as (image & th & s3 & m & s5 & evs & E & _).
        rewrite E in Hrun. discriminate.
      * destruct (processImage_expiry_invalid lib sys file options s p s2 t
                    Hv Hf Ht url turl H1 H2 Hx)
          as (m & s5 & evs & _ & _ & Ht5 & Hp5 & E).
        rewrite E in Hrun. injection Hrun as <- <-. right.
        split; [reflexivity|]. split; [reflexivity|]. split; [|split].
        -- cbn [st_trace]. rewrite Ht5. unfold afterPublish. cbn [st_trace].
           rewrite !filter_app, Hfp, (filter_existsb_false _ _ Hp5).
           reflexivity.
        -- unfold expiryValid, expiryAt in Hx.
           destruct (JS.truthy (auto_delete_minutes options));
             [reflexivity | discriminate].
        -- eexists. exact Hx.
    + rewrite (processImage_thumbnail_refused lib sys file options s p s2 t
                 Hv Hf Ht url H1 H2) in Hrun.
      injection Hrun as <- <-. left. split; [reflexivity|].
      split; [reflexivity|]. right.
      unfold afterPublish. cbn [st_trace]. rewrite filter_app, Hfp. reflexivity.
  - rewrite (processImage_primary_refused lib sys file options s p s2
               Hv Hf H1) in Hrun.
    injection Hrun as <- <-. left. split; [reflexivity|].
    split; [reflexivity|]. left.
    cbn [st_trace]. rewrite filter_app, Hfp. reflexivity.
Qed.

Lemma processImage_error_kinds_witness :
  exists s',
    processImage Fixture.codec Fixture.platform Fixture.photo farExpiry
      (Fixture.start [true; true]) = (Err RangeError, s') /\
    List.length (filter is_put (st_trace s')) = 2%nat.
Proof.
  let v := eval vm_compute in
    (processImage Fixture.codec Fixture.platform Fixture.photo farExpiry
       (Fixture.start [true; true])) in
  match v with
  | (Err ?e, ?s) =>
      pose (s' := s);
      assert (Hrun : processImage Fixture.codec Fixture.platform Fixture.photo
                       farExpiry (Fixture.start [true; true])
                     = (Err e, s')) by (vm_compute; reflexivity)
  end.
  exists s'. split; [exact Hrun|].
  destruct (processImage_error_kinds _ _ _ _ _ _ _ Hrun)
    as [(Hv & _) | [(_ & He & _) | [(_ & He & _) | (_ & _ & Hput & _)]]].
  - vm_compute in Hv. discriminate.
  - discriminate.
  - discriminate.
  - exact Hput.
Defined.

(** When the store refuses the primary artifact the thumbnail is not
    sent.  When it takes the primary artifact and refuses the thumbnail,
    the run stops there: the primary artifact has been stored and no
    further call is made about it. *)
Theorem processImage_publish_failure {W : Type} (lib : Sharp) (sys : Platform W)
    (file : File) (options : UploadOptions) (s : St W)
    (p : Processed) (s2 : St W) (t : JS.Buffer) :
  validateFile file = Ok tt ->
  processImageFile lib file options (afterUuid sys s) = (Ok p, s2) ->
  pr_thumbnail p = Some t ->
  (fst (primaryPut sys file s p s2) = None ->
   processImage lib sys file options s =
   (Err PublishError,
    {| st_world := snd (primaryPut sys file s p s2);
       st_trace := st_trace s2 ++
                   [EvPut (primaryName sys file s) (pr_buffer p) (file_type file)] |})) /\
  (forall url,
     fst (primaryPut sys file s p s2) = Some url ->
     fst (thumbnailPut sys file s p s2 t) = None ->
     processImage lib sys file options s =
     (Err PublishError,
      {| st_world := snd (thumbnailPut sys file s p s2 t);
         st_trace := st_trace s2 ++
                     [EvPut (primaryName sys file s) (pr_buffer p) (file_type file);
                      EvPut (thumbnailName sys s) t "image/webp"] |})).
Proof.
  intros Hv Hf Ht. split.
  - now apply processImage_primary_refused.
  - intros url H1 H2.
    now apply (processImage_thumbnail_refused lib sys file options s p s2 t
                 Hv Hf Ht url).
Qed.

Lemma processImage_publish_failure_witness :
  exists s',
    processImage Fixture.codec Fixture.platform Fixture.photo Fixture.halfWidth
      (Fixture.start [false; true])
    = (Err PublishError, s') /\
    List.length (filter is_put (st_trace s')) = 1%nat.
Proof.
  let v := eval vm_compute in
    (processImageFile Fixture.codec Fixture.photo Fixture.halfWidth
       (afterUuid Fixture.platform (Fixture.start [false; true]))) in
  match v with
  | (Ok ?p, ?s2) =>
      let tb := eval vm_compute in (pr_thumbnail p) in
      match tb with
      | Some ?t =>
          destruct (processImage_publish_failure Fixture.codec Fixture.platform
                      Fixture.photo Fixture.halfWidth
                      (Fixture.start [false; true]) p s2 t)
            as [Hfirst _]
      end
  end.
  - reflexivity.
  - vm_compute. reflexivity.
  - reflexivity.
  - eexists. split.
    + apply Hfirst. vm_compute. reflexivity.
    + vm_compute. reflexivity.
Defined.

(** ** What the record says *)

(** The metadata of the record describes the primary artifact that was
    published, not the upload: it is [{}], or its quality score, palette
    and dominant colour are computed from the codec's reading of the
    published bytes, scaled to 150 by 150 for the palette. *)
Theorem metadata_describes_published_artifact {W : Type} (lib : Sharp)
    (sys : Platform W) (file : File) (options : UploadOptions) (s s' : St W)
    (image : Image) (thumbnail : option Image) :
  processImage lib sys file options s = (Ok (image, thumbnail), s') ->
  exists primary info,
    sharp_toBuffer lib (primaryPipeline (file_bytes file) options)
      = Some (primary, info) /\
    In (EvPut (img_filename image) primary (img_mime_type image)) (st_trace s') /\
    (img_metadata image = emptyMetadata \/
     exists md data rinfo palette,
       sharp_metadata lib primary = Some md /\
       sharp_toBuffer lib (rawPipeline primary) = Some (data, rinfo) /\
       extractColorPalette data (info_width rinfo) (info_height rinfo) = Ok palette /\
       quality_score (img_metadata image) = Some (calculateQualityScore md) /\
       color_palette (img_metadata image) = Some palette /\
       dominant_color (img_metadata image) = Some (getDominantColor palette)).
Proof.
  intros Hrun.
  destruct (processImage_inv lib sys file options s _ _ _ Hrun)
    as (p & s2 & t & url & turl & Hv & Hf & Ht & H1 & H2 & Hx).
  destruct (processImage_published lib sys file options s p s2 t Hv Hf Ht
              url turl H1 H2 Hx)
    as (image' & th & s'' & m & s5 & evs & E & Hm & Htr & _ & Hmeta & _ & Hfn
        & _ & Hmt & _).
  rewrite E in Hrun. injection Hrun as <- <- <-.
  destruct (processImageFile_inv lib file options _ _ p Hf)
    as (md0 & info & t' & tinfo & tmd & _ & Hprim & _).
  exists (pr_buffer p), info. split; [exact Hprim|]. split.
  - rewrite Htr, Hfn, Hmt. unfold afterPublish. cbn [st_trace].
    apply in_or_app. left. apply in_or_app. right. now left.
  - rewrite Hmeta.
    destruct (extractMetadata_cases lib (pr_buffer p) file
                (afterPublish sys file s p s2 t))
      as [(md & data & rinfo & palette & Hmd & Hraw & Hp & E')
         |(evs' & e & s1 & _ & _ & E')];
      rewrite E' in Hm; injection Hm as <- _; [right | now left].
    exists md, data, rinfo, palette. auto 10.
Qed.

Lemma metadata_describes_published_artifact_witness :
  exists image thumbnail s',
    processImage Fixture.codec Fixture.platform Fixture.photo Fixture.halfWidth
      (Fixture.start [true; true])
    = (Ok (image, thumbnail), s') /\
    exists primary info,
      sharp_toBuffer Fixture.codec
        (primaryPipeline (file_bytes Fixture.photo) Fixture.halfWidth)
      = Some (primary, info) /\
      In (EvPut (img_filename image) primary (img_mime_type image)) (st_trace s').
Proof.
  let v := eval vm_compute in
    (processImage Fixture.codec Fixture.platform Fixture.photo Fixture.halfWidth
       (Fixture.start [true; true])) in
  match v with
  | (Ok (?i, ?t), ?s) =>
      exists i, t, s;
      assert (Hrun : processImage Fixture.codec Fixture.platform Fixture.photo
                       Fixture.halfWidth (Fixture.start [true; true])
                     = (Ok (i, t), s)) by (vm_compute; reflexivity)
  end.
  split; [exact Hrun|].
  destruct (metadata_describes_published_artifact _ _ _ _ _ _ _ _ Hrun)
    as (primary & info & Hp & Hin & _).
  exists primary, info. split; assumption.
Defined.

(** A new record starts with both counters at 0 and without an owner; it
    is public unless the options say otherwise, and takes password, album
    and tags (none by default) from the options and its original name from
    the upload.  It is stored under the generated identifier with one of
    the eight allowed extensions.  The thumbnail's record shares the
    visibility, and never carries the password, the album, the expiry, tags
    or metadata. *)
Theorem processImage_record_fields {W : Type} (lib : Sharp) (sys : Platform W)
    (file : File) (options : UploadOptions) (s s' : St W)
    (image : Image) (thumbnail : option Image) :
  processImage lib sys file options s = (Ok (image, thumbnail), s') ->
  img_user_id image = ""%string /\
  img_view_count image = 0 /\ img_download_count image = 0 /\
  img_is_public image = match is_public options with Some v => v | None => true end /\
  img_password image = password options /\
  img_album_id image = album_id options /\
  img_tags image = match tags options with Some l => l | None => [] end /\
  img_original_name image = file_name file /\
  (exists ext,
     In ext SUPPORTED_FORMATS /\
     img_filename image = (img_id image ++ "." ++ ext)%string) /\
  exists th,
    thumbnail = Some th /\
    img_id th = (img_id image ++ "_thumb")%string /\
    img_filename th = (img_id image ++ "_thumb.webp")%string /\
    img_original_name th = (file_name file ++ "_thumbnail")%string /\
    img_thumbnail_url image = Some (img_url th) /\
    img_is_public th = img_is_public image /\
    img_user_id th = ""%string /\
    img_view_count th = 0 /\ img_download_count th = 0 /\
    img_password th = None /\ img_album_id th = None /\
    img_auto_delete_at th = None /\ img_thumbnail_url th = None /\
    img_tags th = [] /\ img_metadata th = emptyMetadata.
Proof.
  intros Hrun.
  destruct (processImage_inv lib sys file options s _ _ _ Hrun)
    as (p & s2 & t & url & turl & Hv & Hf & Ht & H1 & H2 & Hx).
  destruct (processImage_published lib sys file options s p s2 t Hv Hf Ht
              url turl H1 H2 Hx)
    as (image' & th & s'' & m & s5 & evs & E & _ & _ & _ & _ & Hid & Hfn
        & Hon & _ & _ & _ & _ & _ & Htu & Htfn & _ & _ & _ & _ & Hthu).
  rewrite E in Hrun. injection Hrun as <- <- <-.
  destruct (processImage_assembled lib sys file options s p s2 t Hv Hf Ht
              url turl H1 H2 Hx)
    as (image2 & th2 & s3 & m2 & s52 & E' & _ & _ & _ & _ & Huid & Hvc & Hdc
        & Hpub & Hpw & Hal & Htags & _ & _ & _ & Htid & Htuid & Hton & Htpub
        & Htpw & Htal & Htad & Httu & _ & _ & Htvc & Htdc & Httags & Htm).
  rewrite E in E'. injection E' as <- <- _.
  assert (Hext : In (getFileExtension (file_name file)) SUPPORTED_FORMATS).
  { rewrite validateFile_cases in Hv.
    destruct (file_size file >? MAX_FILE_SIZE); [discriminate|].
    destruct (JS.includes SUPPORTED_FORMATS _) eqn:Hi; [|discriminate].
    now apply includes_In. }
  repeat (split; [assumption|]).
  split.
  - exists (getFileExtension (file_name file)).
    split; [exact Hext|]. now rewrite Hfn, Hid.
  - exists th. rewrite Hid, Htid, Htfn, Htu, Hthu, Htpub, Hpub.
    repeat split; assumption.
Qed.

Lemma processImage_record_fields_witness :
  exists image thumbnail s',
    processImage Fixture.codec Fixture.platform Fixture.photo expiringOptions
      (Fixture.start [true; true])
    = (Ok (image, thumbnail), s') /\
    img_is_public image = false /\
    img_password image = Some "s3cret"%string /\
    exists th, thumbnail = Some th /\ img_password th = None.
Proof.
  let v := eval vm_compute in
    (processImage Fixture.codec Fixture.platform Fixture.photo expiringOptions
       (Fixture.start [true; true])) in
  match v with
  | (Ok (?i, ?t), ?s) =>
      exists i, t, s;
      assert (Hrun : processImage Fixture.codec Fixture.platform Fixture.photo
                       expiringOptions (Fixture.start [true; true])
                     = (Ok (i, t), s)) by (vm_compute; reflexivity)
  end.
  split; [exact Hrun|].
  destruct (processImage_record_fields _ _ _ _ _ _ _ _ Hrun)
    as (_ & _ & _ & Hpub & Hpw & _ & _ & _ & _ & th & Hth & _ & _ & _ & _ & _
        & _ & _ & _ & Htpw & _).
  split; [exact Hpub|]. split; [exact Hpw|].
  exists th. split; assumption.
Defined.

Lemma clockRead_monotone {W : Type} (sys : Platform W) (n : nat) (w : W) :
  MonotoneClock sys -> clockRead sys n w <= clockRead sys (S n) w.
Proof.
  intros H. unfold clockRead. cbn [afterReads]. apply H.
Qed.

(** The expiry is absent exactly when [auto_delete_minutes] is absent or
    0.  Otherwise it is the first reading of the clock after the second
    upload plus that many minutes, in milliseconds, and a valid date;
    [created_at] and [updated_at] are the two readings that follow (the
    first two when there is no expiry).  So with a clock that never goes
    back the expiry is at most so many minutes after [created_at], and
    [created_at] is not after [updated_at]. *)
Theorem processImage_expiry {W : Type} (lib : Sharp) (sys : Platform W)
    (file : File) (options : UploadOptions) (s s' : St W)
    (image : Image) (thumbnail : option Image) :
  processImage lib sys file options s = (Ok (image, thumbnail), s') ->
  exists p s2 t,
    processImageFile lib file options (afterUuid sys s) = (Ok p, s2) /\
    pr_thumbnail p = Some t /\
    (img_auto_delete_at image = None <->
     auto_delete_minutes options = None \/ auto_delete_minutes options = Some 0) /\
    (forall m, auto_delete_minutes options = Some m -> m <> 0 ->
       img_auto_delete_at image
       = Some (clockRead sys 0 (snd (thumbnailPut sys file s p s2 t)) + m * 60 * 1000) /\
       JS.validTime
         (clockRead sys 0 (snd (thumbnailPut sys file s p s2 t)) + m * 60 * 1000)
       = true /\
       img_created_at image = clockRead sys 1 (snd (thumbnailPut sys file s p s2 t)) /\
       img_updated_at image = clockRead sys 2 (snd (thumbnailPut sys file s p s2 t)) /\
       (MonotoneClock sys ->
        forall d, img_auto_delete_at image = Some d ->
                  d <= img_created_at image + m * 60 * 1000)) /\
    (img_auto_delete_at image = None ->
     img_created_at image = clockRead sys 0 (snd (thumbnailPut sys file s p s2 t)) /\
     img_updated_at image = clockRead sys 1 (snd (thumbnailPut sys file s p s2 t))) /\
    (MonotoneClock sys -> img_created_at image <= img_updated_at image).
Proof.
  intros Hrun.
  destruct (processImage_inv lib sys file options s _ _ _ Hrun)
    as (p & s2 & t & url & turl & Hv & Hf & Ht & H1 & H2 & Hx).
  destruct (processImage_assembled lib sys file options s p s2 t Hv Hf Ht
              url turl H1 H2 Hx)
    as (image' & th' & s3 & m' & s5' & E' & _ & _ & _ & _ & _ & _ & _
        & _ & _ & _ & _ & Had & Hc & Hu & _).
  rewrite E' in Hrun. injection Hrun as <- _ _.
  exists p, s2, t. split; [exact Hf|]. split; [exact Ht|].
  rewrite Had, Hc, Hu. clear Had Hc Hu E'.
  unfold expiryValid, expiryAt in Hx. revert Hx.
  change (st_world (afterPublish sys file s p s2 t))
    with (snd (thumbnailPut sys file s p s2 t)).
  generalize (snd (thumbnailPut sys file s p s2 t)) as w. intros w.
  change (fst (date_now sys w)) with (clockRead sys 0 w).
  unfold JS.orElse.
  destruct (auto_delete_minutes options) as [m|]; cbn [JS.truthy].
  - destruct (Z.eqb_spec m 0) as [->|Hm]; cbn [negb Nat.add].
    + intros _. split; [split; auto|]. split; [|split].
      * intros m [= <-] Hm. now destruct Hm.
      * intros _. split; reflexivity.
      * intros Hmono. now apply clockRead_monotone.
    + intros Hx.
      split; [split; [discriminate | intros [H|[= H]]; congruence]|].
      split; [|split].
      * intros m0 [= <-] _.
        split; [reflexivity|]. split; [exact Hx|].
        split; [reflexivity|]. split; [reflexivity|].
        intros Hmono d [= <-].
        pose proof (clockRead_monotone sys 0 w Hmono). lia.
      * discriminate.
      * intros Hmono. now apply clockRead_monotone.
  - intros _. split; [split; auto|]. split; [|split].
    + intros m [=].
    + intros _. split; reflexivity.
    + intros Hmono. now apply clockRead_monotone.
Qed.

Lemma fixture_clock_monotone : MonotoneClock Fixture.platform.
Proof.
  intros w. cbn. lia.
Qed.

Lemma processImage_expiry_witness :
  exists image thumbnail s',
    processImage Fixture.codec Fixture.platform Fixture.photo expiringOptions
      (Fixture.start [true; true])
    = (Ok (image, thumbnail), s') /\
    img_auto_delete_at image = Some (1700000000000 + 5 * 60 * 1000) /\
    img_created_at image = 1700000000001 /\
    img_updated_at image = 1700000000002.
Proof.
  let v := eval vm_compute in
    (processImage Fixture.codec Fixture.platform Fixture.photo expiringOptions
       (Fixture.start [true; true])) in
  match v with
  | (Ok (?i, ?t), ?s) =>
      exists i, t, s;
      assert (Hrun : processImage Fixture.codec Fixture.platform Fixture.photo
                       expiringOptions (Fixture.start [true; true])
                     = (Ok (i, t), s)) by (vm_compute; reflexivity)
  end.
  split; [exact Hrun|].
  destruct (processImage_expiry _ _ _ _ _ _ _ _ Hrun)
    as (p & s2 & t & Hf & Ht & _ & Hexp & _).
  destruct (Hexp 5 eq_refl ltac:(discriminate)) as (Had & _ & Hc & Hu & _).
  vm_compute in Hf. injection Hf as <- <-.
  injection Ht as <-.
  split; [exact Had|]. split; [exact Hc | exact Hu].
Defined.

(** ** The upload route *)

(** [POST] never answers with success.  Whatever the request and whatever
    the collaborators do, the status is 500, [success] is [false], no
    record is returned and an error has been logged: after a successful
    insert the handler reads a name that is bound nowhere, and the
    [ReferenceError] lands in its own [catch].  A file the pipeline turns
    down, for whatever reason, gets the same answer as any other failure. *)
Theorem POST_never_succeeds {W : Type} (lib : Sharp) (sys : Platform W)
    (db : Backend W) (request : option FormData) (s : St W) :
  res_status (fst (POST lib sys db request s)) = 500 /\
  res_success (fst (POST lib sys db request s)) = false /\
  res_data (fst (POST lib sys db request s)) = None /\
  (res_error (fst (POST lib sys db request s)) = Some "Internal server error"%string \/
   res_error (fst (POST lib sys db request s)) = Some "Failed to save image data"%string) /\
  In EvConsoleError (st_trace (snd (POST lib sys db request s))) /\
  (forall fd f o e s1,
     request = Some fd -> fd_file fd = Some f -> optionsOf db fd = Some o ->
     processImage lib sys f o s = (Err e, s1) ->
     POST lib sys db request s
     = (failure 500 "Internal server error", logged EvConsoleError s1)).
Proof.
  assert (Hlog : forall s0 : St W,
             In EvConsoleError (st_trace (logged EvConsoleError s0))).
  { intros s0. cbn. apply in_or_app. right. now left. }
  assert (Hmain :
    res_status (fst (POST lib sys db request s)) = 500 /\
    res_success (fst (POST lib sys db request s)) = false /\
    res_data (fst (POST lib sys db request s)) = None /\
    (res_error (fst (POST lib sys db request s)) = Some "Internal server error"%string \/
     res_error (fst (POST lib sys db request s)) = Some "Failed to save image data"%string) /\
    In EvConsoleError (st_trace (snd (POST lib sys db request s)))).
  { unfold POST, POST_try, hbind, hret, hthrow, hlift, call_insert.
    destruct request as [fd|]; [|cbn [fst snd]; repeat split; auto].
    destruct (optionsOf db fd) as [o|]; [|cbn [fst snd]; repeat split; auto].
    destruct (fd_file fd) as [f|]; [|cbn [fst snd]; repeat split; auto].
    destruct (processImage lib sys f o s) as [[[image thumbnail]|e] s1];
      [|cbn [fst snd]; repeat split; auto].
    rewrite !call_now_run. cbn [st_world st_trace fst snd].
    destruct (images_insert db _ _) as [[data| |] w'];
      cbn [st_world st_trace fst snd emit]; repeat split; auto. }
  destruct Hmain as (H1 & H2 & H3 & H4 & H5).
  repeat (split; [assumption|]).
  intros fd f o e s1 -> Hf Ho Hrun.
  unfold POST, POST_try, hbind, hret, hthrow, hlift.
  now rewrite Ho, Hf, Hrun.
Qed.

Lemma POST_never_succeeds_witness :
  POST Fixture.codec Fixture.platform acceptingBackend
    (Some {| fd_file := Some (Fixture.tooBig "big.png"); fd_options := None |})
    (Fixture.start [true; true])
  = (failure 500 "Internal server error",
     logged EvConsoleError (Fixture.start [true; true])).
Proof.
  eapply (proj2 (proj2 (proj2 (proj2 (proj2
            (POST_never_succeeds Fixture.codec Fixture.platform acceptingBackend
               _ (Fixture.start [true; true]))))))).
  - reflexivity.
  - reflexivity.
  - reflexivity.
  - vm_compute. reflexivity.
Defined.



(** ** When a run succeeds *)

(** Nothing but the validator, the codec, the store and the expiry date
    can stop a run.  Take a file the validator accepts, whose bytes the
    codec reads and turns into the primary artifact and the thumbnail, and
    a store that takes both.  When the options ask for no expiry, or for
    one whose date is valid, the run returns its record, with the two
    addresses the store gave.  When the expiry date is not valid the run
    throws [RangeError], with both artifacts in the store. *)
Theorem processImage_succeeds {W : Type} (lib : Sharp) (sys : Platform W)
    (file : File) (options : UploadOptions) (s : St W)
    (md tmd : SharpMetadata) (out t : JS.Buffer) (info tinfo : OutputInfo)
    (url turl : string) :
  validateFile file = Ok tt ->
  sharp_metadata lib (file_bytes file) = Some md ->
  sharp_toBuffer lib (primaryPipeline (file_bytes file) options) = Some (out, info) ->
  sharp_toBuffer lib (thumbnailPipeline (file_bytes file)) = Some (t, tinfo) ->
  sharp_metadata lib t = Some tmd ->
  let w1 := snd (uuidv4 sys (st_world s)) in
  let put1 := blob_put sys (primaryName sys file s) out (file_type file) w1 in
  let put2 := blob_put sys (thumbnailName sys s) t "image/webp" (snd put1) in
  fst put1 = Some url ->
  fst put2 = Some turl ->
  (expiryValid sys options (snd put2) = true ->
   exists image th s',
     processImage lib sys file options s = (Ok (image, Some th), s') /\
     img_url image = url /\
     img_thumbnail_url image = Some turl /\
     img_url th = turl /\
     img_size th = JS.byteLength t) /\
  (expiryValid sys options (snd put2) = false ->
   exists s',
     processImage lib sys file options s = (Err RangeError, s') /\
     filter is_put (st_trace s') =
       filter is_put (st_trace s) ++
       [EvPut (primaryName sys file s) out (file_type file);
        EvPut (thumbnailName sys s) t "image/webp"]).
Proof.
  intros Hv Hm Ho Ht Htm w1 put1 put2 H1 H2.
  destruct (processImageFile_run lib file options (afterUuid sys s)
              md tmd out t info tinfo Hm Ho Ht Htm) as (s2 & Hf & Hw & Htr).
  subst put2 put1 w1.
  set (p := {| pr_buffer := out;
               pr_width := match md_width md with Some w => w | None => 0 end;
               pr_height := match md_height md with Some h => h | None => 0 end;
               pr_thumbnail := Some t;
               pr_thumbnailWidth := JS.orElse (md_width tmd) 300;
               pr_thumbnailHeight := JS.orElse (md_height tmd) 300 |}) in *.
  assert (H1' : fst (primaryPut sys file s p s2) = Some url).
  { unfold primaryPut. now rewrite Hw. }
  assert (H2' : fst (thumbnailPut sys file s p s2 t) = Some turl).
  { unfold thumbnailPut, primaryPut. now rewrite Hw. }
  assert (Hworld : st_world (afterPublish sys file s p s2 t)
                   = snd (blob_put sys (thumbnailName sys s) t "image/webp"
                            (snd (blob_put sys (primaryName sys file s) out
                                    (file_type file)
                                    (snd (uuidv4 sys (st_world s))))))).
  { unfold afterPublish, thumbnailPut, primaryPut. cbn [st_world].
    now rewrite Hw. }
  rewrite <- Hworld. split; intros Hx.
  - destruct (processImage_published lib sys file options s p s2 t Hv Hf
                eq_refl url turl H1' H2' Hx)
      as (image & th & s' & m & s5 & evs & E & _ & _ & _ & _ & _ & _ & _ & _ & _
          & _ & _ & Hu & Htu & _ & _ & Hsz & _ & _ & Hthu).
    exists image, th, s'. auto.
  - destruct (processImage_expiry_invalid lib sys file options s p s2 t Hv Hf
                eq_refl url turl H1' H2' Hx)
      as (m & s5 & evs & _ & _ & Ht5 & Hp5 & E).
    eexists. split; [exact E|].
    cbn [st_trace]. rewrite Ht5. unfold afterPublish. cbn [st_trace].
    rewrite Htr. unfold afterUuid. cbn [st_trace].
    rewrite !filter_app, (filter_existsb_false _ _ Hp5).
    cbn [filter is_put fileEvents app pr_buffer p]. now rewrite !app_nil_r.
Qed.

Lemma processImage_succeeds_witness :
  (exists image th s',
     processImage Fixture.codec Fixture.platform Fixture.photo noOptions
       (Fixture.start [true; true])
     = (Ok (image, Some th), s') /\
     img_url image = "https://blob.example/6f1c.png"%string) /\
  (exists s',
     processImage Fixture.codec Fixture.platform Fixture.photo farExpiry
       (Fixture.start [true; true])
     = (Err RangeError, s')).
Proof.
  split.
  - edestruct (processImage_succeeds Fixture.codec Fixture.platform Fixture.photo
                 noOptions (Fixture.start [true; true]))
      as (Hvalid & _).
    + reflexivity.
    + vm_compute. reflexivity.
    + vm_compute. reflexivity.
    + vm_compute. reflexivity.
    + vm_compute. reflexivity.
    + vm_compute. reflexivity.
    + vm_compute. reflexivity.
    + destruct (Hvalid eq_refl) as (image & th & s' & Hrun & Hu & _).
      exists image, th, s'. split; [exact Hrun | exact Hu].
  - edestruct (processImage_succeeds Fixture.codec Fixture.platform Fixture.photo
                 farExpiry (Fixture.start [true; true]))
      as (_ & Hinvalid).
    + reflexivity.
    + vm_compute. reflexivity.
    + vm_compute. reflexivity.
    + vm_compute. reflexivity.
    + vm_compute. reflexivity.
    + vm_compute. reflexivity.
    + vm_compute. reflexivity.
    + destruct (Hinvalid eq_refl) as (s' & Hrun & _).
      exists s'. exact Hrun.
Defined.
